(** * gdprclient: the retry policy, the resilient executor and the CRUD layer

    A shallow embedding of [gdprclientlibrary.go].  Go's [int] and
    [time.Duration] are integers ([Z]); [float64] is the kernel's binary64
    ([PrimFloat]); [error] values are an inductive type that covers the error
    values the client inspects; the effects of the client (HTTP exchanges,
    closing and reading of response bodies, sleeps, random draws, log lines)
    are recorded in a trace threaded through a small state monad.  What the
    client takes from outside (the server and the transport, the random
    source, [math.Pow], [encoding/json], the printing of URLs) is a
    parameter of the development.

    The file gives the definitions first (the Go library values the client
    uses, the client itself, sample values), then the properties, then
    concrete runs. *)

From Stdlib Require Import ZArith List String Ascii Bool Lia.
From Stdlib Require Import Floats.
From Stdlib Require DecimalString.
Import ListNotations.

Local Open Scope string_scope.
Local Open Scope Z_scope.

(** ** Strings *)

Module Str.

(** The double-quote character, which [%q] puts around a string. *)
Definition dquote : string := String (ascii_of_nat 34) EmptyString.

(** [strconv.Quote] on a string that needs no escape (as the URLs of this
    client: [url.URL.String] percent-encodes everything else). *)
Definition Quote (s : string) : string := dquote ++ s ++ dquote.

(** [fmt.Sprintf("%d", n)]. *)
Definition itoa (n : Z) : string :=
  DecimalString.NilZero.string_of_int (Z.to_int n).

Definition lower_ascii (c : ascii) : ascii :=
  let n := nat_of_ascii c in
  if (Nat.leb 65 n && Nat.leb n 90)%bool then ascii_of_nat (n + 32) else c.

(** [strings.ToLower] on ASCII text. *)
Fixpoint ToLower (s : string) : string :=
  match s with
  | EmptyString => EmptyString
  | String c s' => String (lower_ascii c) (ToLower s')
  end.

(** Does the character [c] occur in [s]? *)
Fixpoint occurs (c : ascii) (s : string) : bool :=
  match s with
  | EmptyString => false
  | String d s' => Ascii.eqb c d || occurs c s'
  end.

End Str.

(** ** Errors

    The error values of Go's library that reach the client.  A sentinel is a
    constructor without arguments; a wrapping error carries the error it
    wraps and prints it after its own prefix, as the Go types do. *)

Inductive error : Type :=
| context_DeadlineExceeded
| context_Canceled
| syscall_ECONNREFUSED
| errors_New (text : string)
| os_SyscallError (Syscall : string) (Err : error)
| net_OpError (Op Net Addr : string) (Err : error)
| net_DNSError (Err Name : string)
| url_Error (Op URL : string) (Err : error)
| http_timeoutError (err : string)   (* net/http: a passed [Client.Timeout] *)
| net_timeoutError                   (* net: a passed deadline of a dial or a read *)
| net_canceledError.                 (* net: a cancelled dial *)

(** [err.Error()] *)
Fixpoint Error (e : error) : string :=
  match e with
  | context_DeadlineExceeded => "context deadline exceeded"
  | context_Canceled => "context canceled"
  | syscall_ECONNREFUSED => "connection refused"
  | errors_New text => text
  | os_SyscallError sc err => sc ++ ": " ++ Error err
  | net_OpError op net addr err =>
      op ++ (if (net =? "")%string then "" else " " ++ net)
         ++ (if (addr =? "")%string then "" else " " ++ addr)
         ++ ": " ++ Error err
  | net_DNSError err name => "lookup " ++ name ++ ": " ++ err
  | url_Error op url err => op ++ " " ++ Str.Quote url ++ ": " ++ Error err
  | http_timeoutError err => err
  | net_timeoutError => "i/o timeout"
  | net_canceledError => "operation was canceled"
  end.

(** [errors.Unwrap(err)] *)
Definition Unwrap (e : error) : option error :=
  match e with
  | os_SyscallError _ err | net_OpError _ _ _ err | url_Error _ _ err => Some err
  | _ => None
  end.

(** Identity with one of the two [context] sentinels, the only targets the
    client passes to [errors.Is]. *)
Inductive sentinel : Type := DeadlineExceeded | Canceled.

Definition is_sentinel (t : sentinel) (e : error) : bool :=
  match t, e with
  | DeadlineExceeded, context_DeadlineExceeded => true
  | Canceled, context_Canceled => true
  | _, _ => false
  end.

(** The [Is] methods: [err.Is(target)] for the errors that have one.  The
    timeout errors of [net/http] and [net] say that they are
    [context.DeadlineExceeded], the cancellation error of [net] that it is
    [context.Canceled]. *)
Definition Is_method (e : error) (target : sentinel) : bool :=
  match e, target with
  | http_timeoutError _, DeadlineExceeded => true
  | net_timeoutError, DeadlineExceeded => true
  | net_canceledError, Canceled => true
  | _, _ => false
  end.

(** [errors.Is(err, target)]: [err] or an error in its [Unwrap] chain is the
    target, or says through its [Is] method that it is. *)
Fixpoint errors_Is (e : error) (target : sentinel) : bool :=
  is_sentinel target e || Is_method e target ||
  match e with
  | os_SyscallError _ err | net_OpError _ _ _ err | url_Error _ _ err =>
      errors_Is err target
  | _ => false
  end.

(** The errno [ECONNREFUSED] is in the chain: what Go's
    [errors.Is(err, syscall.ECONNREFUSED)] tests. *)
Fixpoint is_connection_refused (e : error) : bool :=
  match e with
  | syscall_ECONNREFUSED => true
  | os_SyscallError _ err | net_OpError _ _ _ err | url_Error _ _ err =>
      is_connection_refused err
  | _ => false
  end.

(** A DNS error saying that the host does not exist is in the chain. *)
Fixpoint is_no_such_host (e : error) : bool :=
  match e with
  | net_DNSError err _ => (err =? "no such host")%string
  | os_SyscallError _ err | net_OpError _ _ _ err | url_Error _ _ err =>
      is_no_such_host err
  | _ => false
  end.

(** ** The policy evaluator *)

(** [ShouldRetry(statusCode, err)]; a nil [err] is [None]. *)
Definition ShouldRetry (statusCode : Z) (err : option error) : bool :=
  if match err with
     | Some e =>
         errors_Is e DeadlineExceeded
         || errors_Is e Canceled
         || (Error e =? "connection refused")%string
         || (Error e =? "no such host")%string
     | None => false
     end
  then true
  else if (statusCode >=? 500) && negb (statusCode =? 501) then true
  else if statusCode =? 429 then true
  else false.

(** ** Numbers: [time.Duration], [int] and [float64] *)

(** A [time.Duration] is an [int64] count of nanoseconds. *)
Definition Duration : Type := Z.

Definition Millisecond : Duration := 1000000.
Definition Second : Duration := 1000000000.

(** The conversion [float64(n)] of an integer: the nearest binary64, ties to
    even. *)
Definition float64_of_int (n : Z) : float :=
  SF2Prim (binary_normalize prec emax n 0 false).

(** The integer a finite binary64 truncates to (toward zero); [None] for an
    infinity or a NaN. *)
Definition float64_trunc (f : float) : option Z :=
  match Prim2SF f with
  | S754_zero _ => Some 0
  | S754_finite s m e =>
      let v := if 0 <=? e then Zpos m * 2 ^ e else Zpos m / 2 ^ (- e) in
      Some (if s then - v else v)
  | S754_infinity _ | S754_nan => None
  end.

(** ** HTTP values *)

(** [http.Header], as far as the client uses it: [Set] leaves one value per
    key. *)
Definition Header : Type := list (string * string).

Definition Header_Set (h : Header) (key value : string) : Header :=
  (key, value) :: filter (fun kv => negb (fst kv =? key)%string) h.

Record Request : Type := {
  Method : string;
  URL : string;
  Req_Header : Header;
  Req_Body : string
}.

(** [req.Clone(ctx)]: a copy with headers of its own that shares the body
    reader of the original; [Req_Body] is what that reader still holds. *)
Definition Request_Clone (r : Request) : Request :=
  {| Method := Method r; URL := URL r;
     Req_Header := Req_Header r; Req_Body := Req_Body r |}.

(** A request after an exchange that left [rest] of its body unread: the
    body reader is a buffer, and nothing rewinds it. *)
Definition Request_rest (r : Request) (rest : string) : Request :=
  {| Method := Method r; URL := URL r;
     Req_Header := Req_Header r; Req_Body := rest |}.

Definition Request_Header_Set (r : Request) (key value : string) : Request :=
  {| Method := Method r; URL := URL r;
     Req_Header := Header_Set (Req_Header r) key value; Req_Body := Req_Body r |}.

(** A response body ([io.ReadCloser]): the stream [body_id], the bytes a
    reader gets from it and the error the read ends with, if any, and what a
    read gives once the body is closed. *)
Record ReadCloser : Type := {
  body_id : nat;
  body_bytes : string;
  body_err : option error;
  read_after_close : string * option error
}.

(** [http.ErrBodyReadAfterClose], the answer of a body from the network to a
    read after [Close]. *)
Definition http_ErrBodyReadAfterClose : error :=
  errors_New "http: read on closed response body".

(** [http.NoBody], the body of a response without content: every read of
    it, also after [Close], is at the end and gives no error. *)
Definition http_NoBody (id : nat) : ReadCloser :=
  {| body_id := id; body_bytes := ""; body_err := None;
     read_after_close := ("", None) |}.

(** [*http.Response] *)
Record http_Response : Type := {
  StatusCode : Z;
  Body : ReadCloser
}.

(** What one exchange with the server gives [http.Client.Do] before it
    returns: a response; a failure without a response; or a redirect to
    [loc] (the [Location] header) that the client's redirect policy refuses,
    where [Do] returns the last response, its body closed, together with the
    error. *)
Inductive outcome : Type :=
| Responded (r : http_Response)
| Failed (e : error)
| RedirectRefused (r : http_Response) (loc : string) (e : error).

(** ** Effects *)

Inductive event : Type :=
| EvDo (req : Request)        (* c.httpClient.Do(req) *)
| EvClose (body : nat)        (* resp.Body.Close() *)
| EvRead (body : nat)         (* io.ReadAll(resp.Body) *)
| EvSleep (d : Duration)      (* time.Sleep(d) *)
| EvRand                      (* rand.Float64() *)
| EvLog (line : string).      (* log.Printf(...) *)

Definition trace : Type := list event.

Definition is_Do (e : event) : bool := match e with EvDo _ => true | _ => false end.
Definition is_Sleep (e : event) : bool := match e with EvSleep _ => true | _ => false end.
Definition is_Rand (e : event) : bool := match e with EvRand => true | _ => false end.
Definition is_Read (e : event) : bool := match e with EvRead _ => true | _ => false end.
Definition is_Close_of (b : nat) (e : event) : bool :=
  match e with EvClose b' => Nat.eqb b b' | _ => false end.
Definition is_Read_of (b : nat) (e : event) : bool :=
  match e with EvRead b' => Nat.eqb b b' | _ => false end.

(** The number of HTTP exchanges of a trace. *)
Definition attempts (t : trace) : nat := List.length (filter is_Do t).

(** The requests sent, in order. *)
Fixpoint requests (t : trace) : list Request :=
  match t with
  | [] => []
  | EvDo r :: t' => r :: requests t'
  | _ :: t' => requests t'
  end.

(** The durations slept, in order. *)
Fixpoint sleeps (t : trace) : list Duration :=
  match t with
  | [] => []
  | EvSleep d :: t' => d :: sleeps t'
  | _ :: t' => sleeps t'
  end.

Definition draws (t : trace) : nat := List.length (filter is_Rand t).
Definition reads (t : trace) : nat := List.length (filter is_Read t).
Definition closed (b : nat) (t : trace) : bool := existsb (is_Close_of b) t.
Definition was_read (b : nat) (t : trace) : bool := existsb (is_Read_of b) t.

(** The result of a computation: a value, a run-time panic, or the model's
    loop bound reached (shown below never to happen). *)
Inductive res (A : Type) : Type :=
| Val (a : A)
| Panic (msg : string)
| OutOfFuel.

Arguments Val {A} a.
Arguments Panic {A} msg.
Arguments OutOfFuel {A}.

(** A computation reads the trace so far and extends it. *)
Definition M (A : Type) : Type := trace -> res A * trace.

Definition ret {A : Type} (a : A) : M A := fun t => (Val a, t).

Definition bind {A B : Type} (m : M A) (k : A -> M B) : M B :=
  fun t =>
    match m t with
    | (Val a, t') => k a t'
    | (Panic msg, t') => (Panic msg, t')
    | (OutOfFuel, t') => (OutOfFuel, t')
    end.

Definition panic {A : Type} (msg : string) : M A := fun t => (Panic msg, t).
Definition out_of_fuel {A : Type} : M A := fun t => (OutOfFuel, t).
Definition emit (e : event) : M unit := fun t => (Val tt, (t ++ [e])%list).

Declare Scope go_scope.
Delimit Scope go_scope with go.
Notation "x <- c ;; k" := (bind c (fun x => k))
  (at level 100, c at next level, right associativity) : go_scope.
Notation "' p <- c ;; k" := (bind c (fun x => match x with p => k end))
  (at level 100, p pattern, c at next level, right associativity) : go_scope.
Notation "c ;; k" := (bind c (fun _ => k))
  (at level 100, right associativity) : go_scope.
Local Open Scope go_scope.

(** ** The client's configuration *)

Record RetryPolicy : Type := {
  MaxRetries : Z;
  InitialBackoff : Duration;
  MaxBackoff : Duration;
  BackoffFactor : float;
  Jitter : float
}.

Definition DefaultRetryPolicy : RetryPolicy :=
  {| MaxRetries := 3;
     InitialBackoff := 100 * Millisecond;
     MaxBackoff := 10 * Second;
     BackoffFactor := 2.0%float;
     Jitter := 0x1.999999999999ap-3%float (* 0.2 *) |}.

(** [Client].  Of its [httpClient] the record keeps the timeout; the
    transport ([WithTransport] sets it) is the server the executor below is
    parameterized by. *)
Record Client : Type := {
  baseURL : string;
  apiKey : string;
  httpClient_Timeout : Duration;
  environment : string;
  retryPolicy : RetryPolicy
}.

Definition ClientOption : Type := Client -> Client.

Definition NewClient (baseURL apiKey : string) (options : list ClientOption) : Client :=
  let client :=
    {| baseURL := baseURL; apiKey := apiKey;
       httpClient_Timeout := 10 * Second;
       environment := "Prod";
       retryPolicy := DefaultRetryPolicy |} in
  fold_left (fun c option => option c) options client.

Definition WithTimeout (timeout : Duration) : ClientOption :=
  fun c => {| baseURL := baseURL c; apiKey := apiKey c;
              httpClient_Timeout := timeout;
              environment := environment c; retryPolicy := retryPolicy c |}.

Definition WithEnvironment (env : string) : ClientOption :=
  fun c => {| baseURL := baseURL c; apiKey := apiKey c;
              httpClient_Timeout := httpClient_Timeout c;
              environment := env; retryPolicy := retryPolicy c |}.

Definition WithRetryPolicy (policy : RetryPolicy) : ClientOption :=
  fun c => {| baseURL := baseURL c; apiKey := apiKey c;
              httpClient_Timeout := httpClient_Timeout c;
              environment := environment c; retryPolicy := policy |}.

Definition WithMaxRetries (maxRetries : Z) : ClientOption :=
  fun c => WithRetryPolicy
             {| MaxRetries := maxRetries;
                InitialBackoff := InitialBackoff (retryPolicy c);
                MaxBackoff := MaxBackoff (retryPolicy c);
                BackoffFactor := BackoffFactor (retryPolicy c);
                Jitter := Jitter (retryPolicy c) |} c.


(** ** The data of the CRUD layer

    The Go structs, their string fields prefixed by the struct's initials. *)

Record InfoRequest : Type := {
  ir_PartitionKey : string;
  ir_RangeKey : string;
  ir_Type : string;
  ir_Status : string;
  ir_Created : string;
  ir_Modified : string;
  ir_CreatedBy : string
}.

Record DeleteRequest : Type := {
  dr_PartitionKey : string;
  dr_RangeKey : string;
  dr_Type : string;
  dr_Status : string;
  dr_Created : string;
  dr_Modified : string;
  dr_CreatedBy : string
}.

Record CreateInfoRequestInput : Type := {
  cii_PartitionKey : string;
  cii_Type : string;
  cii_CreatedBy : string;
  cii_ApiKey : string
}.

Record CreateDeleteRequestInput : Type := {
  cdi_PartitionKey : string;
  cdi_Type : string;
  cdi_CreatedBy : string;
  cdi_ApiKey : string
}.

Record FetchRequestInput : Type := {
  fri_PartitionKey : string;
  fri_RangeKey : string;
  fri_ApiKey : string
}.

Record UpdateRequestInput : Type := {
  uri_PartitionKey : string;
  uri_RangeKey : string;
  uri_Type : string;
  uri_Status : string;
  uri_ApiKey : string
}.

Record FetchAllRequestInput : Type := {
  fai_PartitionKey : string;
  fai_LastRangeKey : string;
  fai_ApiKey : string
}.

Record FetchByTypeInput : Type := {
  fti_Type : string;
  fti_LastRangeKey : string;
  fti_ApiKey : string
}.

Record FetchByStatusInput : Type := {
  fsi_Status : string;
  fsi_LastRangeKey : string;
  fsi_ApiKey : string
}.

Record FetchByCreatorInput : Type := {
  fci_CreatedBy : string;
  fci_LastRangeKey : string;
  fci_ApiKey : string
}.

Record DeleteRequestInput : Type := {
  dri_PartitionKey : string;
  dri_RangeKey : string;
  dri_IsHardDelete : bool;
  dri_ApiKey : string
}.

(** The zero values of [var infoRequest InfoRequest] and
    [var deleteRequest DeleteRequest]. *)
Definition zero_InfoRequest : InfoRequest :=
  {| ir_PartitionKey := ""; ir_RangeKey := ""; ir_Type := ""; ir_Status := "";
     ir_Created := ""; ir_Modified := ""; ir_CreatedBy := "" |}.

Definition zero_DeleteRequest : DeleteRequest :=
  {| dr_PartitionKey := ""; dr_RangeKey := ""; dr_Type := ""; dr_Status := "";
     dr_Created := ""; dr_Modified := ""; dr_CreatedBy := "" |}.

(** [if input.ApiKey == the empty string { input.ApiKey = c.apiKey }], for each input struct. *)
Definition default_cii_ApiKey (c : Client) (input : CreateInfoRequestInput) : CreateInfoRequestInput :=
  {| cii_PartitionKey := cii_PartitionKey input;
     cii_Type := cii_Type input;
     cii_CreatedBy := cii_CreatedBy input;
     cii_ApiKey := (if (cii_ApiKey input =? EmptyString)%string then apiKey c else cii_ApiKey input) |}.

Definition default_cdi_ApiKey (c : Client) (input : CreateDeleteRequestInput) : CreateDeleteRequestInput :=
  {| cdi_PartitionKey := cdi_PartitionKey input;
     cdi_Type := cdi_Type input;
     cdi_CreatedBy := cdi_CreatedBy input;
     cdi_ApiKey := (if (cdi_ApiKey input =? EmptyString)%string then apiKey c else cdi_ApiKey input) |}.

Definition default_fri_ApiKey (c : Client) (input : FetchRequestInput) : FetchRequestInput :=
  {| fri_PartitionKey := fri_PartitionKey input;
     fri_RangeKey := fri_RangeKey input;
     fri_ApiKey := (if (fri_ApiKey input =? EmptyString)%string then apiKey c else fri_ApiKey input) |}.

Definition default_uri_ApiKey (c : Client) (input : UpdateRequestInput) : UpdateRequestInput :=
  {| uri_PartitionKey := uri_PartitionKey input;
     uri_RangeKey := uri_RangeKey input;
     uri_Type := uri_Type input;
     uri_Status := uri_Status input;
     uri_ApiKey := (if (uri_ApiKey input =? EmptyString)%string then apiKey c else uri_ApiKey input) |}.

Definition default_fai_ApiKey (c : Client) (input : FetchAllRequestInput) : FetchAllRequestInput :=
  {| fai_PartitionKey := fai_PartitionKey input;
     fai_LastRangeKey := fai_LastRangeKey input;
     fai_ApiKey := (if (fai_ApiKey input =? EmptyString)%string then apiKey c else fai_ApiKey input) |}.

Definition default_fti_ApiKey (c : Client) (input : FetchByTypeInput) : FetchByTypeInput :=
  {| fti_Type := fti_Type input;
     fti_LastRangeKey := fti_LastRangeKey input;
     fti_ApiKey := (if (fti_ApiKey input =? EmptyString)%string then apiKey c else fti_ApiKey input) |}.

Definition default_fsi_ApiKey (c : Client) (input : FetchByStatusInput) : FetchByStatusInput :=
  {| fsi_Status := fsi_Status input;
     fsi_LastRangeKey := fsi_LastRangeKey input;
     fsi_ApiKey := (if (fsi_ApiKey input =? EmptyString)%string then apiKey c else fsi_ApiKey input) |}.

Definition default_fci_ApiKey (c : Client) (input : FetchByCreatorInput) : FetchByCreatorInput :=
  {| fci_CreatedBy := fci_CreatedBy input;
     fci_LastRangeKey := fci_LastRangeKey input;
     fci_ApiKey := (if (fci_ApiKey input =? EmptyString)%string then apiKey c else fci_ApiKey input) |}.

Definition default_dri_ApiKey (c : Client) (input : DeleteRequestInput) : DeleteRequestInput :=
  {| dri_PartitionKey := dri_PartitionKey input;
     dri_RangeKey := dri_RangeKey input;
     dri_IsHardDelete := dri_IsHardDelete input;
     dri_ApiKey := (if (dri_ApiKey input =? EmptyString)%string then apiKey c else dri_ApiKey input) |}.

(** [encoding/json]: [json.Marshal(v)] gives the bytes or an error;
    [json.Unmarshal(data, &v)] updates [v] and may return an error (what it
    has stored in [v] until then stays). *)
Class Marshaler (T : Type) : Type :=
  { json_Marshal : T -> string * option error }.
Class Unmarshaler (T : Type) : Type :=
  { json_Unmarshal : string -> T -> T * option error }.

(** ** Sample values

    A policy, a client, servers and stand-ins for the libraries, for the
    concrete runs at the end. *)

Module Sample.

(** A [math.Pow] for the runs below: exact products for the exponents 0, 1,
    2, ... (and no number otherwise). *)
Fixpoint pow_nat (x : float) (n : nat) : float :=
  match n with
  | O => 1%float
  | S n' => (x * pow_nat x n')%float
  end.

Definition Pow (x y : float) : float :=
  match float64_trunc y with
  | Some n => if 0 <=? n then pow_nat x (Z.to_nat n) else nan
  | None => nan
  end.

(** The value amd64 gives to an out-of-range conversion. *)
Definition overflow (_ : float) : Z := - 2 ^ 63.

Definition rand (_ : nat) : float := 0.5%float.

(** A JSON stand-in: inputs encode to an empty object; a decoder accepts the
    text of an object and refuses anything else, leaving the value as it
    was. *)
Definition decode {T : Type} (data : string) (v : T) : T * option error :=
  match data with
  | String "{" _ => (v, None)
  | _ => (v, Some (errors_New "invalid character looking for beginning of value"))
  end.

Definition encode {T : Type} (_ : T) : string * option error := ("{}", None).

Definition policy (maxRetries : Z) : RetryPolicy :=
  {| MaxRetries := maxRetries;
     InitialBackoff := 100 * Millisecond;
     MaxBackoff := 10 * Second;
     BackoffFactor := 2%float;
     Jitter := 0%float |}.

Definition client (maxRetries : Z) : Client :=
  WithRetryPolicy (policy maxRetries) (NewClient "http://127.0.0.1:9" "key" []).

Definition request : Request :=
  {| Method := "POST"; URL := "http://127.0.0.1:9/gdpr?action=create";
     Req_Header := [("Content-Type", "application/json")]; Req_Body := "{}" |}.

(** The [n]-th response of a server: its status and the text of its body,
    which comes from the network. *)
Definition response (status : Z) (n : nat) (text : string) : http_Response :=
  {| StatusCode := status;
     Body := {| body_id := n; body_bytes := text; body_err := None;
                read_after_close := ("", Some http_ErrBodyReadAfterClose) |} |}.

(** The [n]-th response of a server, without content. *)
Definition bodiless (status : Z) (n : nat) : http_Response :=
  {| StatusCode := status; Body := http_NoBody n |}.

(** A server that answers 503 three times and 200 afterwards. *)
Definition busy_then_ok (n : nat) (_ : Request) : outcome :=
  if Nat.ltb n 3 then Responded (response 503 n "busy")
  else Responded (response 200 n "{}").

(** A server that always answers with the same status. *)
Definition always (status : Z) (text : string) (n : nat) (_ : Request) : outcome :=
  Responded (response status n text).

(** A server that always answers with the same status and no content. *)
Definition always_empty (status : Z) (n : nat) (_ : Request) : outcome :=
  Responded (bodiless status n).

(** The error of a request that outlasts [Client.Timeout], as the client
    gives it to [Do]; a transport on which every request does. *)
Definition client_timeout : error :=
  http_timeoutError
    "context deadline exceeded (Client.Timeout exceeded while awaiting headers)".

Definition timing_out (_ : nat) (_ : Request) : outcome := Failed client_timeout.

(** A refused connection and an unknown host, as the dialer reports them. *)
Definition refused : error :=
  net_OpError "dial" "tcp" "127.0.0.1:9"
    (os_SyscallError "connect" syscall_ECONNREFUSED).

Definition unknown_host : error :=
  net_OpError "dial" "tcp" "" (net_DNSError "no such host" "gdpr.invalid").

Definition unreachable (_ : nat) (_ : Request) : outcome := Failed refused.

#[export] Instance marshal_input {T : Type} : Marshaler T :=
  {| json_Marshal := encode |}.

#[export] Instance unmarshal_value {T : Type} : Unmarshaler T :=
  {| json_Unmarshal := decode |}.

Definition no_parse_error (_ : string) : option error := None.
Definition show_body (_ : ReadCloser) : string := "{}".

Definition create_input : CreateInfoRequestInput :=
  {| cii_PartitionKey := "user123"; cii_Type := "INFO_REQUEST";
     cii_CreatedBy := "user@example.com"; cii_ApiKey := "" |}.

Definition fetch_input : FetchRequestInput :=
  {| fri_PartitionKey := "user123"; fri_RangeKey := "r1"; fri_ApiKey := "" |}.

(** [stripPassword] on the URLs of the runs, which carry no password and
    are written as [url.URL] prints them. *)
Definition as_printed (url : string) : string := url.

(** A policy whose two backoffs are a number of nanoseconds that no
    [float64] holds, [2^53 + 3] (a little over 104 days): the nearest
    [float64] is [2^53 + 4]. *)
Definition edge_policy : RetryPolicy :=
  {| MaxRetries := 3;
     InitialBackoff := 2 ^ 53 + 3;
     MaxBackoff := 2 ^ 53 + 3;
     BackoffFactor := 2%float;
     Jitter := 0%float |}.

Definition edge_client : Client :=
  WithRetryPolicy edge_policy (NewClient "http://127.0.0.1:9" "key" []).

(** A policy with the greatest cap a [time.Duration] holds,
    [math.MaxInt64] nanoseconds. *)
Definition wide_policy : RetryPolicy :=
  {| MaxRetries := 40;
     InitialBackoff := 100 * Millisecond;
     MaxBackoff := 2 ^ 63 - 1;
     BackoffFactor := 2%float;
     Jitter := 0%float |}.

Definition wide_client : Client :=
  WithRetryPolicy wide_policy (NewClient "http://127.0.0.1:9" "key" []).

(** A transport that sends the whole body of each request it is handed:
    nothing is left in the body reader. *)
Definition sends_all (_ : Request) : string := "".

(** A [url.Parse] that refuses a URL without a scheme. *)
Definition parse_error (url : string) : option error :=
  match url with
  | String ":" _ => Some (url_Error "parse" url (errors_New "missing protocol scheme"))
  | _ => None
  end.

(** A client whose base URL does not parse. *)
Definition no_scheme_client : Client := NewClient ":" "key" [].

End Sample.

(** ** The executor *)

Section Gdprclient.

(** [math.Pow]. *)
Variable math_Pow : float -> float -> float.

(** The value of [time.Duration(f)] when [f] is a NaN, an infinity or beyond
    [int64]: Go leaves it to the platform. *)
Variable int64_overflow : float -> Z.

(** The server and the network: what the [n]-th exchange of a run gives for
    the request sent ([n] counts from 0). *)
Variable RoundTrip : nat -> Request -> outcome.

(** The random source: the value of the [n]-th call of [rand.Float64], in
    [[0, 1)]. *)
Variable rand_source : nat -> float.

(** [stripPassword(req.URL)]: the text [net/http] prints for the URL of a
    request in an error, the parsed URL printed again with its password
    replaced. *)
Variable url_stripPassword : string -> string.

(** The body reader after an exchange: what the transport has left unread
    of the body of the request it was handed (nothing when it has sent the
    whole body, all of it when it failed before it sent any). *)
Variable body_left : Request -> string.

(** [time.Duration(f)]: truncation toward zero. *)
Definition Duration_of_float64 (f : float) : Duration :=
  match float64_trunc f with
  | Some n => if (- 2 ^ 63 <=? n) && (n <? 2 ^ 63) then n else int64_overflow f
  | None => int64_overflow f
  end.

Definition rand_Float64 : M float :=
  fun t => (Val (rand_source (draws t)), (t ++ [EvRand])%list).

Definition time_Sleep (d : Duration) : M unit := emit (EvSleep d).

(** [resp.Body.Close()] *)
Definition Body_Close (r : http_Response) : M unit :=
  emit (EvClose (body_id (Body r))).

(** The [Op] of the [*url.Error] that [http.Client.Do] returns: the method
    with its first letter kept and the rest in lower case. *)
Definition urlErrorOp (method : string) : string :=
  match method with
  | EmptyString => "Get"
  | String c rest => String c (Str.ToLower rest)
  end.

(** [c.httpClient.Do(req)].  Every error [Do] returns is a [*url.Error] that
    wraps the cause; its URL is the URL of the request with the password
    stripped, or the location of the redirect that was refused. *)
Definition httpClient_Do (req : Request) : M (option http_Response * option error) :=
  fun t =>
    let uerr url e := url_Error (urlErrorOp (Method req)) url e in
    match RoundTrip (attempts t) req with
    | Responded r => (Val (Some r, None), (t ++ [EvDo req])%list)
    | Failed e =>
        (Val (None, Some (uerr (url_stripPassword (URL req)) e)),
         (t ++ [EvDo req])%list)
    | RedirectRefused r loc e =>
        (Val (Some r, Some (uerr loc e)),
         (t ++ [EvDo req; EvClose (body_id (Body r))])%list)
    end.

(** [io.ReadAll(resp.Body)]: a closed body answers as its kind does (a body
    from the network refuses the read, [http.NoBody] is at its end); a body
    already read is at its end. *)
Definition io_ReadAll (b : ReadCloser) : M (string * option error) :=
  fun t =>
    let r :=
      if closed (body_id b) t then read_after_close b
      else if was_read (body_id b) t then ("", None)
      else (body_bytes b, body_err b) in
    (Val r, (t ++ [EvRead (body_id b)])%list).

(** [c.calculateBackoff(attempt)] *)
Definition calculateBackoff (c : Client) (attempt : Z) : M Duration :=
  let p := retryPolicy c in
  let backoff :=
    (float64_of_int (InitialBackoff p)
     * math_Pow (BackoffFactor p) (float64_of_int attempt))%float in
  backoff <-
    (if (0 <? Jitter p)%float then
       r <- rand_Float64 ;;
       let jitter := (r * Jitter p)%float in
       ret (backoff * (1 + jitter))%float
     else ret backoff) ;;
  let backoff :=
    if (float64_of_int (MaxBackoff p) <? backoff)%float
    then float64_of_int (MaxBackoff p) else backoff in
  ret (Duration_of_float64 backoff).

(** The [for] loop of [doRequestWithRetry], from the test of its condition
    at [attempt]; [resp] and [err] are the function's two variables.  [fuel]
    bounds the iterations. *)
Fixpoint attemptLoop (fuel : nat) (c : Client) (req : Request) (attempt : Z)
    (resp : option http_Response) (err : option error)
  : M (option http_Response * option error) :=
  if attempt <=? MaxRetries (retryPolicy c) then
    match fuel with
    | O => out_of_fuel
    | S fuel' =>
        let reqClone := Request_Clone req in
        let reqClone :=
          if attempt >? 0
          then Request_Header_Set reqClone "X-Retry-Attempt" (Str.itoa attempt)
          else reqClone in
        '(resp, err) <- httpClient_Do reqClone ;;
        (* the exchange has read from the body reader that [reqClone] shares
           with [req] *)
        let req := Request_rest req (body_left reqClone) in
        success <-
          match err, resp with
          | None, Some r =>
              ret ((StatusCode r <? 500) && negb (StatusCode r =? 429))
          | None, None => panic "nil pointer dereference"
          | Some _, _ => ret false
          end ;;
        if success : bool then ret (resp, None)
        else
          statusCode <-
            match resp with
            | Some r => Body_Close r ;; ret (StatusCode r)
            | None => ret 0
            end ;;
          if negb (ShouldRetry statusCode err)
             || (attempt >=? MaxRetries (retryPolicy c))
          then ret (resp, err)
          else
            backoff <- calculateBackoff c attempt ;;
            time_Sleep backoff ;;
            attemptLoop fuel' c req (attempt + 1) resp err
    end
  else ret (resp, err).

(** [c.doRequestWithRetry(req)]: the loop runs for [attempt] from 0 to
    [MaxRetries], so [MaxRetries + 1] iterations suffice. *)
Definition doRequestWithRetry (c : Client) (req : Request)
  : M (option http_Response * option error) :=
  attemptLoop (Z.to_nat (MaxRetries (retryPolicy c) + 1)) c req 0 None None.


(** ** The CRUD operations *)

(** [interface{}]: a decoded JSON value, and its nil. *)
Variable any : Type.
Variable nil_any : any.

(** [Response]: the generic response structure. *)
Record Response : Type := {
  resp_StatusCode : Z;
  resp_Message : string;
  resp_Data : any
}.

Definition zero_Response : Response :=
  {| resp_StatusCode := 0; resp_Message := ""; resp_Data := nil_any |}.

(** [PaginatedResponse] *)
Record PaginatedResponse : Type := {
  Results : list any;
  LastRangeKey : string
}.

Definition zero_PaginatedResponse : PaginatedResponse :=
  {| Results := []; LastRangeKey := "" |}.

Context {Marshal_cii : Marshaler CreateInfoRequestInput}
        {Marshal_cdi : Marshaler CreateDeleteRequestInput}
        {Marshal_fri : Marshaler FetchRequestInput}
        {Marshal_uri : Marshaler UpdateRequestInput}
        {Marshal_dri : Marshaler DeleteRequestInput}
        {Marshal_fai : Marshaler FetchAllRequestInput}
        {Marshal_fti : Marshaler FetchByTypeInput}
        {Marshal_fsi : Marshaler FetchByStatusInput}
        {Marshal_fci : Marshaler FetchByCreatorInput}
        {Marshal_any : Marshaler any}
        {Unmarshal_ir : Unmarshaler InfoRequest}
        {Unmarshal_dr : Unmarshaler DeleteRequest}
        {Unmarshal_resp : Unmarshaler Response}
        {Unmarshal_page : Unmarshaler PaginatedResponse}.

(** The error of [url.Parse] on a URL that does not parse. *)
Variable url_Parse_err : string -> option error.

(** What [%s] prints for a response body (an [io.ReadCloser]). *)
Variable fmt_Body : ReadCloser -> string.

(** [http.NewRequest(method, url, bytes.NewBuffer(body))] *)
Definition http_NewRequest (method url body : string) : option Request * option error :=
  match url_Parse_err url with
  | Some e => (None, Some e)
  | None =>
      (Some {| Method := method; URL := url; Req_Header := []; Req_Body := body |},
       None)
  end.

(** [fmt.Errorf(prefix + "%v", err)]: a new error, which does not wrap
    [err]. *)
Definition Errorf (prefix : string) (err : error) : error :=
  errors_New (prefix ++ Error err).

(** [%v] of an error variable that may be nil. *)
Definition Error_v (err : option error) : string :=
  match err with Some e => Error e | None => "<nil>" end.

Definition log_Printf (line : string) : M unit := emit (EvLog line).

(** [defer resp.Body.Close()]: the body is closed when the function
    returns, also when it panics. *)
Definition defer_Close {A : Type} (r : http_Response) (rest : M A) : M A :=
  fun t => let '(x, t') := rest t in (x, (t' ++ [EvClose (body_id (Body r))])%list).

(** [CreateInfoRequest]: creates a new info request *)
Definition CreateInfoRequest (c : Client) (input : CreateInfoRequestInput)
  : M (option InfoRequest * option error) :=
  let input := default_cii_ApiKey c input in
  let '(body, err) := json_Marshal input in
  match err with
  | Some e => ret (None, Some (Errorf "failed to marshal request body: " e))
  | None =>
  let '(req, err) := http_NewRequest "POST" (baseURL c ++ "/gdpr?action=create") body in
  match err, req with
  | Some e, _ => ret (None, Some (Errorf "failed to create request: " e))
  | None, None => panic "nil pointer dereference"
  | None, Some req =>
  let req := Request_Header_Set req "Content-Type" "application/json" in
  '(resp, err) <- doRequestWithRetry c req ;;
  match err, resp with
  | Some e, _ => ret (None, Some (Errorf "failed to send request: " e))
  | None, None => panic "nil pointer dereference"
  | None, Some resp =>
  defer_Close resp (
  '(responseBody, err) <- io_ReadAll (Body resp) ;;
  match err with
  | Some e => ret (None, Some (Errorf "failed to read response body: " e))
  | None =>
  if negb (StatusCode resp =? 200) then
    ret (None, Some (errors_New ("request failed with status "
                              ++ Str.itoa (StatusCode resp) ++ ": " ++ responseBody)))
  else
  if negb (StatusCode resp =? 200) then
    ret (None, Some (errors_New ("GDPR service returned error: " ++ fmt_Body (Body resp)
                                 ++ ", StatusCode: " ++ Str.itoa (StatusCode resp))))
  else
  log_Printf ("GDPRClientLibrary.CreateInfo - Response Body: " ++ responseBody) ;;
  let '(infoRequest, jsonErr) := json_Unmarshal responseBody zero_InfoRequest in
  (* [if jsonErr := json.Unmarshal(...); err != nil]: the test is on [err],
     the variable that holds the result of [io.ReadAll] *)
  match err with
  | Some _ => ret (None, Some (errors_New ("failed to unmarshal data: " ++ Error_v jsonErr)))
  | None => ret (Some infoRequest, None)
  end
  end)
  end end end.

(** [CreateDeleteRequest]: creates a new deletion request *)
Definition CreateDeleteRequest (c : Client) (input : CreateDeleteRequestInput)
  : M (option DeleteRequest * option error) :=
  let input := default_cdi_ApiKey c input in
  let '(body, err) := json_Marshal input in
  match err with
  | Some e => ret (None, Some (Errorf "failed to marshal request body: " e))
  | None =>
  let '(req, err) := http_NewRequest "POST" (baseURL c ++ "/gdpr?controller=delete&action=create") body in
  match err, req with
  | Some e, _ => ret (None, Some (Errorf "failed to create request: " e))
  | None, None => panic "nil pointer dereference"
  | None, Some req =>
  let req := Request_Header_Set req "Content-Type" "application/json" in
  '(resp, err) <- doRequestWithRetry c req ;;
  match err, resp with
  | Some e, _ => ret (None, Some (Errorf "failed to send request: " e))
  | None, None => panic "nil pointer dereference"
  | None, Some resp =>
  defer_Close resp (
  '(responseBody, err) <- io_ReadAll (Body resp) ;;
  match err with
  | Some e => ret (None, Some (Errorf "failed to read response body: " e))
  | None =>
  if negb (StatusCode resp =? 200) then
    ret (None, Some (errors_New ("request failed with status "
                              ++ Str.itoa (StatusCode resp) ++ ": " ++ responseBody)))
  else
  let '(response, err) := json_Unmarshal responseBody zero_Response in
  match err with
  | Some e => ret (None, Some (Errorf "failed to unmarshal response: " e))
  | None =>
  if negb (resp_StatusCode response =? 200) then
    ret (None, Some (errors_New ("GDPR service returned error: " ++ resp_Message response)))
  else
  let '(dataJSON, err) := json_Marshal (resp_Data response) in
  match err with
  | Some e => ret (None, Some (Errorf "failed to marshal data: " e))
  | None =>
  let '(value, err) := json_Unmarshal dataJSON zero_DeleteRequest in
  match err with
  | Some e => ret (None, Some (Errorf "failed to unmarshal data: " e))
  | None => ret (Some value, None)
  end
  end
  end
  end)
  end end end.

(** [FetchInfoRequest]: fetches an info request by ID *)
Definition FetchInfoRequest (c : Client) (input : FetchRequestInput)
  : M (option InfoRequest * option error) :=
  let input := default_fri_ApiKey c input in
  let '(body, err) := json_Marshal input in
  match err with
  | Some e => ret (None, Some (Errorf "failed to marshal request body: " e))
  | None =>
  let '(req, err) := http_NewRequest "POST" (baseURL c ++ "/gdpr?action=fetch") body in
  match err, req with
  | Some e, _ => ret (None, Some (Errorf "failed to create request: " e))
  | None, None => panic "nil pointer dereference"
  | None, Some req =>
  let req := Request_Header_Set req "Content-Type" "application/json" in
  '(resp, err) <- doRequestWithRetry c req ;;
  match err, resp with
  | Some e, _ => ret (None, Some (Errorf "failed to send request: " e))
  | None, None => panic "nil pointer dereference"
  | None, Some resp =>
  defer_Close resp (
  '(responseBody, err) <- io_ReadAll (Body resp) ;;
  match err with
  | Some e => ret (None, Some (Errorf "failed to read response body: " e))
  | None =>
  if negb (StatusCode resp =? 200) then
    ret (None, Some (errors_New ("request failed with status "
                              ++ Str.itoa (StatusCode resp) ++ ": " ++ responseBody)))
  else
  let '(response, err) := json_Unmarshal responseBody zero_Response in
  match err with
  | Some e => ret (None, Some (Errorf "failed to unmarshal response: " e))
  | None =>
  if resp_StatusCode response =? 404 then
    ret (None, Some (errors_New "info request not found"))
  else
  if negb (resp_StatusCode response =? 200) then
    ret (None, Some (errors_New ("GDPR service returned error: " ++ resp_Message response)))
  else
  let '(dataJSON, err) := json_Marshal (resp_Data response) in
  match err with
  | Some e => ret (None, Some (Errorf "failed to marshal data: " e))
  | None =>
  let '(value, err) := json_Unmarshal dataJSON zero_InfoRequest in
  match err with
  | Some e => ret (None, Some (Errorf "failed to unmarshal data: " e))
  | None => ret (Some value, None)
  end
  end
  end
  end)
  end end end.

(** [FetchDeleteRequest]: fetches a delete request by ID; it calls [c.httpClient.Do(req)] *)
Definition FetchDeleteRequest (c : Client) (input : FetchRequestInput)
  : M (option DeleteRequest * option error) :=
  let input := default_fri_ApiKey c input in
  let '(body, err) := json_Marshal input in
  match err with
  | Some e => ret (None, Some (Errorf "failed to marshal request body: " e))
  | None =>
  let '(req, err) := http_NewRequest "POST" (baseURL c ++ "/gdpr?controller=delete&action=fetch") body in
  match err, req with
  | Some e, _ => ret (None, Some (Errorf "failed to create request: " e))
  | None, None => panic "nil pointer dereference"
  | None, Some req =>
  let req := Request_Header_Set req "Content-Type" "application/json" in
  '(resp, err) <- httpClient_Do req ;;
  match err, resp with
  | Some e, _ => ret (None, Some (Errorf "failed to send request: " e))
  | None, None => panic "nil pointer dereference"
  | None, Some resp =>
  defer_Close resp (
  '(responseBody, err) <- io_ReadAll (Body resp) ;;
  match err with
  | Some e => ret (None, Some (Errorf "failed to read response body: " e))
  | None =>
  if negb (StatusCode resp =? 200) then
    ret (None, Some (errors_New ("request failed with status "
                              ++ Str.itoa (StatusCode resp) ++ ": " ++ responseBody)))
  else
  let '(response, err) := json_Unmarshal responseBody zero_Response in
  match err with
  | Some e => ret (None, Some (Errorf "failed to unmarshal response: " e))
  | None =>
  if resp_StatusCode response =? 404 then
    ret (None, Some (errors_New "delete request not found"))
  else
  if negb (resp_StatusCode response =? 200) then
    ret (None, Some (errors_New ("GDPR service returned error: " ++ resp_Message response)))
  else
  let '(dataJSON, err) := json_Marshal (resp_Data response) in
  match err with
  | Some e => ret (None, Some (Errorf "failed to marshal data: " e))
  | None =>
  let '(value, err) := json_Unmarshal dataJSON zero_DeleteRequest in
  match err with
  | Some e => ret (None, Some (Errorf "failed to unmarshal data: " e))
  | None => ret (Some value, None)
  end
  end
  end
  end)
  end end end.

(** [UpdateInfoRequest]: updates an info request *)
Definition UpdateInfoRequest (c : Client) (input : UpdateRequestInput)
  : M (bool * option error) :=
  let input := default_uri_ApiKey c input in
  let '(body, err) := json_Marshal input in
  match err with
  | Some e => ret (false, Some (Errorf "failed to marshal request body: " e))
  | None =>
  let '(req, err) := http_NewRequest "POST" (baseURL c ++ "/gdpr?action=update") body in
  match err, req with
  | Some e, _ => ret (false, Some (Errorf "failed to create request: " e))
  | None, None => panic "nil pointer dereference"
  | None, Some req =>
  let req := Request_Header_Set req "Content-Type" "application/json" in
  '(resp, err) <- doRequestWithRetry c req ;;
  match err, resp with
  | Some e, _ => ret (false, Some (Errorf "failed to send request: " e))
  | None, None => panic "nil pointer dereference"
  | None, Some resp =>
  defer_Close resp (
  '(responseBody, err) <- io_ReadAll (Body resp) ;;
  match err with
  | Some e => ret (false, Some (Errorf "failed to read response body: " e))
  | None =>
  if negb (StatusCode resp =? 200) then
    ret (false, Some (errors_New ("request failed with status "
                              ++ Str.itoa (StatusCode resp) ++ ": " ++ responseBody)))
  else
  let '(response, err) := json_Unmarshal responseBody zero_Response in
  match err with
  | Some e => ret (false, Some (Errorf "failed to unmarshal response: " e))
  | None =>
  if negb (resp_StatusCode response =? 200) then
    ret (false, Some (errors_New ("GDPR service returned error: " ++ resp_Message response)))
  else
  ret (true, None)
  end
  end)
  end end end.

(** [UpdateDeleteRequest]: updates a delete request; it calls [c.httpClient.Do(req)] *)
Definition UpdateDeleteRequest (c : Client) (input : UpdateRequestInput)
  : M (bool * option error) :=
  let input := default_uri_ApiKey c input in
  let '(body, err) := json_Marshal input in
  match err with
  | Some e => ret (false, Some (Errorf "failed to marshal request body: " e))
  | None =>
  let '(req, err) := http_NewRequest "POST" (baseURL c ++ "/gdpr?controller=delete&action=update") body in
  match err, req with
  | Some e, _ => ret (false, Some (Errorf "failed to create request: " e))
  | None, None => panic "nil pointer dereference"
  | None, Some req =>
  let req := Request_Header_Set req "Content-Type" "application/json" in
  '(resp, err) <- httpClient_Do req ;;
  match err, resp with
  | Some e, _ => ret (false, Some (Errorf "failed to send request: " e))
  | None, None => panic "nil pointer dereference"
  | None, Some resp =>
  defer_Close resp (
  '(responseBody, err) <- io_ReadAll (Body resp) ;;
  match err with
  | Some e => ret (false, Some (Errorf "failed to read response body: " e))
  | None =>
  if negb (StatusCode resp =? 200) then
    ret (false, Some (errors_New ("request failed with status "
                              ++ Str.itoa (StatusCode resp) ++ ": " ++ responseBody)))
  else
  let '(response, err) := json_Unmarshal responseBody zero_Response in
  match err with
  | Some e => ret (false, Some (Errorf "failed to unmarshal response: " e))
  | None =>
  if negb (resp_StatusCode response =? 200) then
    ret (false, Some (errors_New ("GDPR service returned error: " ++ resp_Message response)))
  else
  ret (true, None)
  end
  end)
  end end end.

(** [DeleteInfoRequest]: deletes an info request *)
Definition DeleteInfoRequest (c : Client) (input : DeleteRequestInput)
  : M (bool * option error) :=
  let input := default_dri_ApiKey c input in
  let '(body, err) := json_Marshal input in
  match err with
  | Some e => ret (false, Some (Errorf "failed to marshal request body: " e))
  | None =>
  let '(req, err) := http_NewRequest "POST" (baseURL c ++ "/gdpr?action=delete") body in
  match err, req with
  | Some e, _ => ret (false, Some (Errorf "failed to create request: " e))
  | None, None => panic "nil pointer dereference"
  | None, Some req =>
  let req := Request_Header_Set req "Content-Type" "application/json" in
  '(resp, err) <- doRequestWithRetry c req ;;
  match err, resp with
  | Some e, _ => ret (false, Some (Errorf "failed to send request: " e))
  | None, None => panic "nil pointer dereference"
  | None, Some resp =>
  defer_Close resp (
  '(responseBody, err) <- io_ReadAll (Body resp) ;;
  match err with
  | Some e => ret (false, Some (Errorf "failed to read response body: " e))
  | None =>
  if negb (StatusCode resp =? 200) then
    ret (false, Some (errors_New ("request failed with status "
                              ++ Str.itoa (StatusCode resp) ++ ": " ++ responseBody)))
  else
  let '(response, err) := json_Unmarshal responseBody zero_Response in
  match err with
  | Some e => ret (false, Some (Errorf "failed to unmarshal response: " e))
  | None =>
  if negb (resp_StatusCode response =? 200) then
    ret (false, Some (errors_New ("GDPR service returned error: " ++ resp_Message response)))
  else
  ret (true, None)
  end
  end)
  end end end.

(** [DeleteRequest_]: the method [DeleteRequest] of the client (the name is the struct's in Go too): deletes a delete request *)
Definition DeleteRequest_ (c : Client) (input : DeleteRequestInput)
  : M (bool * option error) :=
  let input := default_dri_ApiKey c input in
  let '(body, err) := json_Marshal input in
  match err with
  | Some e => ret (false, Some (Errorf "failed to marshal request body: " e))
  | None =>
  let '(req, err) := http_NewRequest "POST" (baseURL c ++ "/gdpr?controller=delete&action=delete") body in
  match err, req with
  | Some e, _ => ret (false, Some (Errorf "failed to create request: " e))
  | None, None => panic "nil pointer dereference"
  | None, Some req =>
  let req := Request_Header_Set req "Content-Type" "application/json" in
  '(resp, err) <- doRequestWithRetry c req ;;
  match err, resp with
  | Some e, _ => ret (false, Some (Errorf "failed to send request: " e))
  | None, None => panic "nil pointer dereference"
  | None, Some resp =>
  defer_Close resp (
  '(responseBody, err) <- io_ReadAll (Body resp) ;;
  match err with
  | Some e => ret (false, Some (Errorf "failed to read response body: " e))
  | None =>
  if negb (StatusCode resp =? 200) then
    ret (false, Some (errors_New ("request failed with status "
                              ++ Str.itoa (StatusCode resp) ++ ": " ++ responseBody)))
  else
  let '(response, err) := json_Unmarshal responseBody zero_Response in
  match err with
  | Some e => ret (false, Some (Errorf "failed to unmarshal response: " e))
  | None =>
  if negb (resp_StatusCode response =? 200) then
    ret (false, Some (errors_New ("GDPR service returned error: " ++ resp_Message response)))
  else
  ret (true, None)
  end
  end)
  end end end.

(** [FetchAllInfoRequests]: fetches all info requests for a partition key *)
Definition FetchAllInfoRequests (c : Client) (input : FetchAllRequestInput)
  : M (option PaginatedResponse * option error) :=
  let input := default_fai_ApiKey c input in
  let '(body, err) := json_Marshal input in
  match err with
  | Some e => ret (None, Some (Errorf "failed to marshal request body: " e))
  | None =>
  let '(req, err) := http_NewRequest "POST" (baseURL c ++ "/gdpr?action=fetchAll") body in
  match err, req with
  | Some e, _ => ret (None, Some (Errorf "failed to create request: " e))
  | None, None => panic "nil pointer dereference"
  | None, Some req =>
  let req := Request_Header_Set req "Content-Type" "application/json" in
  '(resp, err) <- doRequestWithRetry c req ;;
  match err, resp with
  | Some e, _ => ret (None, Some (Errorf "failed to send request: " e))
  | None, None => panic "nil pointer dereference"
  | None, Some resp =>
  defer_Close resp (
  '(responseBody, err) <- io_ReadAll (Body resp) ;;
  match err with
  | Some e => ret (None, Some (Errorf "failed to read response body: " e))
  | None =>
  if negb (StatusCode resp =? 200) then
    ret (None, Some (errors_New ("request failed with status "
                              ++ Str.itoa (StatusCode resp) ++ ": " ++ responseBody)))
  else
  let '(response, err) := json_Unmarshal responseBody zero_Response in
  match err with
  | Some e => ret (None, Some (Errorf "failed to unmarshal response: " e))
  | None =>
  if negb (resp_StatusCode response =? 200) then
    ret (None, Some (errors_New ("GDPR service returned error: " ++ resp_Message response)))
  else
  let '(dataJSON, err) := json_Marshal (resp_Data response) in
  match err with
  | Some e => ret (None, Some (Errorf "failed to marshal data: " e))
  | None =>
  let '(value, err) := json_Unmarshal dataJSON zero_PaginatedResponse in
  match err with
  | Some e => ret (None, Some (Errorf "failed to unmarshal data: " e))
  | None => ret (Some value, None)
  end
  end
  end
  end)
  end end end.

(** [FetchInfoRequestsByType]: fetches info requests by type *)
Definition FetchInfoRequestsByType (c : Client) (input : FetchByTypeInput)
  : M (option PaginatedResponse * option error) :=
  let input := default_fti_ApiKey c input in
  let '(body, err) := json_Marshal input in
  match err with
  | Some e => ret (None, Some (Errorf "failed to marshal request body: " e))
  | None =>
  let '(req, err) := http_NewRequest "POST" (baseURL c ++ "/gdpr?action=fetchByType") body in
  match err, req with
  | Some e, _ => ret (None, Some (Errorf "failed to create request: " e))
  | None, None => panic "nil pointer dereference"
  | None, Some req =>
  let req := Request_Header_Set req "Content-Type" "application/json" in
  '(resp, err) <- doRequestWithRetry c req ;;
  match err, resp with
  | Some e, _ => ret (None, Some (Errorf "failed to send request: " e))
  | None, None => panic "nil pointer dereference"
  | None, Some resp =>
  defer_Close resp (
  '(responseBody, err) <- io_ReadAll (Body resp) ;;
  match err with
  | Some e => ret (None, Some (Errorf "failed to read response body: " e))
  | None =>
  if negb (StatusCode resp =? 200) then
    ret (None, Some (errors_New ("request failed with status "
                              ++ Str.itoa (StatusCode resp) ++ ": " ++ responseBody)))
  else
  let '(response, err) := json_Unmarshal responseBody zero_Response in
  match err with
  | Some e => ret (None, Some (Errorf "failed to unmarshal response: " e))
  | None =>
  if negb (resp_StatusCode response =? 200) then
    ret (None, Some (errors_New ("GDPR service returned error: " ++ resp_Message response)))
  else
  let '(dataJSON, err) := json_Marshal (resp_Data response) in
  match err with
  | Some e => ret (None, Some (Errorf "failed to marshal data: " e))
  | None =>
  let '(value, err) := json_Unmarshal dataJSON zero_PaginatedResponse in
  match err with
  | Some e => ret (None, Some (Errorf "failed to unmarshal data: " e))
  | None => ret (Some value, None)
  end
  end
  end
  end)
  end end end.

(** [FetchDeleteRequestsByStatus]: fetches delete requests by status *)
Definition FetchDeleteRequestsByStatus (c : Client) (input : FetchByStatusInput)
  : M (option PaginatedResponse * option error) :=
  let input := default_fsi_ApiKey c input in
  let '(body, err) := json_Marshal input in
  match err with
  | Some e => ret (None, Some (Errorf "failed to marshal request body: " e))
  | None =>
  let '(req, err) := http_NewRequest "POST" (baseURL c ++ "/gdpr?controller=delete&action=fetchByStatus") body in
  match err, req with
  | Some e, _ => ret (None, Some (Errorf "failed to create request: " e))
  | None, None => panic "nil pointer dereference"
  | None, Some req =>
  let req := Request_Header_Set req "Content-Type" "application/json" in
  '(resp, err) <- doRequestWithRetry c req ;;
  match err, resp with
  | Some e, _ => ret (None, Some (Errorf "failed to send request: " e))
  | None, None => panic "nil pointer dereference"
  | None, Some resp =>
  defer_Close resp (
  '(responseBody, err) <- io_ReadAll (Body resp) ;;
  match err with
  | Some e => ret (None, Some (Errorf "failed to read response body: " e))
  | None =>
  if negb (StatusCode resp =? 200) then
    ret (None, Some (errors_New ("request failed with status "
                              ++ Str.itoa (StatusCode resp) ++ ": " ++ responseBody)))
  else
  let '(response, err) := json_Unmarshal responseBody zero_Response in
  match err with
  | Some e => ret (None, Some (Errorf "failed to unmarshal response: " e))
  | None =>
  if negb (resp_StatusCode response =? 200) then
    ret (None, Some (errors_New ("GDPR service returned error: " ++ resp_Message response)))
  else
  let '(dataJSON, err) := json_Marshal (resp_Data response) in
  match err with
  | Some e => ret (None, Some (Errorf "failed to marshal data: " e))
  | None =>
  let '(value, err) := json_Unmarshal dataJSON zero_PaginatedResponse in
  match err with
  | Some e => ret (None, Some (Errorf "failed to unmarshal data: " e))
  | None => ret (Some value, None)
  end
  end
  end
  end)
  end end end.

(** [FetchRequestsByCreator]: fetches requests by creator *)
Definition FetchRequestsByCreator (c : Client) (input : FetchByCreatorInput)
  : M (option PaginatedResponse * option error) :=
  let input := default_fci_ApiKey c input in
  let '(body, err) := json_Marshal input in
  match err with
  | Some e => ret (None, Some (Errorf "failed to marshal request body: " e))
  | None =>
  let '(req, err) := http_NewRequest "POST" (baseURL c ++ "/gdpr?action=fetchByCreator") body in
  match err, req with
  | Some e, _ => ret (None, Some (Errorf "failed to create request: " e))
  | None, None => panic "nil pointer dereference"
  | None, Some req =>
  let req := Request_Header_Set req "Content-Type" "application/json" in
  '(resp, err) <- doRequestWithRetry c req ;;
  match err, resp with
  | Some e, _ => ret (None, Some (Errorf "failed to send request: " e))
  | None, None => panic "nil pointer dereference"
  | None, Some resp =>
  defer_Close resp (
  '(responseBody, err) <- io_ReadAll (Body resp) ;;
  match err with
  | Some e => ret (None, Some (Errorf "failed to read response body: " e))
  | None =>
  if negb (StatusCode resp =? 200) then
    ret (None, Some (errors_New ("request failed with status "
                              ++ Str.itoa (StatusCode resp) ++ ": " ++ responseBody)))
  else
  let '(response, err) := json_Unmarshal responseBody zero_Response in
  match err with
  | Some e => ret (None, Some (Errorf "failed to unmarshal response: " e))
  | None =>
  if negb (resp_StatusCode response =? 200) then
    ret (None, Some (errors_New ("GDPR service returned error: " ++ resp_Message response)))
  else
  let '(dataJSON, err) := json_Marshal (resp_Data response) in
  match err with
  | Some e => ret (None, Some (Errorf "failed to marshal data: " e))
  | None =>
  let '(value, err) := json_Unmarshal dataJSON zero_PaginatedResponse in
  match err with
  | Some e => ret (None, Some (Errorf "failed to unmarshal data: " e))
  | None => ret (Some value, None)
  end
  end
  end
  end)
  end end end.

(** [FetchDeleteRequestsByCreator]: fetches delete requests by creator *)
Definition FetchDeleteRequestsByCreator (c : Client) (input : FetchByCreatorInput)
  : M (option PaginatedResponse * option error) :=
  let input := default_fci_ApiKey c input in
  let '(body, err) := json_Marshal input in
  match err with
  | Some e => ret (None, Some (Errorf "failed to marshal request body: " e))
  | None =>
  let '(req, err) := http_NewRequest "POST" (baseURL c ++ "/gdpr?controller=delete&action=fetchByCreator") body in
  match err, req with
  | Some e, _ => ret (None, Some (Errorf "failed to create request: " e))
  | None, None => panic "nil pointer dereference"
  | None, Some req =>
  let req := Request_Header_Set req "Content-Type" "application/json" in
  '(resp, err) <- doRequestWithRetry c req ;;
  match err, resp with
  | Some e, _ => ret (None, Some (Errorf "failed to send request: " e))
  | None, None => panic "nil pointer dereference"
  | None, Some resp =>
  defer_Close resp (
  '(responseBody, err) <- io_ReadAll (Body resp) ;;
  match err with
  | Some e => ret (None, Some (Errorf "failed to read response body: " e))
  | None =>
  if negb (StatusCode resp =? 200) then
    ret (None, Some (errors_New ("request failed with status "
                              ++ Str.itoa (StatusCode resp) ++ ": " ++ responseBody)))
  else
  let '(response, err) := json_Unmarshal responseBody zero_Response in
  match err with
  | Some e => ret (None, Some (Errorf "failed to unmarshal response: " e))
  | None =>
  if negb (resp_StatusCode response =? 200) then
    ret (None, Some (errors_New ("GDPR service returned error: " ++ resp_Message response)))
  else
  let '(dataJSON, err) := json_Marshal (resp_Data response) in
  match err with
  | Some e => ret (None, Some (Errorf "failed to marshal data: " e))
  | None =>
  let '(value, err) := json_Unmarshal dataJSON zero_PaginatedResponse in
  match err with
  | Some e => ret (None, Some (Errorf "failed to unmarshal data: " e))
  | None => ret (Some value, None)
  end
  end
  end
  end)
  end end end.


(** ** The vocabulary of the properties *)

Local Open Scope list_scope.

(** What an iteration of the loop hands to [httpClient.Do]: the clone of
    the request as it is then, with the attempt number in a header from the
    second attempt on. *)
Definition loopRequest (req : Request) (attempt : Z) : Request :=
  let reqClone := Request_Clone req in
  if attempt >? 0
  then Request_Header_Set reqClone "X-Retry-Attempt" (Str.itoa attempt)
  else reqClone.

(** The request [req] as the loop holds it before its [n]-th iteration
    (counted from 0): its body reader holds what the exchanges before have
    left. *)
Fixpoint sharedRequest (req : Request) (n : nat) : Request :=
  match n with
  | O => req
  | S n' =>
      let r := sharedRequest req n' in
      Request_rest r (body_left (loopRequest r (Z.of_nat n')))
  end.

(** The request of attempt [attempt] of a run on [req]. *)
Definition attemptRequest (req : Request) (attempt : Z) : Request :=
  loopRequest (sharedRequest req (Z.to_nat attempt)) attempt.

(** The response and the error [httpClient.Do] returns for an outcome. *)
Definition Do_resp (o : outcome) : option http_Response :=
  match o with
  | Responded r | RedirectRefused r _ _ => Some r
  | Failed _ => None
  end.

Definition Do_err (req : Request) (o : outcome) : option error :=
  match o with
  | Responded _ => None
  | Failed e =>
      Some (url_Error (urlErrorOp (Method req)) (url_stripPassword (URL req)) e)
  | RedirectRefused _ loc e =>
      Some (url_Error (urlErrorOp (Method req)) loc e)
  end.

Definition Do_events (req : Request) (o : outcome) : list event :=
  match o with
  | RedirectRefused r _ _ => [EvDo req; EvClose (body_id (Body r))]
  | _ => [EvDo req]
  end.

(** The loop's first exit: no error and a status below 500 other than 429. *)
Definition succeeded (o : outcome) : bool :=
  match o with
  | Responded r => (StatusCode r <? 500) && negb (StatusCode r =? 429)
  | _ => false
  end.

(** The loop's [statusCode]: 0 without a response. *)
Definition statusOf (o : outcome) : Z :=
  match Do_resp o with Some r => StatusCode r | None => 0 end.

(** The loop closes the body of a response it does not return at once. *)
Definition closeEvents (o : outcome) : list event :=
  match Do_resp o with Some r => [EvClose (body_id (Body r))] | None => [] end.

(** The attempt failed and [ShouldRetry] says to try again. *)
Definition retryable (req : Request) (o : outcome) : bool :=
  negb (succeeded o) && ShouldRetry (statusOf o) (Do_err req o).

(** The value [calculateBackoff] returns when the random source is at its
    [n]-th draw, and the events it adds. *)
Definition backoffValue (c : Client) (attempt : Z) (n : nat) : Duration :=
  let p := retryPolicy c in
  let backoff :=
    (float64_of_int (InitialBackoff p)
     * math_Pow (BackoffFactor p) (float64_of_int attempt))%float in
  let backoff :=
    if (0 <? Jitter p)%float
    then (backoff * (1 + rand_source n * Jitter p))%float else backoff in
  let backoff :=
    if (float64_of_int (MaxBackoff p) <? backoff)%float
    then float64_of_int (MaxBackoff p) else backoff in
  Duration_of_float64 backoff.

Definition backoffEvents (c : Client) : list event :=
  if (0 <? Jitter (retryPolicy c))%float then [EvRand] else [].

(** The outcome of the [i]-th attempt of a run that starts at trace [t]. *)
Definition outcomeAt (t : trace) (req : Request) (i : nat) : outcome :=
  RoundTrip (attempts t + i) (attemptRequest req (Z.of_nat i)).

(** The events of a run of the loop that starts at attempt [a], retries [n]
    times and stops at the attempt after them; [nd] exchanges and [dr]
    random draws came before.  A retried attempt is the exchange, the close
    of the body of its response, the draw of the jitter and the sleep; the
    attempt the loop stops at is the exchange and, unless it leaves by the
    first exit, the close. *)
Fixpoint runEvents (c : Client) (req : Request) (n : nat) (a : Z) (nd dr : nat)
  : list event :=
  let rq := attemptRequest req a in
  let o := RoundTrip nd rq in
  match n with
  | O => Do_events rq o ++ (if succeeded o then [] else closeEvents o)
  | S n' =>
      Do_events rq o ++ closeEvents o ++ backoffEvents c
      ++ [EvSleep (backoffValue c a dr)]
      ++ runEvents c req n' (a + 1) (S nd) (dr + draws (backoffEvents c))
  end.

(** What a run of the loop adds to the trace [t] when it starts at attempt
    [a] and stops at its [n]-th iteration (counted from 0) with the outcome
    [o] of the request [rq].  The values returned are those [httpClient.Do]
    gave; one exchange per iteration; one sleep per iteration but the last,
    of the duration [calculateBackoff] gives for that attempt; no read of a
    body.  The body of a response that did not leave by the first exit is
    closed; after the first exit nothing follows the exchange. *)
Definition stopped_with (c : Client) (req : Request) (t : trace) (a : Z) (n : nat)
    (rq : Request) (o : outcome)
    (result : res (option http_Response * option error) * trace) : Prop :=
  exists l : trace,
    result = (Val (Do_resp o, Do_err rq o), (t ++ l)%list)
    /\ attempts l = (n + 1)%nat
    /\ sleeps l
       = map (fun i => backoffValue c (a + Z.of_nat i)
                         (draws t + i * draws (backoffEvents c)))
             (seq 0 n)
    /\ reads l = 0%nat
    /\ (succeeded o = false ->
        forall r, Do_resp o = Some r -> closed (body_id (Body r)) l = true)
    /\ (succeeded o = true -> exists l0, l = (l0 ++ [EvDo rq])%list)
    /\ l = runEvents c req n a (attempts t) (draws t).

(** The policy of scenario A. *)
Definition scenarioA_policy : RetryPolicy :=
  {| MaxRetries := 3;
     InitialBackoff := 100 * Millisecond;
     MaxBackoff := 10 * Second;
     BackoffFactor := 2%float;
     Jitter := 0%float |}.

(** A computation is local when it only adds events that are neither an
    exchange with the server nor a sleep. *)
Definition local {A : Type} (m : M A) : Prop :=
  forall t : trace,
    exists l : trace, snd (m t) = (t ++ l)%list /\ attempts l = 0%nat /\ sleeps l = [].

(** The request every operation builds: a POST of a JSON body to a path
    under the base URL. *)
Definition postJSON (c : Client) (path body : string) : Request :=
  Request_Header_Set
    {| Method := "POST"; URL := (baseURL c ++ path)%string;
       Req_Header := []; Req_Body := body |}
    "Content-Type" "application/json".

(** An operation sends its request to [path] through [send] when a run of
    it either adds nothing to the trace (it failed before sending) or adds
    what [send] adds for one POST to that path, and local events after
    it. *)
Definition sends_through {A : Type}
    (send : Request -> M (option http_Response * option error))
    (c : Client) (path : string) (op : M A) : Prop :=
  forall t : trace,
    snd (op t) = t
    \/ exists (body : string) (l : trace),
         snd (op t) = (snd (send (postJSON c path body) t) ++ l)%list
         /\ attempts l = 0%nat /\ sleeps l = [].

(** The backoff of attempt [attempt] before the cap: the product, and the
    jitter when the policy has one ([n] is the number of the draw). *)
Definition rawBackoff (c : Client) (attempt : Z) (n : nat) : float :=
  let p := retryPolicy c in
  let backoff :=
    (float64_of_int (InitialBackoff p)
     * math_Pow (BackoffFactor p) (float64_of_int attempt))%float in
  if (0 <? Jitter p)%float
  then (backoff * (1 + rand_source n * Jitter p))%float else backoff.

(** The options of the library that act on the fields the [Client] record
    keeps ([WithTransport] sets the transport only). *)
Inductive library_option : ClientOption -> Prop :=
| option_WithTimeout (timeout : Duration) : library_option (WithTimeout timeout)
| option_WithEnvironment (env : string) : library_option (WithEnvironment env)
| option_WithRetryPolicy (policy : RetryPolicy) :
    library_option (WithRetryPolicy policy)
| option_WithMaxRetries (maxRetries : Z) :
    library_option (WithMaxRetries maxRetries).

(** The responses the transport gave in the exchanges of the events [l],
    which follow [n] earlier exchanges. *)
Fixpoint responses (n : nat) (l : trace) : list http_Response :=
  match l with
  | [] => []
  | EvDo rq :: l' =>
      match Do_resp (RoundTrip n rq) with
      | Some r => r :: responses (S n) l'
      | None => responses (S n) l'
      end
  | _ :: l' => responses n l'
  end.

(** A computation leaks no response body: whatever trace it starts from, by
    its end the body of every response the transport gave it has been
    closed. *)
Definition closes_every_body {A : Type} (m : M A) : Prop :=
  forall t : trace,
    exists l : trace,
      snd (m t) = t ++ l
      /\ Forall (fun r => closed (body_id (Body r)) l = true)
                (responses (attempts t) l).

(** A result of the Go shape [(value, error)] is well formed when it has a
    value and a nil error, or no value and an error; a panic is neither. *)
Definition is_value {A : Type} (o : option A) : bool :=
  match o with Some _ => true | None => false end.

Definition value_xor_error {A : Type} (present : A -> bool)
    (m : M (A * option error)) : Prop :=
  forall t : trace,
    match fst (m t) with
    | Val (a, None) => present a = true
    | Val (a, Some _) => present a = false
    | Panic _ | OutOfFuel => False
    end.

(** ** The scheme of the operations

    What an operation does with the result of sending its request: the error
    of the exchange, the read of the body, the test of the status, and then
    its own decoding of the bytes read. *)
Definition handle {A : Type} (zero : A)
    (decode : http_Response -> string -> option error -> M (A * option error))
    (x : option http_Response * option error) : M (A * option error) :=
  let '(resp, err) := x in
  match err, resp with
  | Some e, _ => ret (zero, Some (Errorf "failed to send request: " e))
  | None, None => panic "nil pointer dereference"
  | None, Some resp =>
  defer_Close resp (
  '(responseBody, err) <- io_ReadAll (Body resp) ;;
  match err with
  | Some e => ret (zero, Some (Errorf "failed to read response body: " e))
  | None =>
  if negb (StatusCode resp =? 200) then
    ret (zero, Some (errors_New ("request failed with status "
                              ++ Str.itoa (StatusCode resp) ++ ": " ++ responseBody)))
  else decode resp responseBody err
  end)
  end.

(** The whole of an operation on an input whose key has been set: the
    encoding, the request, the sending through [send], and [handle]. *)
Definition operation {I A : Type} {Marshal_I : Marshaler I}
    (send : Request -> M (option http_Response * option error))
    (c : Client) (path : string) (zero : A)
    (decode : http_Response -> string -> option error -> M (A * option error))
    (input : I) : M (A * option error) :=
  let '(body, err) := json_Marshal input in
  match err with
  | Some e => ret (zero, Some (Errorf "failed to marshal request body: " e))
  | None =>
  let '(req, err) := http_NewRequest "POST" (baseURL c ++ path) body in
  match err, req with
  | Some e, _ => ret (zero, Some (Errorf "failed to create request: " e))
  | None, None => panic "nil pointer dereference"
  | None, Some req =>
  let req := Request_Header_Set req "Content-Type" "application/json" in
  x <- send req ;; handle zero decode x
  end
  end.

(** The decoding of [CreateInfoRequest]. *)
Definition decode_CreateInfo (resp : http_Response) (responseBody : string)
    (err : option error) : M (option InfoRequest * option error) :=
  if negb (StatusCode resp =? 200) then
    ret (None, Some (errors_New ("GDPR service returned error: " ++ fmt_Body (Body resp)
                                 ++ ", StatusCode: " ++ Str.itoa (StatusCode resp))))
  else
  log_Printf ("GDPRClientLibrary.CreateInfo - Response Body: " ++ responseBody) ;;
  let '(infoRequest, jsonErr) := json_Unmarshal responseBody zero_InfoRequest in
  match err with
  | Some _ => ret (None, Some (errors_New ("failed to unmarshal data: " ++ Error_v jsonErr)))
  | None => ret (Some infoRequest, None)
  end.

(** The decoding of the data of an envelope; the two fetches first test the
    envelope for the status 404, which they report as [missing]. *)
Definition decode_data {A : Type} {Unmarshal_A : Unmarshaler A} (zero_A : A)
    (missing : option string) (resp : http_Response)
    (responseBody : string) (err : option error) : M (option A * option error) :=
  let '(response, err) := json_Unmarshal responseBody zero_Response in
  match err with
  | Some e => ret (None, Some (Errorf "failed to unmarshal response: " e))
  | None =>
  let data :=
    if negb (resp_StatusCode response =? 200) then
      ret (None, Some (errors_New ("GDPR service returned error: " ++ resp_Message response)))
    else
    let '(dataJSON, err) := json_Marshal (resp_Data response) in
    match err with
    | Some e => ret (None, Some (Errorf "failed to marshal data: " e))
    | None =>
    let '(value, err) := json_Unmarshal dataJSON zero_A in
    match err with
    | Some e => ret (None, Some (Errorf "failed to unmarshal data: " e))
    | None => ret (Some value, None)
    end
    end in
  match missing with
  | Some text =>
      if resp_StatusCode response =? 404 then ret (None, Some (errors_New text))
      else data
  | None => data
  end
  end.

(** The decoding of the updates and the deletes. *)
Definition decode_ok (resp : http_Response) (responseBody : string)
    (err : option error) : M (bool * option error) :=
  let '(response, err) := json_Unmarshal responseBody zero_Response in
  match err with
  | Some e => ret (false, Some (Errorf "failed to unmarshal response: " e))
  | None =>
  if negb (resp_StatusCode response =? 200) then
    ret (false, Some (errors_New ("GDPR service returned error: " ++ resp_Message response)))
  else
  ret (true, None)
  end.

(** An operation to [path] whose preparation fails: when the encoding of the
    input or the parsing of the URL gives an error, the operation returns
    that error under its prefix, and the trace is as it was: nothing is
    sent, read or logged. *)
Definition fails_before_sending {I A : Type} {Marshal_I : Marshaler I}
    (setKey : Client -> I -> I) (path : string) (zero : A)
    (op : Client -> I -> M (A * option error)) : Prop :=
  forall (c : Client) (input : I) (t : trace) (body : string) (e : error),
    (json_Marshal (setKey c input) = (body, Some e) ->
     op c input t
     = (Val (zero, Some (errors_New ("failed to marshal request body: " ++ Error e))), t))
    /\ (json_Marshal (setKey c input) = (body, None) ->
        url_Parse_err (baseURL c ++ path) = Some e ->
        op c input t
        = (Val (zero, Some (errors_New ("failed to create request: " ++ Error e))), t)).

(** An operation to [path] on a client whose policy has a negative
    [MaxRetries]: the executor returns a nil response and a nil error, and
    the operation panics at [resp.Body]. *)
Definition panics_without_attempts {I A : Type} {Marshal_I : Marshaler I}
    (setKey : Client -> I -> I) (path : string)
    (op : Client -> I -> M (A * option error)) : Prop :=
  forall (c : Client) (input : I) (t : trace) (body : string),
    MaxRetries (retryPolicy c) < 0 ->
    json_Marshal (setKey c input) = (body, None) ->
    url_Parse_err (baseURL c ++ path) = None ->
    op c input t = (Panic "nil pointer dereference", t).

(** What an operation reports for a response with a status other than 200
    whose body was closed before the operation reads it: the error of the
    read, when the closed body refuses it (a body from the network does,
    with [http.ErrBodyReadAfterClose]); the status and what the read gives,
    when the closed body lets itself be read ([http.NoBody] gives nothing). *)
Definition closed_body_report (resp : http_Response) : error :=
  match read_after_close (Body resp) with
  | (_, Some e) => errors_New ("failed to read response body: " ++ Error e)
  | (data, None) =>
      errors_New ("request failed with status "
                  ++ Str.itoa (StatusCode resp) ++ ": " ++ data)
  end.

(** An operation to [path] that sends through the executor, when the
    executor returns a response with a status from 500 up, or 429, and no
    error: the operation reads a body that the executor has closed, and
    reports what [closed_body_report] says; for a body from the network that
    is the failed read, not the status. *)
Definition reports_closed_body {I A : Type} {Marshal_I : Marshaler I}
    (setKey : Client -> I -> I) (path : string) (zero : A)
    (op : Client -> I -> M (A * option error)) : Prop :=
  forall (c : Client) (input : I) (t t1 : trace) (body : string)
         (resp : http_Response),
    0 <= MaxRetries (retryPolicy c) ->
    json_Marshal (setKey c input) = (body, None) ->
    url_Parse_err (baseURL c ++ path) = None ->
    doRequestWithRetry c (postJSON c path body) t = (Val (Some resp, None), t1) ->
    500 <= StatusCode resp \/ StatusCode resp = 429 ->
    op c input t
    = (Val (zero, Some (closed_body_report resp)),
       t1 ++ [EvRead (body_id (Body resp)); EvClose (body_id (Body resp))])
    /\ (read_after_close (Body resp) = ("", Some http_ErrBodyReadAfterClose) ->
        closed_body_report resp
        = errors_New
            "failed to read response body: http: read on closed response body")
    /\ (Body resp = http_NoBody (body_id (Body resp)) ->
        closed_body_report resp
        = errors_New ("request failed with status "
                      ++ Str.itoa (StatusCode resp) ++ ": ")).

(** An operation to [path] that sends with [send], when [send] returns a
    response with a status other than 200 whose body is open and is read in
    full: the operation reports the status and the text of the body, and
    closes the body. *)
Definition reports_status {I A : Type} {Marshal_I : Marshaler I}
    (send : Client -> Request -> M (option http_Response * option error))
    (setKey : Client -> I -> I) (path : string) (zero : A)
    (op : Client -> I -> M (A * option error)) : Prop :=
  forall (c : Client) (input : I) (t t1 : trace) (body : string)
         (resp : http_Response),
    json_Marshal (setKey c input) = (body, None) ->
    url_Parse_err (baseURL c ++ path) = None ->
    send c (postJSON c path body) t = (Val (Some resp, None), t1) ->
    StatusCode resp <> 200 ->
    closed (body_id (Body resp)) t1 = false ->
    was_read (body_id (Body resp)) t1 = false ->
    body_err (Body resp) = None ->
    op c input t
    = (Val (zero,
            Some (errors_New ("request failed with status "
                              ++ Str.itoa (StatusCode resp) ++ ": "
                              ++ body_bytes (Body resp)))),
       t1 ++ [EvRead (body_id (Body resp)); EvClose (body_id (Body resp))]).

(** An operation to [path] that sends with [send], when [send] returns a
    response with the status 200 whose body is open and read in full, and
    the bytes decode to an envelope whose own status is not 200: the
    operation reports the envelope's message, or, for the two fetches, the
    text [missing] when the envelope says 404; then it closes the body. *)
Definition reports_service_error {I A : Type} {Marshal_I : Marshaler I}
    (send : Client -> Request -> M (option http_Response * option error))
    (setKey : Client -> I -> I) (path : string) (zero : A)
    (missing : option string)
    (op : Client -> I -> M (A * option error)) : Prop :=
  forall (c : Client) (input : I) (t t1 : trace) (body : string)
         (resp : http_Response) (response : Response),
    json_Marshal (setKey c input) = (body, None) ->
    url_Parse_err (baseURL c ++ path) = None ->
    send c (postJSON c path body) t = (Val (Some resp, None), t1) ->
    StatusCode resp = 200 ->
    closed (body_id (Body resp)) t1 = false ->
    was_read (body_id (Body resp)) t1 = false ->
    body_err (Body resp) = None ->
    json_Unmarshal (body_bytes (Body resp)) zero_Response = (response, None) ->
    resp_StatusCode response <> 200 ->
    op c input t
    = (Val (zero,
            Some (errors_New
                    match missing with
                    | Some text =>
                        if resp_StatusCode response =? 404 then text
                        else "GDPR service returned error: " ++ resp_Message response
                    | None =>
                        "GDPR service returned error: " ++ resp_Message response
                    end)),
       t1 ++ [EvRead (body_id (Body resp)); EvClose (body_id (Body resp))]).

(** An operation to [path] whose first exchange is answered, without error,
    with a status below 500 other than 200 and 429 (a 4xx, say), the body
    open and read in full: the operation makes that one exchange, does not
    sleep, and reports the status and the text of the body. *)
Definition reports_first_answer {I A : Type} {Marshal_I : Marshaler I}
    (setKey : Client -> I -> I) (path : string) (zero : A)
    (op : Client -> I -> M (A * option error)) : Prop :=
  forall (c : Client) (input : I) (t : trace) (body : string)
         (resp : http_Response),
    0 <= MaxRetries (retryPolicy c) ->
    json_Marshal (setKey c input) = (body, None) ->
    url_Parse_err (baseURL c ++ path) = None ->
    RoundTrip (attempts t) (postJSON c path body) = Responded resp ->
    StatusCode resp < 500 ->
    StatusCode resp <> 429 ->
    StatusCode resp <> 200 ->
    closed (body_id (Body resp)) t = false ->
    was_read (body_id (Body resp)) t = false ->
    body_err (Body resp) = None ->
    op c input t
    = (Val (zero,
            Some (errors_New ("request failed with status "
                              ++ Str.itoa (StatusCode resp) ++ ": "
                              ++ body_bytes (Body resp)))),
       t ++ [EvDo (postJSON c path body);
             EvRead (body_id (Body resp)); EvClose (body_id (Body resp))]).

(** An operation to [path] that sends with [send], when [send] returns a
    response with the status 200 whose body is open and read in full, the
    bytes decode to an envelope whose own status is 200, and the data of the
    envelope, encoded again, decode to [value]: the operation returns
    [value] and a nil error, and closes the body. *)
Definition returns_the_data {I A : Type} {Marshal_I : Marshaler I}
    {Unmarshal_A : Unmarshaler A}
    (send : Client -> Request -> M (option http_Response * option error))
    (setKey : Client -> I -> I) (path : string) (zero_A : A)
    (op : Client -> I -> M (option A * option error)) : Prop :=
  forall (c : Client) (input : I) (t t1 : trace) (body : string)
         (resp : http_Response) (response : Response) (dataJSON : string)
         (value : A),
    json_Marshal (setKey c input) = (body, None) ->
    url_Parse_err (baseURL c ++ path) = None ->
    send c (postJSON c path body) t = (Val (Some resp, None), t1) ->
    StatusCode resp = 200 ->
    closed (body_id (Body resp)) t1 = false ->
    was_read (body_id (Body resp)) t1 = false ->
    body_err (Body resp) = None ->
    json_Unmarshal (body_bytes (Body resp)) zero_Response = (response, None) ->
    resp_StatusCode response = 200 ->
    json_Marshal (resp_Data response) = (dataJSON, None) ->
    json_Unmarshal dataJSON zero_A = (value, None) ->
    op c input t
    = (Val (Some value, None),
       t1 ++ [EvRead (body_id (Body resp)); EvClose (body_id (Body resp))]).

(** The same for an update or a delete, which returns [true] on an envelope
    whose status is 200 and does not look at its data. *)
Definition confirms {I : Type} {Marshal_I : Marshaler I}
    (send : Client -> Request -> M (option http_Response * option error))
    (setKey : Client -> I -> I) (path : string)
    (op : Client -> I -> M (bool * option error)) : Prop :=
  forall (c : Client) (input : I) (t t1 : trace) (body : string)
         (resp : http_Response) (response : Response),
    json_Marshal (setKey c input) = (body, None) ->
    url_Parse_err (baseURL c ++ path) = None ->
    send c (postJSON c path body) t = (Val (Some resp, None), t1) ->
    StatusCode resp = 200 ->
    closed (body_id (Body resp)) t1 = false ->
    was_read (body_id (Body resp)) t1 = false ->
    body_err (Body resp) = None ->
    json_Unmarshal (body_bytes (Body resp)) zero_Response = (response, None) ->
    resp_StatusCode response = 200 ->
    op c input t
    = (Val (true, None),
       t1 ++ [EvRead (body_id (Body resp)); EvClose (body_id (Body resp))]).

(** The time a list of sleeps takes. *)
Definition sum_durations (ds : list Duration) : Duration := fold_right Z.add 0 ds.

(** A computation stays within the policy of the client [c]: whatever trace
    it starts from, it adds at most [MaxRetries + 1] exchanges and at most
    [MaxRetries] sleeps (none of either when [MaxRetries] is negative). *)
Definition within_policy {A : Type} (c : Client) (m : M A) : Prop :=
  forall t : trace,
    (attempts (snd (m t))
     <= attempts t + Z.to_nat (MaxRetries (retryPolicy c) + 1))%nat
    /\ (List.length (sleeps (snd (m t)))
        <= List.length (sleeps t) + Z.to_nat (MaxRetries (retryPolicy c)))%nat.

(** A decoder of envelopes that gives the same envelope for every text: the
    stand-in, in the runs, for a service that always answers with it. *)
Definition constant_envelope (response : Response) : Unmarshaler Response :=
  {| json_Unmarshal := fun _ _ => (response, None) |}.

(** The value of a binary64 that is zero or positive and finite, in units
    of [2^-1074], the least positive binary64: an integer. *)
Definition scaled (m : positive) (e : Z) : Z := Zpos m * 2 ^ (e + 1074).

Definition SFscaled (f : spec_float) : option Z :=
  match f with
  | S754_zero _ => Some 0
  | S754_finite false m e => Some (scaled m e)
  | _ => None
  end.

(** The state of a right shift of [M] by [j] digits: the quotient, and the
    place of the remainder below, at or above the half. *)
Definition shr_inv (M j : Z) (mrs : shr_record) : Prop :=
  let rem := M - shr_m mrs * 2 ^ j in
  0 <= shr_m mrs
  /\ 0 <= rem < 2 ^ j
  /\ shr_r mrs = (2 ^ j <=? 2 * rem)
  /\ shr_s mrs = negb (rem =? 0) && negb (2 * rem =? 2 ^ j).

(** The integer nearest to [M / 2^k], the even one of two as near. *)
Definition rnd (M k : Z) : Z :=
  let q := M / 2 ^ k in
  match 2 * (M mod 2 ^ k) ?= 2 ^ k with
  | Lt => q
  | Eq => if Z.even q then q else q + 1
  | Gt => q + 1
  end.

(** The exponent a product is rounded at. *)
Definition rexp (m : positive) (e : Z) : Z :=
  fexp prec emax (Zpos (digits2_pos m) + e).

(** The value a product is rounded to, in units of [2^-1074]. *)
Definition rounded (m : positive) (e : Z) : Z :=
  rnd (Zpos m) (rexp m e - e) * 2 ^ (rexp m e + 1074).

(** What the cap of [calculateBackoff] makes of a backoff [b]: the integer
    part of [b] or [maxBackoff], whichever is less, and [maxBackoff] for
    an infinite [b]. *)
Definition cappedBackoff (maxBackoff : Duration) (b : float) : Duration :=
  match float64_trunc b with
  | Some d => Z.min d maxBackoff
  | None => maxBackoff
  end.

(** * Properties *)

Local Open Scope list_scope.

(** ** Strings *)

Lemma occurs_append (ch : ascii) (s1 s2 : string) :
  Str.occurs ch (s1 ++ s2)%string = Str.occurs ch s1 || Str.occurs ch s2.
Proof.
  induction s1 as [|d s1 IH]; simpl; [reflexivity|].
  rewrite IH. now rewrite orb_assoc.
Qed.

(** ** Observations of a trace *)

Lemma attempts_app (t l : trace) :
  attempts (t ++ l) = (attempts t + attempts l)%nat.
Proof. unfold attempts. now rewrite filter_app, length_app. Qed.

Lemma draws_app (t l : trace) : draws (t ++ l) = (draws t + draws l)%nat.
Proof. unfold draws. now rewrite filter_app, length_app. Qed.

Lemma reads_app (t l : trace) : reads (t ++ l) = (reads t + reads l)%nat.
Proof. unfold reads. now rewrite filter_app, length_app. Qed.

Lemma sleeps_app (t l : trace) : sleeps (t ++ l) = (sleeps t ++ sleeps l)%list.
Proof.
  induction t as [|e t IH]; simpl; [reflexivity|].
  destruct e; simpl; now rewrite IH.
Qed.

Lemma requests_app (t l : trace) :
  requests (t ++ l) = (requests t ++ requests l)%list.
Proof.
  induction t as [|e t IH]; simpl; [reflexivity|].
  destruct e; simpl; now rewrite IH.
Qed.

Lemma closed_app (b : nat) (t l : trace) :
  closed b (t ++ l) = closed b t || closed b l.
Proof. unfold closed. apply existsb_app. Qed.

Lemma was_read_app (b : nat) (t l : trace) :
  was_read b (t ++ l) = was_read b t || was_read b l.
Proof. unfold was_read. apply existsb_app. Qed.

Lemma calculateBackoff_run (c : Client) (attempt : Z) (t : trace) :
  calculateBackoff c attempt t
  = (Val (backoffValue c attempt (draws t)), (t ++ backoffEvents c)%list).
Proof.
  unfold calculateBackoff, backoffValue, backoffEvents, bind, rand_Float64, ret.
  destruct (0 <? Jitter (retryPolicy c))%float.
  - reflexivity.
  - now rewrite app_nil_r.
Qed.

Lemma httpClient_Do_run (req : Request) (t : trace) :
  httpClient_Do req t
  = (Val (Do_resp (RoundTrip (attempts t) req),
          Do_err req (RoundTrip (attempts t) req)),
     (t ++ Do_events req (RoundTrip (attempts t) req))%list).
Proof.
  unfold httpClient_Do. now destruct (RoundTrip (attempts t) req).
Qed.

(** One iteration of the loop, as an equation. *)
Lemma attemptLoop_step (fuel : nat) (c : Client) (req : Request) (a : Z)
    (resp : option http_Response) (err : option error) (t : trace) :
  attemptLoop (S fuel) c req a resp err t =
  if a <=? MaxRetries (retryPolicy c) then
    let rq := loopRequest req a in
    let o := RoundTrip (attempts t) rq in
    let t1 := (t ++ Do_events rq o)%list in
    if succeeded o then (Val (Do_resp o, None), t1)
    else
      let t2 := (t1 ++ closeEvents o)%list in
      if negb (ShouldRetry (statusOf o) (Do_err rq o))
         || (a >=? MaxRetries (retryPolicy c))
      then (Val (Do_resp o, Do_err rq o), t2)
      else
        attemptLoop fuel c (Request_rest req (body_left rq)) (a + 1)
          (Do_resp o) (Do_err rq o)
          (t2 ++ backoffEvents c ++ [EvSleep (backoffValue c a (draws t2))])%list
  else (Val (resp, err), t).
Proof.
  cbn [attemptLoop].
  destruct (a <=? MaxRetries (retryPolicy c)); [|reflexivity].
  fold (loopRequest req a).
  unfold bind at 1. rewrite httpClient_Do_run.
  set (rq := loopRequest req a).
  destruct (RoundTrip (attempts t) rq) as [r|e|r loc e]; cbn -[attemptLoop ShouldRetry calculateBackoff].
  - unfold bind, ret, Body_Close, emit, statusOf, closeEvents; cbn -[attemptLoop ShouldRetry calculateBackoff].
    destruct ((StatusCode r <? 500) && negb (StatusCode r =? 429)); [reflexivity|].
    destruct (negb (ShouldRetry (StatusCode r) None) || (a >=? MaxRetries (retryPolicy c)));
      [reflexivity|].
    rewrite calculateBackoff_run. unfold time_Sleep, emit.
    now rewrite <- !app_assoc.
  - unfold bind, ret, statusOf, closeEvents; cbn -[attemptLoop ShouldRetry calculateBackoff].
    rewrite app_nil_r.
    destruct (negb (ShouldRetry 0 _) || (a >=? MaxRetries (retryPolicy c))); [reflexivity|].
    rewrite calculateBackoff_run. unfold time_Sleep, emit.
    now rewrite <- !app_assoc.
  - unfold bind, ret, Body_Close, emit, statusOf, closeEvents; cbn -[attemptLoop ShouldRetry calculateBackoff].
    destruct (negb (ShouldRetry (StatusCode r) _) || (a >=? MaxRetries (retryPolicy c)));
      [reflexivity|].
    rewrite calculateBackoff_run. unfold time_Sleep, emit.
    now rewrite <- !app_assoc.
Qed.


Lemma succeeded_no_err (req : Request) (o : outcome) :
  succeeded o = true -> Do_err req o = None.
Proof. destruct o; simpl; congruence. Qed.

Lemma succeeded_Do_events (req : Request) (o : outcome) :
  succeeded o = true -> Do_events req o = [EvDo req].
Proof. destruct o; simpl; congruence. Qed.

Lemma attempts_Do_events (req : Request) (o : outcome) :
  attempts (Do_events req o) = 1%nat.
Proof. now destruct o. Qed.

Lemma attempts_closeEvents (o : outcome) : attempts (closeEvents o) = 0%nat.
Proof. unfold closeEvents. now destruct (Do_resp o). Qed.

Lemma attempts_backoffEvents (c : Client) : attempts (backoffEvents c) = 0%nat.
Proof. unfold backoffEvents. now destruct (0 <? Jitter (retryPolicy c))%float. Qed.

Lemma sleeps_Do_events (req : Request) (o : outcome) : sleeps (Do_events req o) = [].
Proof. now destruct o. Qed.

Lemma sleeps_closeEvents (o : outcome) : sleeps (closeEvents o) = [].
Proof. unfold closeEvents. now destruct (Do_resp o). Qed.

Lemma sleeps_backoffEvents (c : Client) : sleeps (backoffEvents c) = [].
Proof. unfold backoffEvents. now destruct (0 <? Jitter (retryPolicy c))%float. Qed.

Lemma reads_Do_events (req : Request) (o : outcome) : reads (Do_events req o) = 0%nat.
Proof. now destruct o. Qed.

Lemma reads_closeEvents (o : outcome) : reads (closeEvents o) = 0%nat.
Proof. unfold closeEvents. now destruct (Do_resp o). Qed.

Lemma reads_backoffEvents (c : Client) : reads (backoffEvents c) = 0%nat.
Proof. unfold backoffEvents. now destruct (0 <? Jitter (retryPolicy c))%float. Qed.

Lemma closed_closeEvents (o : outcome) (r : http_Response) :
  Do_resp o = Some r -> closed (body_id (Body r)) (closeEvents o) = true.
Proof.
  unfold closeEvents. intros ->. simpl. now rewrite Nat.eqb_refl.
Qed.

Create Rewrite HintDb trace_obs.
#[local] Hint Rewrite attempts_app sleeps_app reads_app closed_app
  attempts_Do_events attempts_closeEvents attempts_backoffEvents
  sleeps_Do_events sleeps_closeEvents sleeps_backoffEvents
  reads_Do_events reads_closeEvents reads_backoffEvents
  length_app app_nil_r : trace_obs.

(** ** The run of the loop *)

Lemma draws_Do_events (req : Request) (o : outcome) : draws (Do_events req o) = 0%nat.
Proof. now destruct o. Qed.

Lemma draws_closeEvents (o : outcome) : draws (closeEvents o) = 0%nat.
Proof. unfold closeEvents. now destruct (Do_resp o). Qed.

Lemma draws_sleep (d : Duration) : draws [EvSleep d] = 0%nat.
Proof. reflexivity. Qed.

(** The request the loop holds after the exchange of attempt [a]. *)
Lemma sharedRequest_succ (req : Request) (a : Z) :
  0 <= a ->
  sharedRequest req (Z.to_nat (a + 1))
  = Request_rest (sharedRequest req (Z.to_nat a)) (body_left (attemptRequest req a)).
Proof.
  intros Ha. replace (Z.to_nat (a + 1)) with (S (Z.to_nat a)) by lia.
  cbn [sharedRequest]. unfold attemptRequest. now rewrite Z2Nat.id by exact Ha.
Qed.

Lemma attemptLoop_run (c : Client) (req : Request) :
  forall (n fuel : nat) (a : Z) (resp : option http_Response)
         (err : option error) (t : trace),
    (n < fuel)%nat ->
    0 <= a ->
    a + Z.of_nat n <= MaxRetries (retryPolicy c) ->
    (forall j, (j < n)%nat ->
       retryable (attemptRequest req (a + Z.of_nat j))
                 (RoundTrip (attempts t + j) (attemptRequest req (a + Z.of_nat j)))
       = true) ->
    (retryable (attemptRequest req (a + Z.of_nat n))
               (RoundTrip (attempts t + n) (attemptRequest req (a + Z.of_nat n)))
     = false
     \/ a + Z.of_nat n = MaxRetries (retryPolicy c)) ->
    stopped_with c req t a n (attemptRequest req (a + Z.of_nat n))
      (RoundTrip (attempts t + n) (attemptRequest req (a + Z.of_nat n)))
      (attemptLoop fuel c (sharedRequest req (Z.to_nat a)) a resp err t).
Proof.
  induction n as [|n IH]; intros fuel a resp err t Hfuel Ha Hle Hretry Hstop.
  - destruct fuel as [|fuel]; [lia|].
    rewrite attemptLoop_step. fold (attemptRequest req a).
    replace (a + Z.of_nat 0) with a in * by lia.
    replace (attempts t + 0)%nat with (attempts t) in * by lia.
    destruct (Z.leb_spec a (MaxRetries (retryPolicy c))) as [_|]; [|lia].
    cbv zeta.
    set (rq := attemptRequest req a) in *.
    set (o := RoundTrip (attempts t) rq) in *.
    unfold stopped_with.
    destruct (succeeded o) eqn:Hs.
    + exists (Do_events rq o).
      rewrite (succeeded_no_err rq o Hs), attempts_Do_events,
        sleeps_Do_events, reads_Do_events.
      repeat split; try discriminate.
      * intros _. exists []. now rewrite (succeeded_Do_events rq o Hs).
      * cbn [runEvents]. fold rq o. now rewrite Hs, app_nil_r.
    + assert (Hbreak : negb (ShouldRetry (statusOf o) (Do_err rq o))
                       || (a >=? MaxRetries (retryPolicy c)) = true).
      { destruct Hstop as [Hr|Ha'].
        - unfold retryable in Hr. rewrite Hs in Hr. simpl in Hr.
          now rewrite Hr.
        - rewrite orb_true_iff. right. apply Z.geb_le. lia. }
      rewrite Hbreak. exists (Do_events rq o ++ closeEvents o).
      autorewrite with trace_obs.
      repeat split; try discriminate.
      * now rewrite app_assoc.
      * intros _ r Hr.
        now rewrite closed_app, (closed_closeEvents o r Hr), orb_true_r.
      * cbn [runEvents]. fold rq o. now rewrite Hs.
  - destruct fuel as [|fuel]; [lia|].
    rewrite attemptLoop_step.
    destruct (Z.leb_spec a (MaxRetries (retryPolicy c))) as [_|]; [|lia].
    cbv zeta. fold (attemptRequest req a).
    rewrite <- (sharedRequest_succ req a Ha).
    pose proof (Hretry 0%nat ltac:(lia)) as H0.
    replace (a + Z.of_nat 0) with a in H0 by lia.
    replace (attempts t + 0)%nat with (attempts t) in H0 by lia.
    set (rq := attemptRequest req a) in *.
    set (o := RoundTrip (attempts t) rq) in *.
    unfold retryable in H0. apply andb_true_iff in H0 as [Hs Hr].
    apply negb_true_iff in Hs. rewrite Hs, Hr.
    destruct (Z.geb_spec a (MaxRetries (retryPolicy c))) as [|_]; [lia|].
    cbn [negb orb].
    assert (Hdr : draws ((t ++ Do_events rq o) ++ closeEvents o) = draws t).
    { rewrite !draws_app, draws_Do_events, draws_closeEvents. lia. }
    rewrite Hdr.
    set (l1 := Do_events rq o ++ closeEvents o ++ backoffEvents c
               ++ [EvSleep (backoffValue c a (draws t))]).
    replace (((t ++ Do_events rq o) ++ closeEvents o) ++ _) with (t ++ l1)
      by (subst l1; now rewrite <- !app_assoc).
    assert (Hat : attempts l1 = 1%nat).
    { subst l1. autorewrite with trace_obs. reflexivity. }
    assert (Hsl : sleeps l1 = [backoffValue c a (draws t)]).
    { subst l1. autorewrite with trace_obs. reflexivity. }
    assert (Hrd : reads l1 = 0%nat).
    { subst l1. autorewrite with trace_obs. reflexivity. }
    assert (Hdl : draws l1 = draws (backoffEvents c)).
    { subst l1. rewrite !draws_app, draws_Do_events, draws_closeEvents, draws_sleep.
      lia. }
    specialize (IH fuel (a + 1) (Do_resp o) (Do_err rq o) (t ++ l1)).
    replace (a + 1 + Z.of_nat n) with (a + Z.of_nat (S n)) in IH by lia.
    replace (attempts (t ++ l1) + n)%nat with (attempts t + S n)%nat in IH
      by (rewrite attempts_app; lia).
    destruct IH as (l2 & Hres & Hatt & Hslp & Hreads & Hclosed & Hlast & Hev);
      [lia | lia | lia | | exact Hstop | ].
    { intros j Hj. specialize (Hretry (S j) ltac:(lia)).
      replace (a + 1 + Z.of_nat j) with (a + Z.of_nat (S j)) by lia.
      replace (attempts (t ++ l1) + j)%nat with (attempts t + S j)%nat
        by (rewrite attempts_app; lia).
      exact Hretry. }
    exists (l1 ++ l2). repeat split.
    + now rewrite Hres, app_assoc.
    + rewrite attempts_app. lia.
    + rewrite sleeps_app, Hsl, Hslp. cbn [seq map app].
      f_equal; [f_equal; lia|].
      rewrite <- seq_shift, map_map. apply map_ext. intros i.
      f_equal; [lia|]. rewrite draws_app, Hdl. simpl. lia.
    + rewrite reads_app. lia.
    + intros Hf r Hr'. rewrite closed_app, (Hclosed Hf r Hr'). apply orb_true_r.
    + intros Ht. destruct (Hlast Ht) as [l0 ->]. exists (l1 ++ l0).
      now rewrite app_assoc.
    + rewrite Hev. cbn [runEvents]. fold rq o. subst l1.
      rewrite attempts_app, draws_app, Hat, Hdl, <- !app_assoc.
      repeat f_equal; lia.
Qed.

(** Among the iterations 0 .. m there is a first one that is not followed by
    another: the first with an outcome not to retry, or the last. *)
Lemma first_stop (P : nat -> bool) (m : nat) :
  exists k, (k <= m)%nat /\ (forall i, (i < k)%nat -> P i = true)
            /\ (P k = false \/ k = m).
Proof.
  induction m as [|m (k & Hk & Hall & Hstop)].
  - exists 0%nat. repeat split; [lia | | now right]. intros i Hi. lia.
  - destruct (P k) eqn:HPk.
    + destruct Hstop as [Hf|Hm]; [congruence|subst k].
      exists (S m). repeat split; [lia | | now right].
      intros i Hi. destruct (Nat.eq_dec i m) as [Him|Him]; [now subst i|].
      apply Hall. lia.
    + exists k. repeat split; [lia | exact Hall | now left].
Qed.

Lemma doRequestWithRetry_run (c : Client) (req : Request) (t : trace) (k : nat) :
  Z.of_nat k <= MaxRetries (retryPolicy c) ->
  (forall i, (i < k)%nat ->
     retryable (attemptRequest req (Z.of_nat i)) (outcomeAt t req i) = true) ->
  (retryable (attemptRequest req (Z.of_nat k)) (outcomeAt t req k) = false
   \/ Z.of_nat k = MaxRetries (retryPolicy c)) ->
  stopped_with c req t 0 k (attemptRequest req (Z.of_nat k)) (outcomeAt t req k)
    (doRequestWithRetry c req t).
Proof.
  intros Hk Hretry Hstop. unfold doRequestWithRetry, outcomeAt in *.
  apply (attemptLoop_run c req k _ 0 None None t); simpl; try assumption; lia.
Qed.

Lemma Do_events_head (req : Request) (o : outcome) :
  exists extra, Do_events req o = EvDo req :: extra /\ attempts extra = 0%nat.
Proof. destruct o; simpl; eexists; split; reflexivity. Qed.

Lemma runEvents_head (c : Client) (req : Request) (n : nat) (a : Z) (nd dr : nat) :
  exists rest, runEvents c req n a nd dr = EvDo (attemptRequest req a) :: rest.
Proof.
  destruct (Do_events_head (attemptRequest req a) (RoundTrip nd (attemptRequest req a)))
    as (extra & E & _).
  destruct n; cbn [runEvents]; rewrite E; simpl; eexists; reflexivity.
Qed.

(** In the events of a run, the body of the response of a retried attempt
    is closed after the exchange of that attempt and before the next
    exchange. *)
Lemma runEvents_closes_retried (c : Client) (req : Request) (r : http_Response) :
  forall (n : nat) (a : Z) (nd dr j : nat),
    (j < n)%nat ->
    Do_resp (RoundTrip (nd + j) (attemptRequest req (a + Z.of_nat j))) = Some r ->
    exists pre mid post : list event,
      runEvents c req n a nd dr
      = pre ++ EvDo (attemptRequest req (a + Z.of_nat j))
            :: mid ++ EvDo (attemptRequest req (a + Z.of_nat j + 1)) :: post
      /\ attempts pre = j
      /\ attempts mid = 0%nat
      /\ closed (body_id (Body r)) mid = true.
Proof.
  induction n as [|n IH]; intros a nd dr j Hj Hr; [lia|].
  cbn [runEvents].
  set (rq := attemptRequest req a).
  set (o := RoundTrip nd rq).
  destruct (Do_events_head rq o) as (extra & Eo & Hextra).
  destruct j as [|j].
  - replace (a + Z.of_nat 0) with a in * by lia.
    replace (nd + 0)%nat with nd in Hr by lia. fold rq o in Hr.
    destruct (runEvents_head c req n (a + 1) (S nd) (dr + draws (backoffEvents c))%nat)
      as (rest & Erest).
    exists [], (extra ++ closeEvents o ++ backoffEvents c ++ [EvSleep (backoffValue c a dr)]), rest.
    rewrite Eo, Erest. fold rq. repeat split.
    + simpl. now rewrite <- !app_assoc.
    + rewrite !attempts_app, Hextra, attempts_closeEvents, attempts_backoffEvents.
      reflexivity.
    + rewrite !closed_app, (closed_closeEvents o r Hr). now rewrite orb_true_r.
  - destruct (IH (a + 1) (S nd) (dr + draws (backoffEvents c))%nat j) as
      (pre & mid & post & E & Hpre & Hmid & Hcl).
    + lia.
    + replace (S nd + j)%nat with (nd + S j)%nat by lia.
      replace (a + 1 + Z.of_nat j) with (a + Z.of_nat (S j)) by lia. exact Hr.
    + exists (Do_events rq o ++ closeEvents o ++ backoffEvents c
              ++ [EvSleep (backoffValue c a dr)] ++ pre), mid, post.
      rewrite E.
      replace (a + 1 + Z.of_nat j) with (a + Z.of_nat (S j)) by lia.
      repeat split; try assumption.
      * now rewrite <- !app_assoc.
      * rewrite !attempts_app, attempts_Do_events, attempts_closeEvents,
          attempts_backoffEvents, Hpre. reflexivity.
Qed.

Lemma requests_Do_events (req : Request) (o : outcome) :
  requests (Do_events req o) = [req].
Proof. now destruct o. Qed.

Lemma requests_closeEvents (o : outcome) : requests (closeEvents o) = [].
Proof. unfold closeEvents. now destruct (Do_resp o). Qed.

Lemma requests_backoffEvents (c : Client) : requests (backoffEvents c) = [].
Proof. unfold backoffEvents. now destruct (0 <? Jitter (retryPolicy c))%float. Qed.

(** The requests of a run, in order: one per attempt. *)
Lemma requests_runEvents (c : Client) (req : Request) :
  forall (n : nat) (a : Z) (nd dr : nat),
    requests (runEvents c req n a nd dr)
    = map (fun i => attemptRequest req (a + Z.of_nat i)) (seq 0 (S n)).
Proof.
  induction n as [|n IH]; intros a nd dr; cbn [runEvents].
  - rewrite requests_app, requests_Do_events.
    replace (requests (if succeeded _ then [] else closeEvents _)) with (@nil Request)
      by (destruct (succeeded _); [reflexivity|now rewrite requests_closeEvents]).
    simpl. now replace (a + 0) with a by lia.
  - rewrite !requests_app, requests_Do_events, requests_closeEvents,
      requests_backoffEvents, IH.
    cbn [requests app]. change (seq 0 (S (S n))) with (0%nat :: seq 1 (S n)).
    cbn [map]. f_equal; [f_equal; lia|].
    rewrite <- seq_shift, map_map. apply map_ext. intros i. f_equal. lia.
Qed.

(** With a negative [MaxRetries] the loop body never runs. *)
Lemma doRequestWithRetry_negative (c : Client) (req : Request) (t : trace) :
  MaxRetries (retryPolicy c) < 0 ->
  doRequestWithRetry c req t = (Val (None, None), t).
Proof.
  intros H. unfold doRequestWithRetry.
  destruct (Z.to_nat (MaxRetries (retryPolicy c) + 1)) eqn:E; [|lia].
  simpl. destruct (Z.leb_spec 0 (MaxRetries (retryPolicy c))); [lia|reflexivity].
Qed.


(** ** The policy evaluator *)

(** C1 (as amended).  Without a transport error, [ShouldRetry] holds exactly
    for the status codes from 500 up other than 501, with no upper end, and
    for 429: so for 500, 502, 503 and 504, not for 501, and for no status
    below 500 other than 429 (every 2xx, 3xx and other 4xx). *)
Theorem ShouldRetry_status :
  (forall s : Z,
     ShouldRetry s None = true <-> (500 <= s /\ s <> 501) \/ s = 429)
  /\ ShouldRetry 500 None = true
  /\ ShouldRetry 502 None = true
  /\ ShouldRetry 503 None = true
  /\ ShouldRetry 504 None = true
  /\ ShouldRetry 501 None = false
  /\ (forall s : Z, s < 500 -> s <> 429 -> ShouldRetry s None = false).
Proof.
  assert (Hiff : forall s : Z,
             ShouldRetry s None = true <-> (500 <= s /\ s <> 501) \/ s = 429).
  { intros s. unfold ShouldRetry.
    destruct (Z.geb_spec s 500) as [Hge|Hlt];
      destruct (Z.eqb_spec s 501) as [H501|H501];
      destruct (Z.eqb_spec s 429) as [H429|H429]; simpl;
      split; intros H; try reflexivity; try discriminate; lia. }
  split; [exact Hiff|].
  repeat split; try reflexivity.
  intros s Hlt Hne.
  destruct (ShouldRetry s None) eqn:E; [|reflexivity].
  apply Hiff in E. lia.
Qed.

(** C1 as stated fails at the status 600: it is retried, and it is neither
    in 500..599 nor 429. *)
Lemma ShouldRetry_600_outside_5xx :
  ~ (ShouldRetry 600 None = true
     <-> (500 <= 600 <= 599 /\ 600 <> 501) \/ 600 = 429).
Proof.
  intros [Hretried _]. specialize (Hretried eq_refl). lia.
Qed.

(** [errors.Is] looks at the error, asks its [Is] method, and then goes on
    with what it unwraps to. *)
Lemma errors_Is_Unwrap (e : error) (target : sentinel) :
  errors_Is e target
  = is_sentinel target e || Is_method e target
    || match Unwrap e with
       | Some e' => errors_Is e' target
       | None => false
       end.
Proof. destruct e; reflexivity. Qed.

(** An error with a [context] sentinel in its chain is retried, whatever the
    status code. *)
Lemma ShouldRetry_deadline_or_canceled (s : Z) (e : error) :
  errors_Is e DeadlineExceeded = true \/ errors_Is e Canceled = true ->
  ShouldRetry s (Some e) = true.
Proof.
  intros [H|H]; unfold ShouldRetry; rewrite H; [reflexivity|].
  now rewrite orb_true_r.
Qed.

(** An error whose message is exactly one of the two texts is retried. *)
Lemma ShouldRetry_exact_message (s : Z) (e : error) :
  Error e = "connection refused" \/ Error e = "no such host" ->
  ShouldRetry s (Some e) = true.
Proof.
  intros [H|H]; unfold ShouldRetry; rewrite H; simpl;
    now rewrite ?orb_true_r.
Qed.

(** The message of a [*url.Error] has the quoted URL in it. *)
Lemma Error_url_Error_quoted (op url : string) (e : error) :
  Str.occurs (ascii_of_nat 34) (Error (url_Error op url e)) = true.
Proof.
  cbn [Error]. unfold Str.Quote, Str.dquote.
  rewrite !occurs_append. simpl. now rewrite !orb_true_r.
Qed.

Lemma quoted_message_differs (m text : string) :
  Str.occurs (ascii_of_nat 34) m = true ->
  Str.occurs (ascii_of_nat 34) text = false ->
  (m =? text)%string = false.
Proof.
  intros Hm Ht. destruct (String.eqb_spec m text) as [->|]; congruence.
Qed.

(** For the errors [httpClient.Do] returns, the two comparisons of the
    message never hold: only the [context] sentinels and the status code
    decide. *)
Lemma ShouldRetry_url_Error (s : Z) (op url : string) (e : error) :
  ShouldRetry s (Some (url_Error op url e))
  = errors_Is e DeadlineExceeded || errors_Is e Canceled
    || ((s >=? 500) && negb (s =? 501)) || (s =? 429).
Proof.
  unfold ShouldRetry.
  rewrite (quoted_message_differs _ "connection refused"
             (Error_url_Error_quoted op url e) eq_refl).
  rewrite (quoted_message_differs _ "no such host"
             (Error_url_Error_quoted op url e) eq_refl).
  cbn [errors_Is is_sentinel Is_method orb].
  destruct (errors_Is e DeadlineExceeded), (errors_Is e Canceled); simpl;
    try reflexivity.
  destruct ((s >=? 500) && negb (s =? 501)); simpl; [reflexivity|].
  now destruct (s =? 429).
Qed.


(** ** The executor *)

(** C6.  When the outcome of attempt [k] is not to be retried, or [k] is the
    last attempt the policy allows, and every attempt before [k] was retried,
    [doRequestWithRetry] stops there: it returns the response and the error
    that [httpClient.Do] gave for attempt [k], as they are, after [k + 1]
    exchanges and [k] sleeps, and it reads no body.  A 501 on the first
    attempt is returned after one exchange and no sleep.  Every run under a
    policy with [MaxRetries >= 0] has such a [k]. *)
Theorem doRequestWithRetry_returns_last_outcome :
  (forall (c : Client) (req : Request) (t : trace) (k : nat),
     Z.of_nat k <= MaxRetries (retryPolicy c) ->
     (forall i, (i < k)%nat ->
        retryable (attemptRequest req (Z.of_nat i)) (outcomeAt t req i) = true) ->
     (retryable (attemptRequest req (Z.of_nat k)) (outcomeAt t req k) = false
      \/ Z.of_nat k = MaxRetries (retryPolicy c)) ->
     exists l : trace,
       doRequestWithRetry c req t
       = (Val (Do_resp (outcomeAt t req k),
               Do_err (attemptRequest req (Z.of_nat k)) (outcomeAt t req k)),
          t ++ l)
       /\ attempts l = (k + 1)%nat
       /\ List.length (sleeps l) = k
       /\ reads l = 0%nat)
  /\ (forall (c : Client) (req : Request) (t : trace) (r : http_Response),
        0 <= MaxRetries (retryPolicy c) ->
        outcomeAt t req 0 = Responded r ->
        StatusCode r = 501 ->
        exists l : trace,
          doRequestWithRetry c req t = (Val (Some r, None), t ++ l)
          /\ attempts l = 1%nat
          /\ sleeps l = []
          /\ reads l = 0%nat)
  /\ (forall (c : Client) (req : Request) (t : trace),
        0 <= MaxRetries (retryPolicy c) ->
        exists k : nat,
          Z.of_nat k <= MaxRetries (retryPolicy c)
          /\ (forall i, (i < k)%nat ->
                retryable (attemptRequest req (Z.of_nat i)) (outcomeAt t req i) = true)
          /\ (retryable (attemptRequest req (Z.of_nat k)) (outcomeAt t req k) = false
              \/ Z.of_nat k = MaxRetries (retryPolicy c))).
Proof.
  split; [|split].
  - intros c req t k Hk Hretry Hstop.
    destruct (doRequestWithRetry_run c req t k Hk Hretry Hstop)
      as (l & Hres & Hatt & Hslp & Hreads & _).
    exists l. repeat split; try assumption.
    rewrite Hslp, length_map. apply length_seq.
  - intros c req t r Hmax Hout Hstatus.
    destruct (doRequestWithRetry_run c req t 0) as (l & Hres & Hatt & Hslp & Hreads & _).
    + simpl. exact Hmax.
    + intros i Hi. lia.
    + left. rewrite Hout. unfold retryable, succeeded, statusOf. simpl.
      now rewrite Hstatus.
    + rewrite Hout in Hres. simpl in Hres.
      exists l. repeat split; assumption.
  - intros c req t Hmax.
    destruct (first_stop
                (fun i => retryable (attemptRequest req (Z.of_nat i)) (outcomeAt t req i))
                (Z.to_nat (MaxRetries (retryPolicy c))))
      as (k & Hk & Hall & Hstop).
    exists k. split; [lia|]. split; [exact Hall|].
    destruct Hstop as [Hf|Hm]; [now left|right; lia].
Qed.

(** For a policy with [MaxRetries >= 0] the executor returns, after at least
    one and at most [MaxRetries + 1] exchanges, with one sleep between two
    exchanges, and without a read. *)
Theorem doRequestWithRetry_terminates (c : Client) (req : Request) (t : trace) :
  0 <= MaxRetries (retryPolicy c) ->
  exists (r : option http_Response * option error) (l : trace),
    doRequestWithRetry c req t = (Val r, t ++ l)
    /\ (1 <= attempts l <= Z.to_nat (MaxRetries (retryPolicy c)) + 1)%nat
    /\ List.length (sleeps l) = (attempts l - 1)%nat
    /\ reads l = 0%nat.
Proof.
  intros Hmax.
  destruct (first_stop
              (fun i => retryable (attemptRequest req (Z.of_nat i)) (outcomeAt t req i))
              (Z.to_nat (MaxRetries (retryPolicy c))))
    as (k & Hk & Hall & Hstop).
  destruct (doRequestWithRetry_run c req t k) as (l & Hres & Hatt & Hslp & Hreads & _).
  - lia.
  - exact Hall.
  - destruct Hstop as [Hf|Hm]; [now left|right; lia].
  - eexists; exists l. split; [exact Hres|].
    repeat split; try lia.
    rewrite Hslp, length_map, length_seq. lia.
Qed.

(** With [MaxRetries = 0], a 429 on the first attempt is returned at once:
    one exchange, no sleep. *)
Theorem doRequestWithRetry_429_no_retries (c : Client) (req : Request)
    (t : trace) (r : http_Response) :
  MaxRetries (retryPolicy c) = 0 ->
  outcomeAt t req 0 = Responded r ->
  StatusCode r = 429 ->
  exists l : trace,
    doRequestWithRetry c req t = (Val (Some r, None), t ++ l)
    /\ attempts l = 1%nat /\ sleeps l = [].
Proof.
  intros Hmax Hout Hstatus.
  destruct (doRequestWithRetry_run c req t 0) as (l & Hres & Hatt & Hslp & _).
  - simpl. lia.
  - intros i Hi. lia.
  - right. simpl. now rewrite Hmax.
  - rewrite Hout in Hres. simpl in Hres. exists l. now repeat split.
Qed.

(** A response that [doRequestWithRetry] returns other than by its first
    exit (with an error, or with a status from 500 up or 429) has its body
    closed by the loop before the return. *)
Theorem doRequestWithRetry_closes_returned_body (c : Client) (req : Request)
    (t t' : trace) (r : http_Response) (e : option error) :
  0 <= MaxRetries (retryPolicy c) ->
  doRequestWithRetry c req t = (Val (Some r, e), t') ->
  e <> None \/ 500 <= StatusCode r \/ StatusCode r = 429 ->
  closed (body_id (Body r)) t' = true.
Proof.
  intros Hmax Hrun Hfailed.
  destruct (first_stop
              (fun i => retryable (attemptRequest req (Z.of_nat i)) (outcomeAt t req i))
              (Z.to_nat (MaxRetries (retryPolicy c))))
    as (k & Hk & Hall & Hstop).
  destruct (doRequestWithRetry_run c req t k) as (l & Hres & _ & _ & _ & Hclosed & _).
  - lia.
  - exact Hall.
  - destruct Hstop as [Hf|Hm]; [now left|right; lia].
  - rewrite Hrun in Hres. injection Hres as Hr He Ht. subst t'.
    rewrite closed_app, (Hclosed); [apply orb_true_r| |now symmetry].
    destruct (outcomeAt t req k) as [r'|e'|r' e']; simpl in *; try reflexivity.
    injection Hr as ->.
    destruct Hfailed as [Hne|[H500|H429]]; [congruence| |].
    + destruct (Z.ltb_spec (StatusCode r') 500); [lia|reflexivity].
    + rewrite H429. reflexivity.
Qed.

(** The body of the response of every attempt that is retried is closed
    before the next exchange: in the trace of the run, between the exchange
    of attempt [j] and the exchange of attempt [j + 1] there is the close of
    that body, and no other exchange. *)
Theorem doRequestWithRetry_closes_retried_bodies (c : Client) (req : Request)
    (t : trace) (k j : nat) (r : http_Response) :
  Z.of_nat k <= MaxRetries (retryPolicy c) ->
  (forall i, (i < k)%nat ->
     retryable (attemptRequest req (Z.of_nat i)) (outcomeAt t req i) = true) ->
  (retryable (attemptRequest req (Z.of_nat k)) (outcomeAt t req k) = false
   \/ Z.of_nat k = MaxRetries (retryPolicy c)) ->
  (j < k)%nat ->
  Do_resp (outcomeAt t req j) = Some r ->
  exists pre mid post : list event,
    snd (doRequestWithRetry c req t)
    = t ++ pre ++ EvDo (attemptRequest req (Z.of_nat j))
          :: mid ++ EvDo (attemptRequest req (Z.of_nat j + 1)) :: post
    /\ attempts pre = j
    /\ attempts mid = 0%nat
    /\ closed (body_id (Body r)) mid = true.
Proof.
  intros Hk Hretry Hstop Hj Hr.
  destruct (doRequestWithRetry_run c req t k Hk Hretry Hstop)
    as (l & Hres & _ & _ & _ & _ & _ & Hev).
  destruct (runEvents_closes_retried c req r k 0 (attempts t) (draws t) j Hj Hr)
    as (pre & mid & post & E & Hpre & Hmid & Hcl).
  exists pre, mid, post. rewrite Hres. cbn [snd]. rewrite Hev, E.
  now repeat split.
Qed.

Lemma Request_Clone_id (req : Request) : Request_Clone req = req.
Proof. now destruct req. Qed.

Lemma attemptRequest_0 (req : Request) : attemptRequest req 0 = req.
Proof. unfold attemptRequest, loopRequest. cbn. apply Request_Clone_id. Qed.

Lemma sharedRequest_fields (req : Request) (n : nat) :
  Method (sharedRequest req n) = Method req
  /\ URL (sharedRequest req n) = URL req
  /\ Req_Header (sharedRequest req n) = Req_Header req.
Proof. induction n as [|n IH]; [now repeat split|exact IH]. Qed.

(** The request of a retry: the header of the attempt, and what the exchange
    before has left of the body. *)
Lemma attemptRequest_succ (req : Request) (i : nat) :
  attemptRequest req (Z.of_nat (S i))
  = {| Method := Method req; URL := URL req;
       Req_Header := Header_Set (Req_Header req) "X-Retry-Attempt"
                       (Str.itoa (Z.of_nat (S i)));
       Req_Body := body_left (attemptRequest req (Z.of_nat i)) |}.
Proof.
  unfold attemptRequest at 1. rewrite Nat2Z.id. unfold loopRequest.
  replace (Z.of_nat (S i) >? 0) with true by (symmetry; apply Z.gtb_lt; lia).
  destruct (sharedRequest_fields req (S i)) as (Hm & Hu & Hh).
  unfold Request_Header_Set, Request_Clone. cbn [Method URL Req_Header Req_Body].
  rewrite Hm, Hu, Hh. cbn [sharedRequest Request_rest Req_Body].
  unfold attemptRequest. now rewrite Nat2Z.id.
Qed.

(** The requests of a run.  The first attempt hands [httpClient.Do] the
    request as it was built.  Each later attempt [i] hands it a clone with
    the header [X-Retry-Attempt] set to the decimal [i] and with the body
    reader it shares with the request, which nothing rewinds: a retry
    carries the method, the URL and the headers of the request, and of its
    body what the exchange before has left unread.  When the transport
    reads the whole body of each request it is handed, every retry carries
    an empty body. *)
Theorem doRequestWithRetry_requests (c : Client) (req : Request)
    (t : trace) (k : nat) :
  Z.of_nat k <= MaxRetries (retryPolicy c) ->
  (forall i, (i < k)%nat ->
     retryable (attemptRequest req (Z.of_nat i)) (outcomeAt t req i) = true) ->
  (retryable (attemptRequest req (Z.of_nat k)) (outcomeAt t req k) = false
   \/ Z.of_nat k = MaxRetries (retryPolicy c)) ->
  let sent (i : nat) : Request := attemptRequest req (Z.of_nat i) in
  requests (snd (doRequestWithRetry c req t))
  = requests t ++ map sent (seq 0 (S k))
  /\ sent 0%nat = req
  /\ (forall i : nat,
        sent (S i)
        = {| Method := Method req; URL := URL req;
             Req_Header := Header_Set (Req_Header req) "X-Retry-Attempt"
                             (Str.itoa (Z.of_nat (S i)));
             Req_Body := body_left (sent i) |})
  /\ ((forall r : Request, body_left r = "") ->
      requests (snd (doRequestWithRetry c req t))
      = requests t
        ++ map (fun i =>
                  if (0 <? i)%nat
                  then {| Method := Method req; URL := URL req;
                          Req_Header := Header_Set (Req_Header req) "X-Retry-Attempt"
                                          (Str.itoa (Z.of_nat i));
                          Req_Body := "" |}
                  else req)
               (seq 0 (S k))).
Proof.
  intros Hk Hretry Hstop sent.
  destruct (doRequestWithRetry_run c req t k Hk Hretry Hstop)
    as (l & Hres & _ & _ & _ & _ & _ & Hev).
  assert (Hreq : requests (snd (doRequestWithRetry c req t))
                 = requests t ++ map sent (seq 0 (S k))).
  { rewrite Hres. cbn [snd]. rewrite requests_app, Hev, requests_runEvents.
    f_equal. }
  assert (H0 : sent 0%nat = req) by apply attemptRequest_0.
  split; [exact Hreq|]. split; [exact H0|].
  split; [intros i; apply attemptRequest_succ|].
  intros Hall. rewrite Hreq. f_equal. apply map_ext. intros [|i].
  - exact H0.
  - unfold sent. rewrite attemptRequest_succ, Hall. reflexivity.
Qed.

(** A transport failure for whose cause [errors.Is] finds neither [context]
    sentinel, in its chain or through an [Is] method (a refused connection,
    an unknown host; not a timeout, which says it is
    [context.DeadlineExceeded]), ends the run at the first attempt: one
    exchange, no sleep, whatever the policy allows.  The error returned is
    the [*url.Error] of that attempt, with the URL as [net/http] prints
    it. *)
Theorem doRequestWithRetry_transport_failure_not_retried (c : Client)
    (req : Request) (t : trace) (e : error) :
  0 <= MaxRetries (retryPolicy c) ->
  outcomeAt t req 0 = Failed e ->
  errors_Is e DeadlineExceeded = false ->
  errors_Is e Canceled = false ->
  exists l : trace,
    doRequestWithRetry c req t
    = (Val (None,
            Some (url_Error (urlErrorOp (Method req))
                    (url_stripPassword (URL req)) e)), t ++ l)
    /\ attempts l = 1%nat /\ sleeps l = [].
Proof.
  intros Hmax Hout Hd Hc.
  destruct (doRequestWithRetry_run c req t 0) as (l & Hres & Hatt & Hslp & _).
  - simpl. lia.
  - intros i Hi. lia.
  - left. rewrite Hout. unfold retryable, statusOf. cbn [succeeded negb andb Do_resp Do_err].
    rewrite ShouldRetry_url_Error, Hd, Hc. reflexivity.
  - rewrite Hout in Hres. simpl in Hres. exists l. now repeat split.
Qed.


(** *** Scenario A *)

(** Under the policy of scenario A, the backoff of an attempt follows from
    the power [math.Pow] gives for it. *)
Lemma scenarioA_backoff (c : Client) (a : Z) (n : nat) (x pw : float) (d : Duration) :
  retryPolicy c = scenarioA_policy ->
  float64_of_int a = x ->
  math_Pow 2 x = pw ->
  Duration_of_float64
    (let backoff := (float64_of_int (100 * Millisecond) * pw)%float in
     if (float64_of_int (10 * Second) <? backoff)%float
     then float64_of_int (10 * Second) else backoff) = d ->
  backoffValue c a n = d.
Proof.
  intros Hpol Hx Hpw Hd. unfold backoffValue. rewrite Hpol.
  cbn [InitialBackoff MaxBackoff BackoffFactor Jitter scenarioA_policy].
  rewrite Hx, Hpw.
  change (0 <? 0)%float with false. cbv iota. exact Hd.
Qed.

(** C2.  Scenario A: under the policy (3 retries, 100ms, factor 2, cap 10s,
    no jitter), when the server answers 503 to the attempts 0, 1 and 2 and
    200 to attempt 3, [doRequestWithRetry] returns the 200 response and no
    error, after four exchanges and three sleeps, of 100ms, 200ms and 400ms
    in that order.  [math.Pow] is taken to be exact on 2^0, 2^1 and 2^2. *)
Theorem doRequestWithRetry_scenario_A (c : Client) (req : Request) (t : trace)
    (r0 r1 r2 r3 : http_Response) :
  retryPolicy c = scenarioA_policy ->
  math_Pow 2 0 = 1%float ->
  math_Pow 2 1 = 2%float ->
  math_Pow 2 2 = 4%float ->
  outcomeAt t req 0 = Responded r0 -> StatusCode r0 = 503 ->
  outcomeAt t req 1 = Responded r1 -> StatusCode r1 = 503 ->
  outcomeAt t req 2 = Responded r2 -> StatusCode r2 = 503 ->
  outcomeAt t req 3 = Responded r3 -> StatusCode r3 = 200 ->
  exists l : trace,
    doRequestWithRetry c req t = (Val (Some r3, None), t ++ l)
    /\ attempts l = 4%nat
    /\ sleeps l = [100 * Millisecond; 200 * Millisecond; 400 * Millisecond].
Proof.
  intros Hpol Hp0 Hp1 Hp2 H0 S0 H1 S1 H2 S2 H3 S3.
  destruct (doRequestWithRetry_run c req t 3) as (l & Hres & Hatt & Hslp & _).
  - rewrite Hpol. simpl. lia.
  - intros i Hi.
    assert (Hcase : i = 0%nat \/ i = 1%nat \/ i = 2%nat) by lia.
    destruct Hcase as [-> | [-> | ->]];
      [rewrite H0|rewrite H1|rewrite H2];
      unfold retryable, statusOf; cbn [succeeded Do_resp Do_err];
      [rewrite S0|rewrite S1|rewrite S2]; reflexivity.
  - right. rewrite Hpol. reflexivity.
  - rewrite H3 in Hres. cbn [Do_resp Do_err] in Hres.
    exists l. split; [exact Hres|]. split; [exact Hatt|].
    rewrite Hslp. cbn [seq map Z.of_nat Pos.of_succ_nat Pos.succ Z.add].
    rewrite (scenarioA_backoff c 0 _ 0%float 1%float (100 * Millisecond) Hpol
               eq_refl Hp0 eq_refl).
    rewrite (scenarioA_backoff c 1 _ 1%float 2%float (200 * Millisecond) Hpol
               eq_refl Hp1 eq_refl).
    rewrite (scenarioA_backoff c 2 _ 2%float 4%float (400 * Millisecond) Hpol
               eq_refl Hp2 eq_refl).
    reflexivity.
Qed.


(** ** The CRUD layer *)

Lemma local_ret {A : Type} (a : A) : local (ret a).
Proof. intros t. exists []. now rewrite app_nil_r. Qed.

Lemma local_panic {A : Type} (msg : string) : local (@panic A msg).
Proof. intros t. exists []. now rewrite app_nil_r. Qed.

Lemma local_bind {A B : Type} (m : M A) (k : A -> M B) :
  local m -> (forall a, local (k a)) -> local (bind m k).
Proof.
  intros Hm Hk t. unfold bind.
  destruct (Hm t) as (l1 & E1 & A1 & S1).
  destruct (m t) as [[a|msg|] t1]; simpl in E1; subst t1.
  - destruct (Hk a (t ++ l1)) as (l2 & E2 & A2 & S2).
    exists (l1 ++ l2). rewrite E2, app_assoc, attempts_app, sleeps_app, A1, A2, S1, S2.
    now repeat split.
  - now exists l1.
  - now exists l1.
Qed.

Lemma local_log_Printf (line : string) : local (log_Printf line).
Proof. intros t. now exists [EvLog line]. Qed.

Lemma local_io_ReadAll (b : ReadCloser) : local (io_ReadAll b).
Proof. intros t. now exists [EvRead (body_id b)]. Qed.

Lemma local_defer_Close {A : Type} (r : http_Response) (rest : M A) :
  local rest -> local (defer_Close r rest).
Proof.
  intros H t. unfold defer_Close.
  destruct (H t) as (l & E & At & Sl).
  destruct (rest t) as [x t']; simpl in *; subst t'.
  exists (l ++ [EvClose (body_id (Body r))]).
  rewrite app_assoc, attempts_app, sleeps_app, At, Sl. now repeat split.
Qed.

Lemma sends_through_ret {A : Type}
    (send : Request -> M (option http_Response * option error))
    (c : Client) (path : string) (a : A) :
  sends_through send c path (ret a).
Proof. intros t. now left. Qed.

Lemma sends_through_panic {A : Type}
    (send : Request -> M (option http_Response * option error))
    (c : Client) (path : string) (msg : string) :
  sends_through send c path (@panic A msg).
Proof. intros t. now left. Qed.

Lemma sends_through_bind {A : Type}
    (send : Request -> M (option http_Response * option error))
    (c : Client) (path body : string)
    (k : option http_Response * option error -> M A) :
  (forall x, local (k x)) ->
  sends_through send c path (bind (send (postJSON c path body)) k).
Proof.
  intros Hk t. right. exists body. unfold bind.
  destruct (send (postJSON c path body) t) as [[x|msg|] t1]; simpl.
  - destruct (Hk x t1) as (l & E & At & Sl). now exists l.
  - exists []. now rewrite app_nil_r.
  - exists []. now rewrite app_nil_r.
Qed.

Ltac local_step :=
  first
    [ apply local_ret
    | apply local_panic
    | apply local_log_Printf
    | apply local_io_ReadAll
    | apply local_defer_Close
    | apply local_bind; [|intros ?]
    | match goal with
      | |- local (match ?x with _ => _ end) => destruct x
      end ].

Ltac sends_through_op op :=
  intros c input; unfold op, http_NewRequest;
  destruct (json_Marshal _) as [body [e|]]; [apply sends_through_ret|];
  destruct (url_Parse_err _); [apply sends_through_ret|];
  apply sends_through_bind; intros ?; repeat local_step.




Lemma CreateInfoRequest_through_executor :
  forall c input, sends_through (doRequestWithRetry c) c "/gdpr?action=create"
      (CreateInfoRequest c input).
Proof. sends_through_op CreateInfoRequest. Qed.

Lemma CreateDeleteRequest_through_executor :
  forall c input, sends_through (doRequestWithRetry c) c "/gdpr?controller=delete&action=create"
      (CreateDeleteRequest c input).
Proof. sends_through_op CreateDeleteRequest. Qed.

Lemma FetchInfoRequest_through_executor :
  forall c input, sends_through (doRequestWithRetry c) c "/gdpr?action=fetch"
      (FetchInfoRequest c input).
Proof. sends_through_op FetchInfoRequest. Qed.

Lemma UpdateInfoRequest_through_executor :
  forall c input, sends_through (doRequestWithRetry c) c "/gdpr?action=update"
      (UpdateInfoRequest c input).
Proof. sends_through_op UpdateInfoRequest. Qed.

Lemma DeleteInfoRequest_through_executor :
  forall c input, sends_through (doRequestWithRetry c) c "/gdpr?action=delete"
      (DeleteInfoRequest c input).
Proof. sends_through_op DeleteInfoRequest. Qed.

Lemma DeleteRequest_through_executor :
  forall c input, sends_through (doRequestWithRetry c) c "/gdpr?controller=delete&action=delete"
      (DeleteRequest_ c input).
Proof. sends_through_op DeleteRequest_. Qed.

Lemma FetchAllInfoRequests_through_executor :
  forall c input, sends_through (doRequestWithRetry c) c "/gdpr?action=fetchAll"
      (FetchAllInfoRequests c input).
Proof. sends_through_op FetchAllInfoRequests. Qed.

Lemma FetchInfoRequestsByType_through_executor :
  forall c input, sends_through (doRequestWithRetry c) c "/gdpr?action=fetchByType"
      (FetchInfoRequestsByType c input).
Proof. sends_through_op FetchInfoRequestsByType. Qed.

Lemma FetchDeleteRequestsByStatus_through_executor :
  forall c input, sends_through (doRequestWithRetry c) c "/gdpr?controller=delete&action=fetchByStatus"
      (FetchDeleteRequestsByStatus c input).
Proof. sends_through_op FetchDeleteRequestsByStatus. Qed.

Lemma FetchRequestsByCreator_through_executor :
  forall c input, sends_through (doRequestWithRetry c) c "/gdpr?action=fetchByCreator"
      (FetchRequestsByCreator c input).
Proof. sends_through_op FetchRequestsByCreator. Qed.

Lemma FetchDeleteRequestsByCreator_through_executor :
  forall c input, sends_through (doRequestWithRetry c) c "/gdpr?controller=delete&action=fetchByCreator"
      (FetchDeleteRequestsByCreator c input).
Proof. sends_through_op FetchDeleteRequestsByCreator. Qed.




(** C10.  When the executor hands [CreateInfoRequest] a response with status
    200 whose body is read in full, and [json.Unmarshal] fails on the bytes
    read, [CreateInfoRequest] still returns the [InfoRequest] as the failed
    decoding left it, and a nil error: the branch for the decoding error
    tests the error variable of [io.ReadAll], which is nil there. *)
Theorem CreateInfoRequest_swallows_unmarshal_error (c : Client)
    (input : CreateInfoRequestInput) (t t1 : trace) (body data : string)
    (resp : http_Response) (infoRequest : InfoRequest) (jsonErr : error) :
  json_Marshal (default_cii_ApiKey c input) = (body, None) ->
  url_Parse_err (baseURL c ++ "/gdpr?action=create")%string = None ->
  doRequestWithRetry c (postJSON c "/gdpr?action=create" body) t
  = (Val (Some resp, None), t1) ->
  StatusCode resp = 200 ->
  closed (body_id (Body resp)) t1 = false ->
  was_read (body_id (Body resp)) t1 = false ->
  body_bytes (Body resp) = data ->
  body_err (Body resp) = None ->
  json_Unmarshal data zero_InfoRequest = (infoRequest, Some jsonErr) ->
  CreateInfoRequest c input t
  = (Val (Some infoRequest, None),
     t1 ++ [EvRead (body_id (Body resp));
            EvLog ("GDPRClientLibrary.CreateInfo - Response Body: " ++ data)%string;
            EvClose (body_id (Body resp))]).
Proof.
  intros Hmarshal Hurl Hrun Hstatus Hclosed Hread Hbytes Herr Hjson.
  unfold postJSON in Hrun.
  unfold CreateInfoRequest, http_NewRequest.
  rewrite Hmarshal, Hurl.
  unfold bind at 1. rewrite Hrun.
  unfold defer_Close, bind, io_ReadAll, log_Printf, emit, ret.
  rewrite Hclosed, Hread, Hbytes, Herr, Hstatus.
  cbn [negb Z.eqb Pos.eqb]. rewrite Hjson.
  now rewrite <- !app_assoc.
Qed.

(** ** The conversions between [time.Duration] and [float64] *)

Lemma digits2_pos_iter_xO (m k : positive) :
  digits2_pos (Pos.iter xO m k) = (digits2_pos m + k)%positive.
Proof.
  revert m. induction k using Pos.peano_ind; intros m.
  - simpl. lia.
  - rewrite Pos.iter_succ. simpl. rewrite IHk. lia.
Qed.

Lemma Zpos_iter_xO (m k : positive) :
  Zpos (Pos.iter xO m k) = Zpos m * 2 ^ Zpos k.
Proof.
  induction k using Pos.peano_ind.
  - simpl. lia.
  - rewrite Pos.iter_succ.
    change (Zpos (Pos.iter xO m k)~0) with (2 * Zpos (Pos.iter xO m k)).
    rewrite IHk, Pos2Z.inj_succ, Z.pow_succ_r by lia. lia.
Qed.

(** A positive number of [d] binary digits lies in [[2^(d-1), 2^d)]. *)
Lemma digits2_pos_bounds (m : positive) :
  2 ^ (Zpos (digits2_pos m) - 1) <= Zpos m < 2 ^ Zpos (digits2_pos m).
Proof.
  induction m as [m IH|m IH|]; simpl digits2_pos; [| |simpl; lia].
  - rewrite Pos2Z.inj_succ. change (Zpos m~1) with (2 * Zpos m + 1).
    replace (Z.succ (Zpos (digits2_pos m)) - 1)
      with (Z.succ (Zpos (digits2_pos m) - 1)) by lia.
    rewrite !Z.pow_succ_r by lia.
    set (p := 2 ^ (Zpos (digits2_pos m) - 1)) in *.
    set (q := 2 ^ Zpos (digits2_pos m)) in *. clearbody p q. lia.
  - rewrite Pos2Z.inj_succ. change (Zpos m~0) with (2 * Zpos m).
    replace (Z.succ (Zpos (digits2_pos m)) - 1)
      with (Z.succ (Zpos (digits2_pos m) - 1)) by lia.
    rewrite !Z.pow_succ_r by lia.
    set (p := 2 ^ (Zpos (digits2_pos m) - 1)) in *.
    set (q := 2 ^ Zpos (digits2_pos m)) in *. clearbody p q. lia.
Qed.

Lemma digits2_pos_53 (m : positive) :
  Zpos m < 2 ^ 53 -> Zpos (digits2_pos m) <= 53.
Proof.
  intros H. pose proof (proj1 (digits2_pos_bounds m)) as L.
  destruct (Z_le_gt_dec (Zpos (digits2_pos m)) 53) as [|G]; [assumption|].
  exfalso.
  assert (2 ^ 53 <= 2 ^ (Zpos (digits2_pos m) - 1))
    by (apply Z.pow_le_mono_r; lia).
  lia.
Qed.

(** Rounding leaves a mantissa that is in canonical form as it is. *)
Lemma binary_round_aux_canonical (s : bool) (m : positive) (e : Z) :
  canonical_mantissa prec emax m e = true ->
  e <= emax - prec ->
  binary_round_aux prec emax s (Zpos m) e loc_Exact = S754_finite s m e.
Proof.
  unfold canonical_mantissa. intros Hc He.
  apply Z.eqb_eq in Hc.
  unfold binary_round_aux, shr_fexp, Zdigits2.
  rewrite Hc, Z.sub_diag.
  cbn [shr shr_record_of_loc shr_m loc_of_shr_record shr_r shr_s round_nearest_even].
  rewrite Hc, Z.sub_diag. cbn [shr shr_record_of_loc shr_m].
  apply Z.leb_le in He. now rewrite He.
Qed.

(** An integer below [2^53] is a binary64: [float64(m)] is exact. *)
Lemma binary_round_exact (s : bool) (m : positive) :
  Zpos m < 2 ^ 53 ->
  exists (m' : positive) (e' : Z),
    binary_round prec emax s m 0 = S754_finite s m' e'
    /\ valid_binary (S754_finite s m' e') = true
    /\ e' <= 0 /\ Zpos m' = Zpos m * 2 ^ (- e').
Proof.
  intros H. pose proof (digits2_pos_53 m H) as Hd.
  assert (Hfexp : fexp prec emax (Zpos (digits2_pos m) + 0)
                  = Zpos (digits2_pos m) - 53).
  { unfold fexp, SpecFloat.emin, prec, emax. lia. }
  unfold binary_round, shl_align. rewrite Hfexp, Z.sub_0_r.
  destruct (Zpos (digits2_pos m) - 53) as [|p|p] eqn:E; [|lia|].
  - exists m, 0.
    assert (Hc : canonical_mantissa prec emax m 0 = true).
    { unfold canonical_mantissa. rewrite Hfexp. reflexivity. }
    split; [apply binary_round_aux_canonical; [exact Hc | unfold emax, prec; lia]|].
    split; [|split; [lia | simpl; lia]].
    unfold SpecFloat.valid_binary, bounded. rewrite Hc. reflexivity.
  - exists (Pos.iter xO m p), (Zneg p).
    assert (Hc : canonical_mantissa prec emax (Pos.iter xO m p) (Zneg p) = true).
    { unfold canonical_mantissa. rewrite digits2_pos_iter_xO.
      apply Z.eqb_eq. unfold fexp, SpecFloat.emin, prec, emax. lia. }
    split; [apply binary_round_aux_canonical; [exact Hc | unfold emax, prec; lia]|].
    split; [|split; [lia | apply Zpos_iter_xO]].
    unfold SpecFloat.valid_binary, bounded. rewrite Hc.
    apply Z.leb_le. unfold emax, prec. lia.
Qed.

Lemma float64_trunc_of_int (z : Z) :
  - 2 ^ 53 < z < 2 ^ 53 ->
  float64_trunc (float64_of_int z) = Some z.
Proof.
  intros H. unfold float64_trunc, float64_of_int, binary_normalize.
  destruct z as [|m|m].
  - rewrite Prim2SF_SF2Prim by reflexivity. reflexivity.
  - destruct (binary_round_exact false m) as (m' & e' & -> & Hv & He & Hm); [lia|].
    rewrite Prim2SF_SF2Prim by exact Hv. cbv zeta.
    destruct (0 <=? e') eqn:E0.
    + apply Z.leb_le in E0. assert (e' = 0) by lia. subst e'.
      simpl in Hm. rewrite Hm. simpl. f_equal. lia.
    + rewrite Hm, Z.div_mul; [reflexivity|]. apply Z.pow_nonzero; lia.
  - destruct (binary_round_exact true m) as (m' & e' & -> & Hv & He & Hm); [lia|].
    rewrite Prim2SF_SF2Prim by exact Hv. cbv zeta.
    destruct (0 <=? e') eqn:E0.
    + apply Z.leb_le in E0. assert (e' = 0) by lia. subst e'.
      simpl in Hm. rewrite Hm. simpl. f_equal. lia.
    + rewrite Hm, Z.div_mul; [reflexivity|]. apply Z.pow_nonzero; lia.
Qed.

Lemma Duration_of_float64_of_int (z : Z) :
  - 2 ^ 53 < z < 2 ^ 53 ->
  Duration_of_float64 (float64_of_int z) = z.
Proof.
  intros H. unfold Duration_of_float64. rewrite float64_trunc_of_int by exact H.
  destruct (Z.leb_spec (- 2 ^ 63) z); [|lia].
  destruct (Z.ltb_spec z (2 ^ 63)); [reflexivity|lia].
Qed.

(** A binary64 that is not negative and not above [float64(z)] truncates to
    an integer between 0 and [z]. *)
Lemma float64_trunc_within (z : Z) (b : float) :
  0 <= z < 2 ^ 53 ->
  (0 <=? b)%float = true ->
  (float64_of_int z <? b)%float = false ->
  exists d : Z, float64_trunc b = Some d /\ 0 <= d <= z.
Proof.
  intros Hz Hpos Hcap.
  rewrite leb_spec in Hpos. rewrite ltb_spec in Hcap.
  pose proof (Prim2SF_valid b) as Hvb.
  unfold float64_trunc.
  change (Prim2SF 0) with (S754_zero false) in Hpos.
  unfold float64_of_int, binary_normalize in Hcap.
  destruct (Prim2SF b) as [sb|sb| |sb m e].
  - exists 0. split; [reflexivity|lia].
  - exfalso. destruct sb; [discriminate Hpos|].
    destruct z as [|mz|mz]; [| |lia].
    + rewrite Prim2SF_SF2Prim in Hcap by reflexivity. discriminate Hcap.
    + destruct (binary_round_exact false mz) as (m' & e' & Hr & Hv & _); [lia|].
      rewrite Hr, Prim2SF_SF2Prim in Hcap by exact Hv. discriminate Hcap.
  - discriminate Hpos.
  - destruct sb; [discriminate Hpos|].
    destruct z as [|mz|mz]; [| |lia].
    { rewrite Prim2SF_SF2Prim in Hcap by reflexivity. discriminate Hcap. }
    destruct (binary_round_exact false mz) as (m' & e' & Hr & Hv & He' & Hm'); [lia|].
    rewrite Hr, Prim2SF_SF2Prim in Hcap by exact Hv.
    unfold SFltb, SFcompare in Hcap.
    (* the two mantissas are canonical *)
    unfold SpecFloat.valid_binary, bounded in Hvb, Hv.
    apply andb_prop in Hvb as [Hcb _]. apply andb_prop in Hv as [Hcz _].
    unfold canonical_mantissa, fexp, SpecFloat.emin, prec, emax in Hcb, Hcz.
    apply Z.eqb_eq in Hcb. apply Z.eqb_eq in Hcz.
    pose proof (digits2_pos_bounds m) as Bm.
    pose proof (digits2_pos_bounds m') as Bm'.
    assert (Hpow : 0 < 2 ^ (- e')) by (apply Z.pow_pos_nonneg; lia).
    cbv zeta.
    destruct (Z.compare_spec e' e) as [Heq|Hlt|Hgt]; [|discriminate Hcap|].
    + (* the same exponent: the mantissas are in order *)
      change (PosDef.Pos.compare_cont Eq m' m) with (Pos.compare m' m) in Hcap.
      assert (Hle : Zpos m <= Zpos m').
      { destruct (Pos.compare_spec m' m) as [->|Hlt|Hgt];
          [lia | discriminate Hcap | lia]. }
      subst e'.
      destruct (Z.leb_spec 0 e) as [H0|H0].
      * assert (e = 0) by lia. subst e. simpl in Hm' |- *.
        exists (Zpos m * 1). split; [reflexivity|lia].
      * exists (Zpos m / 2 ^ (- e)). split; [reflexivity|].
        split; [apply Z.div_pos; lia|].
        rewrite <- (Z.div_mul (Zpos mz) (2 ^ (- e))) by lia.
        rewrite <- Hm'. apply Z.div_le_mono; lia.
    + (* a smaller exponent: the mantissa of [z] has 53 digits *)
      assert (Hdb : Zpos (digits2_pos m) <= 53) by lia.
      assert (Hdz : Zpos (digits2_pos m') = 53) by lia.
      rewrite Hdz in Bm'.
      assert (Hm53 : Zpos m < 2 ^ 53).
      { apply Z.lt_le_trans with (2 ^ Zpos (digits2_pos m)); [lia|].
        apply Z.pow_le_mono_r; lia. }
      destruct (Z.leb_spec 0 e) as [H0|H0]; [lia|].
      exists (Zpos m / 2 ^ (- e)). split; [reflexivity|].
      assert (Hpe : 0 < 2 ^ (- e)) by (apply Z.pow_pos_nonneg; lia).
      split; [apply Z.div_pos; lia|].
      apply Z.lt_le_incl, Z.div_lt_upper_bound; [lia|].
      replace (- e) with (Z.succ (- e' + (- e - 1 - - e'))) by lia.
      rewrite Z.pow_succ_r, Z.pow_add_r by lia.
      assert (Hk : 0 < 2 ^ (- e - 1 - - e')) by (apply Z.pow_pos_nonneg; lia).
      change (2 ^ (53 - 1)) with (2 ^ 52) in Bm'.
      change (2 ^ 53) with (2 * 2 ^ 52) in Hm53.
      nia.
Qed.

(** ** The order of [float64] values, in integers *)

(** A canonical mantissa has at most 53 digits, and exactly 53 above the
    least exponent. *)
Lemma canonical_mantissa_bounds (m : positive) (e : Z) :
  canonical_mantissa prec emax m e = true ->
  - 1074 <= e /\ Zpos m < 2 ^ 53 /\ (- 1074 < e -> 2 ^ 52 <= Zpos m).
Proof.
  unfold canonical_mantissa, fexp, SpecFloat.emin, prec, emax.
  intros H. apply Z.eqb_eq in H.
  pose proof (digits2_pos_bounds m) as B.
  assert (Hd : Zpos (digits2_pos m) <= 53) by lia.
  split; [lia|]. split.
  - apply Z.lt_le_trans with (2 ^ Zpos (digits2_pos m)); [lia|].
    apply Z.pow_le_mono_r; lia.
  - intros He. assert (Hd53 : Zpos (digits2_pos m) = 53) by lia.
    rewrite Hd53 in B. exact (proj1 B).
Qed.

Lemma valid_canonical (s : bool) (m : positive) (e : Z) :
  valid_binary (S754_finite s m e) = true ->
  canonical_mantissa prec emax m e = true.
Proof.
  unfold SpecFloat.valid_binary, bounded. intros H.
  now apply andb_prop in H as [H _].
Qed.

Lemma scaled_lt (m1 m2 : positive) (e1 e2 : Z) :
  canonical_mantissa prec emax m1 e1 = true ->
  canonical_mantissa prec emax m2 e2 = true ->
  e1 < e2 ->
  scaled m1 e1 < scaled m2 e2.
Proof.
  intros H1 H2 Hlt. unfold scaled.
  destruct (canonical_mantissa_bounds m1 e1 H1) as (He1 & Hm1 & _).
  destruct (canonical_mantissa_bounds m2 e2 H2) as (He2 & _ & Hm2).
  specialize (Hm2 ltac:(lia)).
  replace (e2 + 1074) with (Z.succ (e1 + 1074 + (e2 - e1 - 1))) by lia.
  rewrite Z.pow_succ_r, (Z.pow_add_r 2 (e1 + 1074) (e2 - e1 - 1)) by lia.
  assert (Hp : 0 < 2 ^ (e1 + 1074)) by (apply Z.pow_pos_nonneg; lia).
  assert (Hq : 0 < 2 ^ (e2 - e1 - 1)) by (apply Z.pow_pos_nonneg; lia).
  change (2 ^ 53) with (2 * 2 ^ 52) in Hm1.
  set (p := 2 ^ (e1 + 1074)) in *. set (q := 2 ^ (e2 - e1 - 1)) in *.
  set (h := 2 ^ 52) in *. clearbody p q h.
  assert (Ha : Zpos m1 * p < 2 * h * p) by nia.
  assert (Hb : 2 * h * p <= 2 * Zpos m2 * p) by nia.
  assert (Hc : 2 * Zpos m2 * p * 1 <= 2 * Zpos m2 * p * q)
    by (apply Z.mul_le_mono_nonneg_l; lia).
  lia.
Qed.

(** The comparison of two such values is the comparison of the integers. *)
Lemma SFcompare_scaled (x y : spec_float) (a b : Z) :
  valid_binary x = true -> valid_binary y = true ->
  SFscaled x = Some a -> SFscaled y = Some b ->
  SFcompare x y = Some (a ?= b).
Proof.
  intros Hx Hy.
  destruct x as [sx|sx| |[|] m1 e1]; cbv [SFscaled]; intros Ha; try discriminate Ha;
    destruct y as [sy|sy| |[|] m2 e2]; intros Hb; try discriminate Hb;
    injection Ha as Ha; injection Hb as Hb; subst a b; cbn [SFcompare]; f_equal;
    symmetry; unfold scaled.
  - apply valid_canonical, canonical_mantissa_bounds in Hy as (He & _).
    apply Z.compare_lt_iff, Z.mul_pos_pos; [lia|].
    apply Z.pow_pos_nonneg; lia.
  - apply valid_canonical, canonical_mantissa_bounds in Hx as (He & _).
    apply Z.compare_gt_iff, Z.mul_pos_pos; [lia|].
    apply Z.pow_pos_nonneg; lia.
  - apply valid_canonical in Hx, Hy.
    destruct (Z.compare_spec e1 e2) as [->|Hlt|Hgt].
    + change (PosDef.Pos.compare_cont Eq m1 m2) with (Pos.compare m1 m2).
      rewrite Pos2Z.inj_compare.
      symmetry. apply Zmult_compare_compat_r.
      apply canonical_mantissa_bounds in Hx as (He & _).
      apply Z.lt_gt, Z.pow_pos_nonneg; lia.
    + apply Z.compare_lt_iff. now apply (scaled_lt m1 m2 e1 e2).
    + apply Z.compare_gt_iff. now apply (scaled_lt m2 m1 e2 e1).
Qed.

(** The truncation of such a value. *)
Lemma float64_trunc_scaled (f : float) (a : Z) :
  SFscaled (Prim2SF f) = Some a ->
  float64_trunc f = Some (a / 2 ^ 1074).
Proof.
  pose proof (Prim2SF_valid f) as Hv. unfold float64_trunc.
  destruct (Prim2SF f) as [s|s| |[|] m e]; cbv [SFscaled]; intros Ha;
    try discriminate Ha; injection Ha as Ha; subst a; unfold scaled.
  - reflexivity.
  - apply valid_canonical, canonical_mantissa_bounds in Hv as (He & _).
    cbv zeta. f_equal.
    destruct (Z.leb_spec 0 e) as [H0|H0].
    + rewrite (Z.pow_add_r 2 e 1074), Z.mul_assoc, Z.div_mul by lia. reflexivity.
    + replace (2 ^ 1074) with (2 ^ (- e) * 2 ^ (e + 1074))
        by (rewrite <- Z.pow_add_r by lia; f_equal; lia).
      rewrite Z.div_mul_cancel_r; [reflexivity| |];
        apply Z.pow_nonzero; lia.
Qed.

(** The conversion of an integer below [2^53] is that integer. *)
Lemma float64_of_int_scaled (z : Z) :
  0 <= z < 2 ^ 53 ->
  SFscaled (Prim2SF (float64_of_int z)) = Some (z * 2 ^ 1074).
Proof.
  intros H. unfold float64_of_int, binary_normalize.
  destruct z as [|m|m]; [| |lia].
  - rewrite Prim2SF_SF2Prim by reflexivity. reflexivity.
  - destruct (binary_round_exact false m) as (m' & e' & -> & Hv & He & Hm); [lia|].
    rewrite Prim2SF_SF2Prim by exact Hv. cbn [SFscaled]. unfold scaled.
    apply valid_canonical, canonical_mantissa_bounds in Hv as (He' & _).
    rewrite Hm, <- Z.mul_assoc, <- Z.pow_add_r by lia.
    replace (- e' + (e' + 1074)) with 1074 by lia. reflexivity.
Qed.

(** A binary64 not below zero is [+Inf] or has such a value. *)
Lemma nonneg_scaled (b : float) :
  (0 <=? b)%float = true ->
  Prim2SF b = S754_infinity false
  \/ exists a : Z, SFscaled (Prim2SF b) = Some a /\ 0 <= a.
Proof.
  rewrite leb_spec. change (Prim2SF 0) with (S754_zero false).
  destruct (Prim2SF b) as [s|[|]| |[|] m e]; intros H; try discriminate H.
  - right. exists 0. split; [reflexivity|lia].
  - now left.
  - right. exists (scaled m e). split; [reflexivity|].
    unfold scaled. apply Z.mul_nonneg_nonneg; [lia|]. apply Z.pow_nonneg. lia.
Qed.

(** Two binary64 in order, the first not below zero: the second is [+Inf],
    or both have such values, in the same order. *)
Lemma leb_scaled (x y : float) :
  (0 <=? x)%float = true ->
  (x <=? y)%float = true ->
  (0 <=? y)%float = true
  /\ (Prim2SF y = S754_infinity false
      \/ exists a b : Z,
           SFscaled (Prim2SF x) = Some a /\ SFscaled (Prim2SF y) = Some b
           /\ 0 <= a <= b).
Proof.
  intros Hx Hxy.
  destruct (nonneg_scaled x Hx) as [Hinf|(a & Ha & Ha0)].
  - rewrite !leb_spec in *. rewrite Hinf in Hxy.
    change (Prim2SF 0) with (S754_zero false).
    destruct (Prim2SF y) as [s|[|]| |[|] m e]; try discriminate Hxy.
    split; [reflexivity|now left].
  - pose proof (Prim2SF_valid x) as Vx. pose proof (Prim2SF_valid y) as Vy.
    assert (Hy : (0 <=? y)%float = true).
    { rewrite !leb_spec in *. change (Prim2SF 0) with (S754_zero false).
      destruct (Prim2SF x) as [sx|sx| |[|] mx ex]; try discriminate Ha;
        destruct (Prim2SF y) as [s|[|]| |[|] m e];
        try discriminate Hxy; reflexivity. }
    split; [exact Hy|].
    destruct (nonneg_scaled y Hy) as [Hinf|(b & Hb & Hb0)]; [now left|right].
    exists a, b. split; [exact Ha|]. split; [exact Hb|]. split; [exact Ha0|].
    rewrite leb_spec in Hxy. unfold SFleb in Hxy.
    rewrite (SFcompare_scaled _ _ a b Vx Vy Ha Hb) in Hxy.
    destruct (Z.compare_spec a b); [lia|lia|discriminate Hxy].
Qed.

(** ** The rounding of a product *)

Lemma iter_pos_nat {A : Type} (f : A -> A) (p : positive) (x : A) :
  iter_pos f p x = Nat.iter (Pos.to_nat p) f x.
Proof.
  revert x. induction p as [p IH|p IH|]; intros x; cbn [iter_pos].
  - rewrite !IH, Pos2Nat.inj_xI.
    replace (S (2 * Pos.to_nat p)) with (Pos.to_nat p + (Pos.to_nat p + 1))%nat by lia.
    rewrite !Nat.iter_add. reflexivity.
  - rewrite !IH, Pos2Nat.inj_xO.
    replace (2 * Pos.to_nat p)%nat with (Pos.to_nat p + Pos.to_nat p)%nat by lia.
    rewrite Nat.iter_add. reflexivity.
  - reflexivity.
Qed.

Lemma shr_1_inv (M j : Z) (mrs : shr_record) :
  0 <= j -> shr_inv M j mrs -> shr_inv M (j + 1) (shr_1 mrs).
Proof.
  intros Hj. destruct mrs as [m r s]. unfold shr_inv. cbn [shr_m shr_r shr_s].
  rewrite Z.pow_add_r, Z.pow_1_r by lia.
  assert (Hp : 0 < 2 ^ j) by (apply Z.pow_pos_nonneg; lia).
  set (p := 2 ^ j) in *. clearbody p.
  intros (Hm & Hrem & Hr & Hs).
  assert (Hrs : r || s = negb (M - m * p =? 0)).
  { rewrite Hr, Hs.
    destruct (Z.leb_spec p (2 * (M - m * p)));
      destruct (Z.eqb_spec (M - m * p) 0);
      destruct (Z.eqb_spec (2 * (M - m * p)) p); simpl; try reflexivity; lia. }
  destruct m as [|[m|m|]|m]; [| | | |lia]; cbn [shr_1 shr_m shr_r shr_s];
    rewrite Hrs;
    [ | change (Zpos m~1) with (2 * Zpos m + 1) in *
      | change (Zpos m~0) with (2 * Zpos m) in * | ];
    (split; [lia|]); (split; [lia|]); split.
  - symmetry. apply Z.leb_gt. lia.
  - destruct (Z.eqb_spec (M - 0 * p) 0); destruct (Z.eqb_spec (M - 0 * (p * 2)) 0);
      destruct (Z.eqb_spec (2 * (M - 0 * (p * 2))) (p * 2)); simpl; try reflexivity; lia.
  - symmetry. apply Z.leb_le. lia.
  - destruct (Z.eqb_spec (M - (2 * Zpos m + 1) * p) 0);
      destruct (Z.eqb_spec (M - Zpos m * (p * 2)) 0);
      destruct (Z.eqb_spec (2 * (M - Zpos m * (p * 2))) (p * 2));
      simpl; try reflexivity; lia.
  - symmetry. apply Z.leb_gt. lia.
  - destruct (Z.eqb_spec (M - 2 * Zpos m * p) 0);
      destruct (Z.eqb_spec (M - Zpos m * (p * 2)) 0);
      destruct (Z.eqb_spec (2 * (M - Zpos m * (p * 2))) (p * 2));
      simpl; try reflexivity; lia.
  - symmetry. apply Z.leb_le. lia.
  - destruct (Z.eqb_spec (M - 1 * p) 0);
      destruct (Z.eqb_spec (M - 0 * (p * 2)) 0);
      destruct (Z.eqb_spec (2 * (M - 0 * (p * 2))) (p * 2));
      simpl; try reflexivity; lia.
Qed.

Lemma shr_iter_inv (M : Z) (n : nat) :
  0 <= M ->
  shr_inv M (Z.of_nat n) (Nat.iter n shr_1 (Build_shr_record M false false)).
Proof.
  intros HM. induction n as [|n IH].
  - unfold shr_inv. simpl Nat.iter. cbn [shr_m shr_r shr_s].
    change (2 ^ Z.of_nat 0) with 1. replace (M - M * 1) with 0 by lia.
    split; [exact HM|]. split; [lia|]. split; reflexivity.
  - rewrite Nat2Z.inj_succ, <- Z.add_1_r. simpl Nat.iter.
    apply shr_1_inv; [lia|exact IH].
Qed.

(** The shift of [shr], for a shift that is not negative. *)
Lemma shr_inv_shr (M e k : Z) :
  0 <= M -> 0 <= k ->
  shr_inv M k (fst (shr (Build_shr_record M false false) e k))
  /\ snd (shr (Build_shr_record M false false) e k) = e + k.
Proof.
  intros HM Hk. destruct k as [|p|p]; [| |lia]; cbn [shr fst snd].
  - split; [|lia]. apply (shr_iter_inv M 0 HM).
  - split; [|reflexivity]. rewrite iter_pos_nat, <- (positive_nat_Z p).
    apply shr_iter_inv, HM.
Qed.

Lemma round_shr_inv (M k : Z) (mrs : shr_record) :
  0 <= k -> shr_inv M k mrs ->
  round_nearest_even (shr_m mrs) (loc_of_shr_record mrs) = rnd M k.
Proof.
  intros Hk. destruct mrs as [q r s]. unfold shr_inv, rnd.
  cbn [shr_m shr_r shr_s]. cbv zeta.
  assert (Hp : 0 < 2 ^ k) by (apply Z.pow_pos_nonneg; lia).
  set (p := 2 ^ k) in *. clearbody p.
  intros (Hq & Hrem & Hr & Hs).
  assert (Hdiv : M / p = q).
  { symmetry. apply (Z.div_unique_pos M p q (M - q * p)); lia. }
  assert (Hmod : M mod p = M - q * p).
  { symmetry. apply (Z.mod_unique_pos M p q (M - q * p)); lia. }
  rewrite Hdiv, Hmod. subst r s.
  destruct (Z.compare_spec (2 * (M - q * p)) p) as [He|Hl|Hg].
  - replace (p <=? 2 * (M - q * p)) with true by (symmetry; apply Z.leb_le; lia).
    replace (2 * (M - q * p) =? p) with true by (symmetry; apply Z.eqb_eq; lia).
    rewrite andb_false_r. reflexivity.
  - replace (p <=? 2 * (M - q * p)) with false by (symmetry; apply Z.leb_gt; lia).
    destruct (negb (M - q * p =? 0) && negb (2 * (M - q * p) =? p)); reflexivity.
  - replace (p <=? 2 * (M - q * p)) with true by (symmetry; apply Z.leb_le; lia).
    replace (2 * (M - q * p) =? p) with false by (symmetry; apply Z.eqb_neq; lia).
    replace (M - q * p =? 0) with false by (symmetry; apply Z.eqb_neq; lia).
    reflexivity.
Qed.

Lemma rnd_bounds (M k : Z) :
  0 <= k -> M / 2 ^ k <= rnd M k <= M / 2 ^ k + 1.
Proof.
  intros Hk. unfold rnd. cbv zeta.
  destruct (2 * (M mod 2 ^ k) ?= 2 ^ k); [|lia|lia].
  destruct (Z.even (M / 2 ^ k)); lia.
Qed.

Lemma rexp_eq (m : positive) (e : Z) :
  rexp m e = Z.max (Zpos (digits2_pos m) + e - 53) (- 1074).
Proof. reflexivity. Qed.

(** The quotient of the first shift has at most 53 digits, and 53 when the
    exponent is above the least. *)
Lemma quotient_bounds (m : positive) (e : Z) :
  e <= rexp m e ->
  0 <= Zpos m / 2 ^ (rexp m e - e) < 2 ^ 53
  /\ (- 1074 < rexp m e -> 2 ^ 52 <= Zpos m / 2 ^ (rexp m e - e)).
Proof.
  intros He. rewrite rexp_eq in *.
  pose proof (digits2_pos_bounds m) as B.
  set (d := Zpos (digits2_pos m)) in *.
  assert (Hd : 0 < d) by (subst d; lia). clearbody d.
  set (k := Z.max (d + e - 53) (- 1074) - e) in *.
  assert (Hk : 0 <= k) by lia.
  assert (Hp : 0 < 2 ^ k) by (apply Z.pow_pos_nonneg; lia).
  split; [split|].
  - apply Z.div_pos; lia.
  - apply Z.div_lt_upper_bound; [lia|].
    apply Z.lt_le_trans with (2 ^ d); [lia|].
    rewrite <- Z.pow_add_r by lia. apply Z.pow_le_mono_r; lia.
  - intros Hn. assert (Hkd : k = d - 53) by lia.
    apply Z.div_le_lower_bound; [lia|].
    apply Z.le_trans with (2 ^ (d - 1)); [|lia].
    rewrite <- Z.pow_add_r by lia. apply Z.pow_le_mono_r; lia.
Qed.

Lemma Zdigits2_53 (q : Z) :
  0 < q < 2 ^ 53 -> 0 < Zdigits2 q <= 53.
Proof.
  intros Hq. destruct q as [|p|p]; [lia| |lia]. cbn [Zdigits2].
  pose proof (digits2_pos_bounds p) as B. split; [lia|].
  destruct (Z.le_gt_cases (Zpos (digits2_pos p)) 53) as [H|H]; [exact H|].
  exfalso.
  assert (2 ^ 53 <= 2 ^ (Zpos (digits2_pos p) - 1)) by (apply Z.pow_le_mono_r; lia).
  lia.
Qed.

Lemma mul_lt_bound (a b c d : Z) :
  0 <= a < c -> 0 < b <= d -> a * b < c * d.
Proof.
  intros Ha Hb. apply Z.le_lt_trans with (a * d).
  - apply Z.mul_le_mono_nonneg_l; lia.
  - apply Z.mul_lt_mono_pos_r; lia.
Qed.

(** What [binary_round_aux] gives for a mantissa and an exponent below the
    exponent it rounds at: the rounded value, or [+Inf] from [2^1024] on. *)
Lemma binary_round_aux_rounded (m : positive) (e : Z) :
  e <= rexp m e ->
  0 <= rounded m e
  /\ (rounded m e < 2 ^ 2098 ->
      SFscaled (binary_round_aux prec emax false (Zpos m) e loc_Exact)
      = Some (rounded m e))
  /\ (2 ^ 2098 <= rounded m e ->
      binary_round_aux prec emax false (Zpos m) e loc_Exact = S754_infinity false).
Proof.
  intros He. unfold rounded.
  destruct (quotient_bounds m e He) as ((Hq0 & Hq53) & Hq52).
  assert (Hk : 0 <= rexp m e - e) by lia.
  pose proof (rnd_bounds (Zpos m) (rexp m e - e) Hk) as Hr.
  assert (Hemin : - 1074 <= rexp m e) by (rewrite rexp_eq; lia).
  unfold binary_round_aux, shr_fexp. cbn [shr_record_of_loc Zdigits2].
  fold (rexp m e).
  destruct (shr_inv_shr (Zpos m) e (rexp m e - e) ltac:(lia) Hk) as (Hinv & Hsnd).
  destruct (shr (Build_shr_record (Zpos m) false false) e (rexp m e - e))
    as [mrs' e'] eqn:Hshr.
  cbn [fst snd] in Hinv, Hsnd.
  assert (He' : e' = rexp m e) by lia. clear Hsnd. subst e'.
  rewrite (round_shr_inv _ _ _ Hk Hinv).
  set (E := rexp m e) in *. set (q := Zpos m / 2 ^ (E - e)) in *.
  set (q' := rnd (Zpos m) (E - e)) in *.
  clearbody q q'. clear Hinv Hshr mrs'.
  assert (HpE : 0 < 2 ^ (E + 1074)) by (apply Z.pow_pos_nonneg; lia).
  assert (Hcases : q' = 0 \/ 0 < q' < 2 ^ 53 \/ q' = 2 ^ 53) by lia.
  destruct Hcases as [H0|[Hmid|Htop]].
  - subst q'. cbn [Zdigits2].
    replace (shr (Build_shr_record 0 false false) E (fexp prec emax (0 + E) - E))
      with (Build_shr_record 0 false false, E).
    2:{ unfold fexp, SpecFloat.emin, prec, emax.
        destruct (Z.max (0 + E - 53) (3 - 1024 - 53) - E) as [|p|p] eqn:Hn;
          [reflexivity|lia|reflexivity]. }
    cbn [shr_m]. split; [lia|]. split; [reflexivity|].
    intros H. exfalso. revert H. apply Z.lt_nge. reflexivity.
  - pose proof (Zdigits2_53 q' Hmid) as Hd.
    replace (shr (Build_shr_record q' false false) E
               (fexp prec emax (Zdigits2 q' + E) - E))
      with (Build_shr_record q' false false, E).
    2:{ unfold fexp, SpecFloat.emin, prec, emax.
        destruct (Z.max (Zdigits2 q' + E - 53) (3 - 1024 - 53) - E) as [|p|p] eqn:Hn;
          [reflexivity|lia|reflexivity]. }
    cbn [shr_m]. destruct q' as [|p|p]; [lia| |lia].
    split; [lia|].
    unfold emax, prec. change (1024 - 53) with 971.
    destruct (Z.leb_spec E 971) as [Hle|Hgt].
    + split; [reflexivity|]. intros H. exfalso.
      assert (2 ^ (E + 1074) <= 2 ^ 2045) by (apply Z.pow_le_mono_r; lia).
      change (2 ^ 2098) with (2 ^ 53 * 2 ^ 2045) in H.
      assert (Zpos p * 2 ^ (E + 1074) < 2 ^ 53 * 2 ^ 2045); [|lia].
      apply mul_lt_bound; lia.
    + split; [|reflexivity]. intros H. exfalso.
      specialize (Hq52 ltac:(lia)).
      assert (2 ^ 2046 <= 2 ^ (E + 1074)) by (apply Z.pow_le_mono_r; lia).
      change (2 ^ 2098) with (2 ^ 52 * 2 ^ 2046) in H.
      assert (2 ^ 52 * 2 ^ 2046 <= Zpos p * 2 ^ (E + 1074)); [|lia].
      apply Z.mul_le_mono_nonneg; lia.
  - subst q'.
    replace (shr (Build_shr_record (2 ^ 53) false false) E
               (fexp prec emax (Zdigits2 (2 ^ 53) + E) - E))
      with (Build_shr_record (2 ^ 52) false false, E + 1).
    2:{ change (Zdigits2 (2 ^ 53)) with 54.
        unfold fexp, SpecFloat.emin, prec, emax.
        replace (Z.max (54 + E - 53) (3 - 1024 - 53) - E) with 1 by lia.
        reflexivity. }
    cbn [shr_m]. change (2 ^ 52) with (Zpos (2 ^ 52)).
    split; [lia|].
    unfold emax, prec. change (1024 - 53) with 971.
    assert (Hval : 2 ^ 53 * 2 ^ (E + 1074) = Zpos (2 ^ 52) * 2 ^ (E + 1 + 1074)).
    { replace (E + 1 + 1074) with (Z.succ (E + 1074)) by lia.
      rewrite Z.pow_succ_r by lia. change (2 ^ 53) with (2 * Zpos (2 ^ 52)). lia. }
    destruct (Z.leb_spec (E + 1) 971) as [Hle|Hgt].
    + split; [intros _; cbn [SFscaled]; unfold scaled; now rewrite Hval|].
      intros H. exfalso.
      assert (2 ^ (E + 1074) <= 2 ^ 2044) by (apply Z.pow_le_mono_r; lia).
      change (2 ^ 2098) with (2 ^ 53 * (2 * 2 ^ 2044)) in H.
      lia.
    + split; [|reflexivity]. intros H. exfalso.
      assert (2 ^ 2045 <= 2 ^ (E + 1074)) by (apply Z.pow_le_mono_r; lia).
      change (2 ^ 2098) with (2 ^ 53 * 2 ^ 2045) in H.
      lia.
Qed.

(** Rounding to the nearest keeps the order of two fractions. *)
Lemma rnd_monotone (M1 M2 k1 k2 : Z) :
  0 <= k1 -> 0 <= k2 ->
  M1 * 2 ^ k2 <= M2 * 2 ^ k1 ->
  rnd M1 k1 <= rnd M2 k2.
Proof.
  intros Hk1 Hk2. unfold rnd. cbv zeta.
  assert (Hp1 : 0 < 2 ^ k1) by (apply Z.pow_pos_nonneg; lia).
  assert (Hp2 : 0 < 2 ^ k2) by (apply Z.pow_pos_nonneg; lia).
  set (p1 := 2 ^ k1) in *. set (p2 := 2 ^ k2) in *. clearbody p1 p2.
  pose proof (Z.div_mod M1 p1 ltac:(lia)) as D1.
  pose proof (Z.div_mod M2 p2 ltac:(lia)) as D2.
  pose proof (Z.mod_pos_bound M1 p1 Hp1) as B1.
  pose proof (Z.mod_pos_bound M2 p2 Hp2) as B2.
  set (q1 := M1 / p1) in *. set (q2 := M2 / p2) in *.
  set (r1 := M1 mod p1) in *. set (r2 := M2 mod p2) in *.
  clearbody q1 q2 r1 r2. subst M1 M2. intros Hle.
  assert (Hq : q1 <= q2).
  { destruct (Z.le_gt_cases q1 q2) as [H|H]; [exact H|exfalso].
    assert (p1 * p2 * (q2 + 1) <= p1 * p2 * q1)
      by (apply Z.mul_le_mono_nonneg_l; nia).
    assert (r2 * p1 < p2 * p1) by (apply Z.mul_lt_mono_pos_r; lia).
    assert (0 <= r1 * p2) by (apply Z.mul_nonneg_nonneg; lia).
    nia. }
  destruct (Z.eq_dec q1 q2) as [Heq|Hne].
  - subst q2.
    assert (Hr : r1 * p2 <= r2 * p1) by nia.
    destruct (Z.compare_spec (2 * r1) p1) as [E1|L1|G1];
      destruct (Z.compare_spec (2 * r2) p2) as [E2|L2|G2];
      try (destruct (Z.even q1)); try lia; exfalso; nia.
  - assert (q1 + 1 <= q2) by lia.
    destruct (2 * r1 ?= p1); destruct (2 * r2 ?= p2);
      try (destruct (Z.even q1)); try (destruct (Z.even q2)); lia.
Qed.

(** Of two products in order, the second has the greater magnitude. *)
Lemma magnitude_le (m1 m2 : positive) (e1 e2 c : Z) :
  0 <= e1 + c -> 0 <= e2 + c ->
  Zpos m1 * 2 ^ (e1 + c) <= Zpos m2 * 2 ^ (e2 + c) ->
  Zpos (digits2_pos m1) + e1 <= Zpos (digits2_pos m2) + e2.
Proof.
  intros H1 H2 Hle.
  pose proof (digits2_pos_bounds m1) as B1.
  pose proof (digits2_pos_bounds m2) as B2.
  set (d1 := Zpos (digits2_pos m1)) in *. set (d2 := Zpos (digits2_pos m2)) in *.
  assert (Hd1 : 0 < d1) by (subst d1; lia).
  assert (Hd2 : 0 < d2) by (subst d2; lia).
  clearbody d1 d2.
  destruct (Z.le_gt_cases (d1 + e1) (d2 + e2)) as [H|H]; [exact H|exfalso].
  assert (Ha : Zpos m2 * 2 ^ (e2 + c) < 2 ^ d2 * 2 ^ (e2 + c)).
  { apply Z.mul_lt_mono_pos_r; [apply Z.pow_pos_nonneg|]; lia. }
  assert (Hb : 2 ^ (d1 - 1) * 2 ^ (e1 + c) <= Zpos m1 * 2 ^ (e1 + c)).
  { apply Z.mul_le_mono_nonneg_r; [apply Z.pow_nonneg|]; lia. }
  rewrite <- Z.pow_add_r in Ha, Hb by lia.
  assert (Hc : 2 ^ (d2 + (e2 + c)) <= 2 ^ (d1 - 1 + (e1 + c)))
    by (apply Z.pow_le_mono_r; lia).
  lia.
Qed.

(** The rounded value keeps the order of two products. *)
Lemma rounded_monotone (m1 m2 : positive) (e1 e2 c : Z) :
  e1 <= rexp m1 e1 -> e2 <= rexp m2 e2 ->
  0 <= e1 + c -> 0 <= e2 + c ->
  Zpos m1 * 2 ^ (e1 + c) <= Zpos m2 * 2 ^ (e2 + c) ->
  rounded m1 e1 <= rounded m2 e2.
Proof.
  intros He1 He2 Hc1 Hc2 Hle.
  pose proof (magnitude_le m1 m2 e1 e2 c Hc1 Hc2 Hle) as Hmag.
  assert (HE : rexp m1 e1 <= rexp m2 e2) by (rewrite !rexp_eq; lia).
  assert (Hmin : - 1074 <= rexp m1 e1) by (rewrite rexp_eq; lia).
  destruct (quotient_bounds m1 e1 He1) as ((Hq10 & Hq153) & _).
  destruct (quotient_bounds m2 e2 He2) as ((Hq20 & _) & Hq252).
  pose proof (rnd_bounds (Zpos m1) (rexp m1 e1 - e1) ltac:(lia)) as Hr1.
  pose proof (rnd_bounds (Zpos m2) (rexp m2 e2 - e2) ltac:(lia)) as Hr2.
  unfold rounded.
  set (E1 := rexp m1 e1) in *. set (E2 := rexp m2 e2) in *. clearbody E1 E2.
  destruct (Z.eq_dec E1 E2) as [Heq|Hne].
  - subst E2. apply Z.mul_le_mono_nonneg_r; [apply Z.pow_nonneg; lia|].
    apply rnd_monotone; [lia|lia|].
    assert (Hp : 0 < 2 ^ (E1 + c)) by (apply Z.pow_pos_nonneg; lia).
    apply (Z.mul_le_mono_pos_r _ _ (2 ^ (E1 + c)) Hp).
    replace (Zpos m1 * 2 ^ (E1 - e2) * 2 ^ (E1 + c))
      with (Zpos m1 * 2 ^ (e1 + c) * (2 ^ (E1 - e1) * 2 ^ (E1 - e2))).
    2:{ replace (E1 + c) with (e1 + c + (E1 - e1)) by lia.
        rewrite (Z.pow_add_r 2 (e1 + c) (E1 - e1)) by lia. ring. }
    replace (Zpos m2 * 2 ^ (E1 - e1) * 2 ^ (E1 + c))
      with (Zpos m2 * 2 ^ (e2 + c) * (2 ^ (E1 - e1) * 2 ^ (E1 - e2))).
    2:{ replace (E1 + c) with (e2 + c + (E1 - e2)) by lia.
        rewrite (Z.pow_add_r 2 (e2 + c) (E1 - e2)) by lia. ring. }
    apply Z.mul_le_mono_nonneg_r; [|exact Hle].
    apply Z.mul_nonneg_nonneg; apply Z.pow_nonneg; lia.
  - specialize (Hq252 ltac:(lia)).
    apply Z.le_trans with (2 ^ 53 * 2 ^ (E1 + 1074)).
    + apply Z.mul_le_mono_nonneg_r; [apply Z.pow_nonneg|]; lia.
    + apply Z.le_trans with (2 ^ 52 * 2 ^ (E2 + 1074)).
      * change (2 ^ 53) with (2 ^ 52 * 2). rewrite <- Z.mul_assoc.
        apply Z.mul_le_mono_nonneg_l; [lia|].
        rewrite <- (Z.pow_succ_r 2 (E1 + 1074)) by lia.
        apply Z.pow_le_mono_r; lia.
      * apply Z.mul_le_mono_nonneg_r; [apply Z.pow_nonneg|]; lia.
Qed.

Lemma digits2_pos_mul (a b : positive) :
  Zpos (digits2_pos a) + Zpos (digits2_pos b) - 1 <= Zpos (digits2_pos (a * b)).
Proof.
  pose proof (digits2_pos_bounds a) as Ba.
  pose proof (digits2_pos_bounds b) as Bb.
  pose proof (digits2_pos_bounds (a * b)) as Bab.
  rewrite Pos2Z.inj_mul in Bab.
  set (da := Zpos (digits2_pos a)) in *. set (db := Zpos (digits2_pos b)) in *.
  set (d := Zpos (digits2_pos (a * b))) in *.
  assert (Hda : 0 < da) by (subst da; lia).
  assert (Hdb : 0 < db) by (subst db; lia).
  assert (Hd : 0 < d) by (subst d; lia).
  clearbody da db d.
  destruct (Z.le_gt_cases (da + db - 1) d) as [H|H]; [exact H|exfalso].
  assert (Hp : 2 ^ (da - 1) * 2 ^ (db - 1) <= Zpos a * Zpos b)
    by (apply Z.mul_le_mono_nonneg; try apply Z.pow_nonneg; lia).
  rewrite <- Z.pow_add_r in Hp by lia.
  assert (2 ^ d <= 2 ^ (da - 1 + (db - 1))) by (apply Z.pow_le_mono_r; lia).
  lia.
Qed.

(** The product of two canonical mantissas is rounded at an exponent that is
    not below its own. *)
Lemma product_exponent (mx my : positive) (ex ey : Z) :
  canonical_mantissa prec emax mx ex = true ->
  canonical_mantissa prec emax my ey = true ->
  ex + ey <= rexp (mx * my) (ex + ey).
Proof.
  unfold canonical_mantissa, fexp, SpecFloat.emin, prec, emax.
  intros Hx Hy. apply Z.eqb_eq in Hx, Hy. rewrite rexp_eq.
  pose proof (digits2_pos_mul mx my) as Hd.
  assert (0 < Zpos (digits2_pos mx)) by lia.
  assert (0 < Zpos (digits2_pos my)) by lia.
  lia.
Qed.

Lemma SFleb_zero_scaled (R : spec_float) (W : Z) :
  SFscaled R = Some W -> SFleb (S754_zero false) R = true.
Proof. destruct R as [s|s| |[|] m e]; intros H; try discriminate H; reflexivity. Qed.

Lemma SFleb_scaled_inf (R : spec_float) (W : Z) :
  SFscaled R = Some W -> SFleb R (S754_infinity false) = true.
Proof. destruct R as [s|s| |[|] m e]; intros H; try discriminate H; reflexivity. Qed.

(** The product by a positive binary64 keeps the order of two binary64 that
    are not below zero. *)
Lemma SFmul_monotone (mx : positive) (ex : Z) (y1 y2 : spec_float) :
  canonical_mantissa prec emax mx ex = true ->
  valid_binary y1 = true -> valid_binary y2 = true ->
  valid_binary (SFmul prec emax (S754_finite false mx ex) y1) = true ->
  valid_binary (SFmul prec emax (S754_finite false mx ex) y2) = true ->
  SFleb (S754_zero false) y1 = true ->
  SFleb y1 y2 = true ->
  SFleb (S754_zero false) (SFmul prec emax (S754_finite false mx ex) y1) = true
  /\ SFleb (SFmul prec emax (S754_finite false mx ex) y1)
           (SFmul prec emax (S754_finite false mx ex) y2) = true.
Proof.
  intros Hx V1 V2 VR1 VR2 H0 Hle.
  assert (Hround : forall (m : positive) (e : Z),
            canonical_mantissa prec emax m e = true ->
            let R := binary_round_aux prec emax false (Zpos (mx * m)) (ex + e) loc_Exact in
            (R = S754_infinity false /\ 2 ^ 2098 <= rounded (mx * m) (ex + e))
            \/ (SFscaled R = Some (rounded (mx * m) (ex + e))
                /\ rounded (mx * m) (ex + e) < 2 ^ 2098)).
  { intros m e Hm R.
    destruct (binary_round_aux_rounded (mx * m) (ex + e)
                (product_exponent mx m ex e Hx Hm)) as (_ & Hs & Hi).
    destruct (Z.lt_ge_cases (rounded (mx * m) (ex + e)) (2 ^ 2098)) as [H|H].
    - right. split; [exact (Hs H)|exact H].
    - left. split; [exact (Hi H)|exact H]. }
  destruct y1 as [s1|[|]| |[|] m1 e1]; try discriminate H0;
    destruct y2 as [s2|[|]| |[|] m2 e2]; try discriminate Hle;
    cbn [SFmul xorb] in *.
  - (* 0, 0 *) split; reflexivity.
  - (* 0, +Inf *) split; reflexivity.
  - (* 0, finite *)
    split; [reflexivity|].
    destruct (Hround m2 e2 (valid_canonical _ _ _ V2)) as [(-> & _)|(Hs & _)];
      [reflexivity|].
    destruct (binary_round_aux prec emax false (Zpos (mx * m2)) (ex + e2) loc_Exact)
      as [s|s| |[|] m e]; try discriminate Hs; reflexivity.
  - (* +Inf, +Inf *) split; reflexivity.
  - (* finite, +Inf *)
    destruct (Hround m1 e1 (valid_canonical _ _ _ V1)) as [(-> & _)|(Hs & _)].
    + split; reflexivity.
    + split; [exact (SFleb_zero_scaled _ _ Hs)|exact (SFleb_scaled_inf _ _ Hs)].
  - (* finite, finite *)
    pose proof (valid_canonical _ _ _ V1) as C1.
    pose proof (valid_canonical _ _ _ V2) as C2.
    destruct (canonical_mantissa_bounds mx ex Hx) as (Hex & _).
    destruct (canonical_mantissa_bounds m1 e1 C1) as (He1 & _).
    destruct (canonical_mantissa_bounds m2 e2 C2) as (He2 & _).
    assert (Hval : scaled m1 e1 <= scaled m2 e2).
    { unfold SFleb in Hle.
      rewrite (SFcompare_scaled _ _ (scaled m1 e1) (scaled m2 e2) V1 V2
                 eq_refl eq_refl) in Hle.
      destruct (Z.compare_spec (scaled m1 e1) (scaled m2 e2));
        [lia|lia|discriminate Hle]. }
    assert (Hmono : rounded (mx * m1) (ex + e1) <= rounded (mx * m2) (ex + e2)).
    { apply (rounded_monotone _ _ _ _ (1074 - ex));
        try (apply product_exponent; assumption); try lia.
      replace (ex + e1 + (1074 - ex)) with (e1 + 1074) by lia.
      replace (ex + e2 + (1074 - ex)) with (e2 + 1074) by lia.
      rewrite !Pos2Z.inj_mul, <- !Z.mul_assoc.
      apply Z.mul_le_mono_nonneg_l; [lia|exact Hval]. }
    destruct (Hround m1 e1 C1) as [(R1 & T1)|(S1 & T1)];
      destruct (Hround m2 e2 C2) as [(R2 & T2)|(S2 & T2)].
    + rewrite R1, R2. split; reflexivity.
    + lia.
    + rewrite R2. split; [exact (SFleb_zero_scaled _ _ S1)|exact (SFleb_scaled_inf _ _ S1)].
    + split; [exact (SFleb_zero_scaled _ _ S1)|].
      unfold SFleb. rewrite (SFcompare_scaled _ _ _ _ VR1 VR2 S1 S2).
      destruct (Z.compare_spec (rounded (mx * m1) (ex + e1))
                               (rounded (mx * m2) (ex + e2))); [reflexivity|reflexivity|lia].
Qed.


(** The product of [float64(z)], for [z] from 1 to below [2^53], by two
    binary64 in order, the first not below zero: the products are in the same
    order, and the first is not below zero. *)
Lemma float64_mul_monotone (z : Z) (y1 y2 : float) :
  0 < z < 2 ^ 53 ->
  (0 <=? y1)%float = true ->
  (y1 <=? y2)%float = true ->
  (0 <=? float64_of_int z * y1)%float = true
  /\ (float64_of_int z * y1 <=? float64_of_int z * y2)%float = true.
Proof.
  intros Hz H0 Hle.
  pose proof (Prim2SF_valid (float64_of_int z * y1)) as VR1.
  pose proof (Prim2SF_valid (float64_of_int z * y2)) as VR2.
  rewrite !leb_spec in *. rewrite !mul_spec in *.
  change (Prim2SF 0) with (S754_zero false) in *.
  assert (Hx : exists (m : positive) (e : Z),
            Prim2SF (float64_of_int z) = S754_finite false m e
            /\ canonical_mantissa prec emax m e = true).
  { unfold float64_of_int, binary_normalize. destruct z as [|m|m]; [lia| |lia].
    destruct (binary_round_exact false m) as (m' & e' & -> & Hv & _); [lia|].
    rewrite Prim2SF_SF2Prim by exact Hv. exists m', e'.
    split; [reflexivity|]. exact (valid_canonical _ _ _ Hv). }
  destruct Hx as (m & e & Hx & Hc). rewrite Hx in *.
  apply SFmul_monotone; try assumption; apply Prim2SF_valid.
Qed.

(** The number of digits of a positive number, from its bounds. *)
Lemma digits2_pos_unique (m : positive) (d : Z) :
  2 ^ (d - 1) <= Zpos m < 2 ^ d -> 0 < d -> Zpos (digits2_pos m) = d.
Proof.
  intros B Hd. pose proof (digits2_pos_bounds m) as B'.
  set (d' := Zpos (digits2_pos m)) in *.
  assert (Hd' : 0 < d') by (subst d'; lia). clearbody d'.
  destruct (Z.lt_trichotomy d' d) as [H|[H|H]]; [exfalso|exact H|exfalso].
  - assert (2 ^ d' <= 2 ^ (d - 1)) by (apply Z.pow_le_mono_r; lia). lia.
  - assert (2 ^ d <= 2 ^ (d' - 1)) by (apply Z.pow_le_mono_r; lia). lia.
Qed.

(** The value a mantissa [N * 2^n] at the exponent [- n] is rounded to, for
    [N] below [2^53]: the integer [N]. *)
Lemma rounded_exact (m : positive) (N n : Z) :
  0 < N < 2 ^ 53 -> 0 <= n ->
  Zpos m = N * 2 ^ n ->
  - n <= rexp m (- n) ->
  rounded m (- n) = N * 2 ^ 1074.
Proof.
  intros HN Hn Hm Hexp.
  destruct N as [|N|N]; [lia| |lia].
  pose proof (digits2_pos_bounds N) as BN.
  set (dN := Zpos (digits2_pos N)) in *.
  assert (HdN : 0 < dN <= 53).
  { split; [subst dN; lia|].
    destruct (Z.le_gt_cases dN 53) as [H|H]; [exact H|exfalso].
    assert (2 ^ 53 <= 2 ^ (dN - 1)) by (apply Z.pow_le_mono_r; lia). lia. }
  clearbody dN.
  assert (Hp : 0 < 2 ^ n) by (apply Z.pow_pos_nonneg; lia).
  assert (Hd : Zpos (digits2_pos m) = dN + n).
  { apply digits2_pos_unique; [|lia]. rewrite Hm.
    replace (dN + n - 1) with (dN - 1 + n) by lia.
    rewrite !Z.pow_add_r by lia. split.
    - apply Z.mul_le_mono_nonneg_r; lia.
    - apply Z.mul_lt_mono_pos_r; lia. }
  unfold rounded. rewrite rexp_eq, Hd in *.
  replace (dN + n + - n - 53) with (dN - 53) in * by lia.
  set (E := Z.max (dN - 53) (- 1074)) in *.
  assert (HE : - 1074 <= E <= 0) by (subst E; lia). clearbody E.
  replace (E - - n) with (n + E) by lia.
  assert (Hk : 0 < 2 ^ (n + E)) by (apply Z.pow_pos_nonneg; lia).
  assert (Hsplit : Zpos m = Zpos N * 2 ^ (- E) * 2 ^ (n + E)).
  { rewrite Hm, <- Z.mul_assoc, <- Z.pow_add_r by lia. do 2 f_equal. lia. }
  unfold rnd. cbv zeta.
  rewrite Hsplit, Z.mod_mul, Z.div_mul by lia.
  replace (2 * 0 ?= 2 ^ (n + E)) with Lt by (symmetry; apply Z.compare_lt_iff; lia).
  rewrite <- Z.mul_assoc, <- Z.pow_add_r by lia.
  do 2 f_equal. lia.
Qed.

(** The product of two integers is exact in [float64] while it is below
    [2^53]. *)
Lemma float64_mul_exact (a b : Z) :
  0 < a -> 0 < b -> a * b < 2 ^ 53 ->
  SFscaled (Prim2SF (float64_of_int a * float64_of_int b)) = Some (a * b * 2 ^ 1074).
Proof.
  intros Ha Hb Hab.
  assert (Ha53 : a < 2 ^ 53) by nia.
  assert (Hb53 : b < 2 ^ 53) by nia.
  rewrite mul_spec. unfold float64_of_int, binary_normalize.
  destruct a as [|a|a]; [lia| |lia]. destruct b as [|b|b]; [lia| |lia].
  destruct (binary_round_exact false a) as (ma & ea & -> & Va & Hea & Hma); [lia|].
  destruct (binary_round_exact false b) as (mb & eb & -> & Vb & Heb & Hmb); [lia|].
  rewrite !Prim2SF_SF2Prim by assumption.
  change (SF64mul (S754_finite false ma ea) (S754_finite false mb eb))
    with (binary_round_aux prec emax false (Zpos (ma * mb)) (ea + eb) loc_Exact).
  pose proof (product_exponent ma mb ea eb (valid_canonical _ _ _ Va)
                (valid_canonical _ _ _ Vb)) as Hexp.
  assert (Hval : rounded (ma * mb) (ea + eb) = Zpos a * Zpos b * 2 ^ 1074).
  { replace (ea + eb) with (- - (ea + eb)) in * by lia.
    apply rounded_exact; [lia|lia| |exact Hexp].
    rewrite Pos2Z.inj_mul, Hma, Hmb.
    replace (- (ea + eb)) with (- ea + - eb) by lia.
    rewrite Z.pow_add_r by lia. ring. }
  - destruct (binary_round_aux_rounded (ma * mb) (ea + eb) Hexp) as (_ & Hs & _).
    rewrite Hval in Hs. apply Hs.
    change (2 ^ 2098) with (2 ^ 53 * (2 ^ 971 * 2 ^ 1074)).
    rewrite Z.mul_assoc. apply Z.mul_lt_mono_pos_r; [reflexivity|].
    apply Z.lt_le_trans with (2 ^ 53 * 1); [lia|].
    apply Z.mul_le_mono_nonneg_l; [lia|]. discriminate.
Qed.

(** The cap and the conversion of [calculateBackoff], for a cap from 0 to
    below [2^53] and a backoff not below zero. *)
Lemma Duration_of_capped (z : Z) (b : float) :
  0 <= z < 2 ^ 53 ->
  (0 <=? b)%float = true ->
  Duration_of_float64
    (if (float64_of_int z <? b)%float then float64_of_int z else b)
  = cappedBackoff z b.
Proof.
  intros Hz Hpos. unfold cappedBackoff.
  pose proof (float64_of_int_scaled z Hz) as Hsz.
  pose proof (Prim2SF_valid (float64_of_int z)) as Vz.
  pose proof (Prim2SF_valid b) as Vb.
  assert (Hp : 0 < 2 ^ 1074) by (apply Z.pow_pos_nonneg; lia).
  destruct (nonneg_scaled b Hpos) as [Hinf|(a & Ha & Ha0)].
  - assert (Hlt : (float64_of_int z <? b)%float = true).
    { rewrite ltb_spec, Hinf.
      destruct (Prim2SF (float64_of_int z)) as [s|s| |[|] m e];
        try discriminate Hsz; reflexivity. }
    rewrite Hlt, Duration_of_float64_of_int by lia.
    unfold float64_trunc. rewrite Hinf. reflexivity.
  - rewrite (float64_trunc_scaled b a Ha).
    rewrite ltb_spec. unfold SFltb.
    rewrite (SFcompare_scaled _ _ _ a Vz Vb Hsz Ha).
    destruct (Z.compare_spec (z * 2 ^ 1074) a) as [Heq|Hlt|Hgt].
    + unfold Duration_of_float64. rewrite (float64_trunc_scaled b a Ha).
      rewrite <- Heq, Z.div_mul by lia.
      destruct (Z.leb_spec (- 2 ^ 63) z); [|lia].
      destruct (Z.ltb_spec z (2 ^ 63)); [cbn [andb]; lia|lia].
    + rewrite Duration_of_float64_of_int by lia.
      assert (z <= a / 2 ^ 1074) by (apply Z.div_le_lower_bound; lia).
      lia.
    + unfold Duration_of_float64. rewrite (float64_trunc_scaled b a Ha).
      assert (0 <= a / 2 ^ 1074) by (apply Z.div_pos; lia).
      assert (a / 2 ^ 1074 <= z) by (apply Z.div_le_upper_bound; lia).
      destruct (Z.leb_spec (- 2 ^ 63) (a / 2 ^ 1074)); [|lia].
      destruct (Z.ltb_spec (a / 2 ^ 1074) (2 ^ 63)); [cbn [andb]; lia|lia].
Qed.

(** The cap keeps the order: of two backoffs in order, the first not below
    zero, the capped durations are in order, and between 0 and the cap. *)
Lemma cappedBackoff_monotone (z : Z) (x y : float) :
  0 <= z ->
  (0 <=? x)%float = true ->
  (x <=? y)%float = true ->
  0 <= cappedBackoff z x <= cappedBackoff z y /\ cappedBackoff z y <= z.
Proof.
  intros Hz Hx Hxy. unfold cappedBackoff.
  assert (Hp : 0 < 2 ^ 1074) by (apply Z.pow_pos_nonneg; lia).
  destruct (leb_scaled x y Hx Hxy) as (Hy & [Hinf|(a & b & Ha & Hb & Hab)]).
  - replace (float64_trunc y) with (@None Z)
      by (unfold float64_trunc; now rewrite Hinf).
    destruct (nonneg_scaled x Hx) as [Hix|(a & Ha & Ha0)].
    + replace (float64_trunc x) with (@None Z)
        by (unfold float64_trunc; now rewrite Hix).
      lia.
    + rewrite (float64_trunc_scaled x a Ha).
      assert (0 <= a / 2 ^ 1074) by (apply Z.div_pos; lia). lia.
  - rewrite (float64_trunc_scaled x a Ha), (float64_trunc_scaled y b Hb).
    assert (0 <= a / 2 ^ 1074) by (apply Z.div_pos; lia).
    assert (a / 2 ^ 1074 <= b / 2 ^ 1074) by (apply Z.div_le_mono; lia).
    lia.
Qed.

(** The capped value of [calculateBackoff], from the value before the cap. *)
Lemma backoffValue_rawBackoff (c : Client) (attempt : Z) (n : nat) :
  backoffValue c attempt n
  = Duration_of_float64
      (if (float64_of_int (MaxBackoff (retryPolicy c)) <? rawBackoff c attempt n)%float
       then float64_of_int (MaxBackoff (retryPolicy c))
       else rawBackoff c attempt n).
Proof. reflexivity. Qed.

(** X9.  The cap of [calculateBackoff] holds for a [MaxBackoff] from 0 to
    below [2^53] nanoseconds (104 days) and a backoff that, before the cap,
    is a number not below zero: the duration returned is between 0 and
    [MaxBackoff], and when the backoff before the cap is above
    [float64(MaxBackoff)] it is [MaxBackoff] to the nanosecond. *)
Theorem calculateBackoff_within_MaxBackoff (c : Client) (attempt : Z) (t : trace) :
  0 <= MaxBackoff (retryPolicy c) < 2 ^ 53 ->
  (0 <=? rawBackoff c attempt (draws t))%float = true ->
  exists d : Duration,
    fst (calculateBackoff c attempt t) = Val d
    /\ 0 <= d <= MaxBackoff (retryPolicy c)
    /\ ((float64_of_int (MaxBackoff (retryPolicy c))
         <? rawBackoff c attempt (draws t))%float = true ->
        d = MaxBackoff (retryPolicy c)).
Proof.
  intros Hmax Hpos. rewrite calculateBackoff_run. cbn [fst].
  eexists. split; [reflexivity|]. rewrite backoffValue_rawBackoff.
  destruct (float64_of_int (MaxBackoff (retryPolicy c))
            <? rawBackoff c attempt (draws t))%float eqn:Hcap.
  - rewrite Duration_of_float64_of_int by lia. split; [lia|reflexivity].
  - split; [|discriminate].
    destruct (float64_trunc_within _ _ Hmax Hpos Hcap) as (d & Hd & Hrange).
    unfold Duration_of_float64. rewrite Hd.
    destruct (Z.leb_spec (- 2 ^ 63) d); [|lia].
    destruct (Z.ltb_spec d (2 ^ 63)); [exact Hrange|lia].
Qed.

(** The backoff when the arithmetic is exact: without jitter, for a power
    that is the integer [k], and a product and a cap below [2^53]. *)
Lemma calculateBackoff_exact (c : Client) (attempt k : Z) (t : trace) :
  (0 <? Jitter (retryPolicy c))%float = false ->
  math_Pow (BackoffFactor (retryPolicy c)) (float64_of_int attempt)
  = float64_of_int k ->
  0 < InitialBackoff (retryPolicy c) ->
  0 < k ->
  InitialBackoff (retryPolicy c) * k < 2 ^ 53 ->
  0 <= MaxBackoff (retryPolicy c) < 2 ^ 53 ->
  calculateBackoff c attempt t
  = (Val (Z.min (InitialBackoff (retryPolicy c) * k) (MaxBackoff (retryPolicy c))),
     t).
Proof.
  intros Hj Hpow Hinit Hk Hprod Hmax.
  rewrite calculateBackoff_run. unfold backoffEvents, backoffValue.
  rewrite Hj, Hpow, app_nil_r. cbv zeta.
  pose proof (float64_mul_exact _ _ Hinit Hk Hprod) as Hs.
  assert (Hpos : (0 <=? float64_of_int (InitialBackoff (retryPolicy c))
                        * float64_of_int k)%float = true).
  { rewrite leb_spec. change (Prim2SF 0) with (S754_zero false).
    exact (SFleb_zero_scaled _ _ Hs). }
  rewrite (Duration_of_capped _ _ Hmax Hpos). unfold cappedBackoff.
  rewrite (float64_trunc_scaled _ _ Hs), Z.div_mul; [reflexivity|].
  apply Z.pow_nonzero; lia.
Qed.

(** C4 (as amended).  What [calculateBackoff] computes, for every policy and
    attempt.  The backoff before the cap is the [float64] product
    [float64(InitialBackoff) * math.Pow(BackoffFactor, float64(attempt))],
    multiplied, when [Jitter > 0], by [1 + r * Jitter] for [r] the next
    value of [rand.Float64] (one draw; none when [Jitter] is not above
    zero).  The duration returned is the conversion of that backoff, or of
    [float64(MaxBackoff)] when the backoff is above it.  For a [MaxBackoff]
    from 0 to below [2^53] nanoseconds and a backoff not below zero, it is
    the minimum of [MaxBackoff] and the integer part of the backoff
    ([MaxBackoff] when the backoff is [+Inf]).  Without jitter, when the
    power is an integer [k] and [InitialBackoff * k] is below [2^53], it is
    the minimum of [InitialBackoff * k] and [MaxBackoff], as integers. *)
Theorem calculateBackoff_min (c : Client) (attempt : Z) (t : trace) :
  let p := retryPolicy c in
  let raw :=
    (float64_of_int (InitialBackoff p)
     * math_Pow (BackoffFactor p) (float64_of_int attempt))%float in
  let backoff :=
    if (0 <? Jitter p)%float
    then (raw * (1 + rand_source (draws t) * Jitter p))%float else raw in
  let capped :=
    if (float64_of_int (MaxBackoff p) <? backoff)%float
    then float64_of_int (MaxBackoff p) else backoff in
  calculateBackoff c attempt t
  = (Val (Duration_of_float64 capped),
     t ++ (if (0 <? Jitter p)%float then [EvRand] else []))
  /\ (0 <= MaxBackoff p < 2 ^ 53 ->
      (0 <=? backoff)%float = true ->
      Duration_of_float64 capped
      = match float64_trunc backoff with
        | Some d => Z.min d (MaxBackoff p)
        | None => MaxBackoff p
        end)
  /\ (forall k : Z,
        (0 <? Jitter p)%float = false ->
        math_Pow (BackoffFactor p) (float64_of_int attempt) = float64_of_int k ->
        0 < InitialBackoff p ->
        0 < k ->
        InitialBackoff p * k < 2 ^ 53 ->
        0 <= MaxBackoff p < 2 ^ 53 ->
        calculateBackoff c attempt t
        = (Val (Z.min (InitialBackoff p * k) (MaxBackoff p)), t)).
Proof.
  intros p raw backoff capped. split; [|split].
  - apply calculateBackoff_run.
  - intros Hmax Hpos. apply (Duration_of_capped _ _ Hmax Hpos).
  - intros k. apply calculateBackoff_exact.
Qed.

(** Without jitter, [calculateBackoff] keeps the order of the backoffs
    before the cap. *)
Lemma calculateBackoff_keeps_order (c : Client) (i j : Z) (t t' : trace) :
  let p := retryPolicy c in
  let raw (a : Z) :=
    (float64_of_int (InitialBackoff p)
     * math_Pow (BackoffFactor p) (float64_of_int a))%float in
  (0 <? Jitter p)%float = false ->
  0 <= MaxBackoff p < 2 ^ 53 ->
  (0 <=? raw i)%float = true ->
  (raw i <=? raw j)%float = true ->
  exists di dj : Duration,
    calculateBackoff c i t = (Val di, t)
    /\ calculateBackoff c j t' = (Val dj, t')
    /\ 0 <= di /\ di <= dj /\ dj <= MaxBackoff p.
Proof.
  intros p raw Hj Hmax Hi Hij.
  destruct (leb_scaled _ _ Hi Hij) as (Hjpos & _).
  destruct (cappedBackoff_monotone (MaxBackoff p) _ _ (proj1 Hmax) Hi Hij)
    as ((H0 & Hle) & Hcap).
  exists (cappedBackoff (MaxBackoff p) (raw i)),
         (cappedBackoff (MaxBackoff p) (raw j)).
  rewrite !calculateBackoff_run. unfold backoffEvents, backoffValue.
  fold p. rewrite Hj, !app_nil_r. cbv zeta. fold (raw i) (raw j).
  rewrite (Duration_of_capped _ _ Hmax Hi), (Duration_of_capped _ _ Hmax Hjpos).
  repeat split; assumption.
Qed.

(** C5 (as amended).  Without jitter, for an [InitialBackoff] above 0 and a
    [MaxBackoff] from 0, both below [2^53] nanoseconds (104 days), the
    backoff follows the power: for two attempts [i] and [j] at which
    [math.Pow(BackoffFactor, float64(a))] is a number not below zero at [i]
    and not less at [j] than at [i] (as for a factor above 1 and [i <= j]),
    the duration [calculateBackoff] returns for [i] is not above the one for
    [j], neither is negative and neither is above [MaxBackoff]; no random
    number is drawn.  The product, the cap and the conversions are those of
    [float64]. *)
Theorem calculateBackoff_monotone (c : Client) (i j : Z) (t t' : trace) :
  let p := retryPolicy c in
  let pow (a : Z) := math_Pow (BackoffFactor p) (float64_of_int a) in
  (0 <? Jitter p)%float = false ->
  0 < InitialBackoff p < 2 ^ 53 ->
  0 <= MaxBackoff p < 2 ^ 53 ->
  (0 <=? pow i)%float = true ->
  (pow i <=? pow j)%float = true ->
  exists di dj : Duration,
    calculateBackoff c i t = (Val di, t)
    /\ calculateBackoff c j t' = (Val dj, t')
    /\ 0 <= di /\ di <= dj /\ dj <= MaxBackoff p.
Proof.
  intros p pow Hj Hinit Hmax Hi Hij.
  destruct (float64_mul_monotone (InitialBackoff p) _ _ Hinit Hi Hij) as (H0 & Hle).
  exact (calculateBackoff_keeps_order c i j t t' Hj Hmax H0 Hle).
Qed.

(** ** The construction of a client *)

(** X10.  [NewClient] applies its options in the order given, each to the
    client the earlier ones left, so the last word on a field is the one
    that counts: after [WithMaxRetries n] the policy has [MaxRetries = n]
    and the other four fields as they were; a [WithRetryPolicy] that comes
    later replaces the whole policy, the retries of an earlier
    [WithMaxRetries] included; a [WithMaxRetries] that comes after a
    [WithRetryPolicy] changes that policy's retries only. *)
Theorem NewClient_applies_options_in_order (b k : string)
    (opts : list ClientOption) :
  (forall o : ClientOption, NewClient b k (opts ++ [o]) = o (NewClient b k opts))
  /\ (forall n : Z,
        let p := retryPolicy (NewClient b k opts) in
        retryPolicy (NewClient b k (opts ++ [WithMaxRetries n]))
        = {| MaxRetries := n; InitialBackoff := InitialBackoff p;
             MaxBackoff := MaxBackoff p; BackoffFactor := BackoffFactor p;
             Jitter := Jitter p |})
  /\ (forall (n : Z) (p : RetryPolicy),
        retryPolicy (NewClient b k (opts ++ [WithMaxRetries n; WithRetryPolicy p]))
        = p)
  /\ (forall (n : Z) (p : RetryPolicy),
        retryPolicy (NewClient b k (opts ++ [WithRetryPolicy p; WithMaxRetries n]))
        = {| MaxRetries := n; InitialBackoff := InitialBackoff p;
             MaxBackoff := MaxBackoff p; BackoffFactor := BackoffFactor p;
             Jitter := Jitter p |}).
Proof.
  unfold NewClient. repeat split; intros; rewrite fold_left_app; reflexivity.
Qed.

(** The options of the library, applied to any client. *)
Lemma library_options_keep (opts : list ClientOption) :
  Forall library_option opts ->
  forall c0 : Client,
    let c := fold_left (fun c option => option c) opts c0 in
    baseURL c = baseURL c0
    /\ apiKey c = apiKey c0
    /\ (Forall (fun o => exists n, o = WithMaxRetries n) opts ->
        httpClient_Timeout c = httpClient_Timeout c0
        /\ environment c = environment c0
        /\ InitialBackoff (retryPolicy c) = InitialBackoff (retryPolicy c0)
        /\ MaxBackoff (retryPolicy c) = MaxBackoff (retryPolicy c0)).
Proof.
  induction opts as [|o opts IH]; intros Hopts c0.
  - simpl. repeat split.
  - inversion Hopts as [|o' opts' Ho Hrest]; subst.
    specialize (IH Hrest (o c0)). cbn [fold_left] in *.
    destruct IH as (Hb & Hk & Hd).
    split; [rewrite Hb; destruct Ho; reflexivity|].
    split; [rewrite Hk; destruct Ho; reflexivity|].
    intros Hall. inversion Hall as [|o' opts' (n & ->) Hall']; subst.
    destruct (Hd Hall') as (H1 & H2 & H3 & H4).
    rewrite H1, H2, H3, H4. repeat split.
Qed.

(** X11.  No option of the library touches the base URL or the API key, and
    each of the other fields keeps its default until an option for it is
    given: a client built with options that set the retries only has the
    timeout of 10 seconds, the environment [Prod] and the backoffs of the
    default policy. *)
Theorem NewClient_keeps_url_and_key (b k : string) (opts : list ClientOption) :
  Forall library_option opts ->
  baseURL (NewClient b k opts) = b
  /\ apiKey (NewClient b k opts) = k
  /\ (Forall (fun o => exists n, o = WithMaxRetries n) opts ->
      httpClient_Timeout (NewClient b k opts) = 10 * Second
      /\ environment (NewClient b k opts) = "Prod"
      /\ InitialBackoff (retryPolicy (NewClient b k opts)) = 100 * Millisecond
      /\ MaxBackoff (retryPolicy (NewClient b k opts)) = 10 * Second).
Proof.
  intros Hopts. unfold NewClient.
  exact (library_options_keep opts Hopts _).
Qed.

(** ** More on the executor *)

(** A run of the executor with a policy that allows an attempt stops at some
    attempt [k], the earlier ones retried. *)
Lemma doRequestWithRetry_stops (c : Client) (req : Request) (t : trace) :
  0 <= MaxRetries (retryPolicy c) ->
  exists k : nat,
    Z.of_nat k <= MaxRetries (retryPolicy c)
    /\ (forall i, (i < k)%nat ->
          retryable (attemptRequest req (Z.of_nat i)) (outcomeAt t req i) = true)
    /\ (retryable (attemptRequest req (Z.of_nat k)) (outcomeAt t req k) = false
        \/ Z.of_nat k = MaxRetries (retryPolicy c))
    /\ stopped_with c req t 0 k (attemptRequest req (Z.of_nat k))
         (outcomeAt t req k) (doRequestWithRetry c req t).
Proof.
  intros Hmax.
  destruct (first_stop
              (fun i => retryable (attemptRequest req (Z.of_nat i)) (outcomeAt t req i))
              (Z.to_nat (MaxRetries (retryPolicy c))))
    as (k & Hk & Hall & Hstop).
  assert (Hstop' : retryable (attemptRequest req (Z.of_nat k)) (outcomeAt t req k)
                   = false \/ Z.of_nat k = MaxRetries (retryPolicy c)).
  { destruct Hstop as [Hf|Hm]; [now left|right; lia]. }
  exists k. split; [lia|]. split; [exact Hall|]. split; [exact Hstop'|].
  apply doRequestWithRetry_run; [lia | exact Hall | exact Hstop'].
Qed.

(** X12.  The success exit hands the response on untouched.  When the
    attempts before attempt [k] were retried and attempt [k] gets a response
    with a status below 500 other than 429, the executor returns that
    response and a nil error, and the exchange of attempt [k] is the last
    event of the run: the executor has neither closed nor read the body it
    returns.  When that is the first attempt the run is one call of
    [httpClient.Do] on the request. *)
Theorem doRequestWithRetry_success_exit (c : Client) (req : Request)
    (t : trace) (k : nat) (r : http_Response) :
  Z.of_nat k <= MaxRetries (retryPolicy c) ->
  (forall i, (i < k)%nat ->
     retryable (attemptRequest req (Z.of_nat i)) (outcomeAt t req i) = true) ->
  outcomeAt t req k = Responded r ->
  StatusCode r < 500 ->
  StatusCode r <> 429 ->
  (exists l0 : trace,
     doRequestWithRetry c req t
     = (Val (Some r, None), t ++ l0 ++ [EvDo (attemptRequest req (Z.of_nat k))])
     /\ attempts l0 = k)
  /\ (k = 0%nat -> doRequestWithRetry c req t = httpClient_Do req t).
Proof.
  intros Hk Hretry Hout Hlt Hne.
  assert (Hsucc : succeeded (outcomeAt t req k) = true).
  { rewrite Hout. unfold succeeded.
    destruct (Z.ltb_spec (StatusCode r) 500); [|lia].
    destruct (Z.eqb_spec (StatusCode r) 429); [lia|reflexivity]. }
  destruct (doRequestWithRetry_run c req t k Hk Hretry)
    as (l & Hres & Hatt & _ & _ & _ & Hlast & Hev).
  { left. unfold retryable. now rewrite Hsucc. }
  destruct (Hlast Hsucc) as (l0 & Hl0).
  rewrite Hout in Hres. cbn [Do_resp Do_err] in Hres.
  split.
  - exists l0. split; [now rewrite Hres, Hl0|].
    rewrite Hl0, attempts_app in Hatt. cbn in Hatt. lia.
  - intros ->. rewrite Hres, Hev, httpClient_Do_run.
    cbn [runEvents]. unfold outcomeAt in Hout, Hsucc.
    rewrite Nat.add_0_r in Hout, Hsucc.
    change (Z.of_nat 0) with 0 in *. rewrite attemptRequest_0 in *.
    now rewrite Hsucc, Hout, app_nil_r.
Qed.

(** X13.  Which first attempts are followed by a second one.  With a policy
    that allows a retry, the executor makes a second exchange exactly: after
    a response without error, when its status is from 500 up and not 501, or
    is 429; after a transport failure, when [errors.Is] finds
    [context.DeadlineExceeded] or [context.Canceled] for its cause, in the
    chain of the cause or through an [Is] method (as for the client's own
    timeout), whatever its message says; after a refused redirect, in either
    case. *)
Theorem doRequestWithRetry_second_attempt (c : Client) (req : Request) (t : trace) :
  1 <= MaxRetries (retryPolicy c) ->
  (forall r : http_Response,
     outcomeAt t req 0 = Responded r ->
     (attempts t + 2 <= attempts (snd (doRequestWithRetry c req t)))%nat
     <-> (500 <= StatusCode r /\ StatusCode r <> 501) \/ StatusCode r = 429)
  /\ (forall e : error,
        outcomeAt t req 0 = Failed e ->
        (attempts t + 2 <= attempts (snd (doRequestWithRetry c req t)))%nat
        <-> errors_Is e DeadlineExceeded = true \/ errors_Is e Canceled = true)
  /\ (forall (r : http_Response) (loc : string) (e : error),
        outcomeAt t req 0 = RedirectRefused r loc e ->
        (attempts t + 2 <= attempts (snd (doRequestWithRetry c req t)))%nat
        <-> errors_Is e DeadlineExceeded = true \/ errors_Is e Canceled = true
            \/ (500 <= StatusCode r /\ StatusCode r <> 501) \/ StatusCode r = 429).
Proof.
  intros Hmax.
  destruct (doRequestWithRetry_stops c req t) as (k & Hk & Hall & Hstop & Hrun);
    [lia|].
  destruct Hrun as (l & Hres & Hatt & _).
  assert (Hiff : (attempts t + 2 <= attempts (snd (doRequestWithRetry c req t)))%nat
                 <-> retryable (attemptRequest req (Z.of_nat 0)) (outcomeAt t req 0)
                     = true).
  { rewrite Hres. cbn [snd]. rewrite attempts_app, Hatt. split.
    - intros Hle. apply Hall. lia.
    - intros Hr. destruct k; [|lia].
      destruct Hstop as [Hf|Hm]; [congruence|simpl in Hm; lia]. }
  assert (Hstatus : forall s, (s >=? 500) && negb (s =? 501) || (s =? 429) = true
                              <-> (500 <= s /\ s <> 501) \/ s = 429).
  { intros s. rewrite orb_true_iff, andb_true_iff, negb_true_iff.
    rewrite Z.geb_le, !Z.eqb_eq, Z.eqb_neq. tauto. }
  split; [|split].
  - intros r Hout. rewrite Hiff, Hout. unfold retryable, succeeded, statusOf.
    cbn [Do_resp Do_err]. unfold ShouldRetry. rewrite <- Hstatus.
    destruct (Z.ltb_spec (StatusCode r) 500) as [Hlt|Hge];
      destruct (Z.eqb_spec (StatusCode r) 429) as [H429|H429];
      destruct (Z.geb_spec (StatusCode r) 500);
      destruct (Z.eqb_spec (StatusCode r) 501); simpl; try lia; tauto.
  - intros e Hout. rewrite Hiff, Hout. unfold retryable, succeeded, statusOf.
    cbn [Do_resp Do_err negb andb]. rewrite ShouldRetry_url_Error.
    cbn. rewrite !orb_false_r, orb_true_iff. tauto.
  - intros r loc e Hout. rewrite Hiff, Hout. unfold retryable, succeeded, statusOf.
    cbn [Do_resp Do_err negb andb]. rewrite ShouldRetry_url_Error.
    rewrite <- Hstatus, !orb_true_iff. clear. tauto.
Qed.

Lemma draws_runEvents (c : Client) (req : Request) :
  forall (n : nat) (a : Z) (nd dr : nat),
    draws (runEvents c req n a nd dr) = (n * draws (backoffEvents c))%nat.
Proof.
  induction n as [|n IH]; intros a nd dr; cbn [runEvents].
  - rewrite draws_app, draws_Do_events.
    destruct (succeeded _); [reflexivity|]. now rewrite draws_closeEvents.
  - rewrite !draws_app, draws_Do_events, draws_closeEvents, draws_sleep, IH.
    simpl. lia.
Qed.

(** X14.  The random source is consulted once for each sleep when the
    policy's [Jitter] is above zero, and never otherwise: a run of the
    executor draws as many random numbers as it sleeps, or none. *)
Theorem doRequestWithRetry_draws (c : Client) (req : Request) (t : trace) :
  0 <= MaxRetries (retryPolicy c) ->
  exists (r : option http_Response * option error) (l : trace),
    doRequestWithRetry c req t = (Val r, t ++ l)
    /\ draws l
       = (if (0 <? Jitter (retryPolicy c))%float
          then List.length (sleeps l) else 0%nat).
Proof.
  intros Hmax.
  destruct (doRequestWithRetry_stops c req t Hmax) as (k & _ & _ & _ & Hrun).
  destruct Hrun as (l & Hres & _ & Hslp & _ & _ & _ & Hev).
  eexists; exists l. split; [exact Hres|].
  rewrite Hslp, length_map, length_seq, Hev, draws_runEvents.
  unfold backoffEvents, draws.
  destruct (0 <? Jitter (retryPolicy c))%float; simpl; lia.
Qed.

(** ** The operations and their scheme *)

(** Each operation is the scheme at its path, with its decoding, and sends
    through the executor or, for two of them, with [httpClient.Do]. *)
Lemma CreateInfoRequest_scheme (c : Client) (input : CreateInfoRequestInput) :
  CreateInfoRequest c input
  = operation (doRequestWithRetry c) c "/gdpr?action=create" None
      decode_CreateInfo (default_cii_ApiKey c input).
Proof. reflexivity. Qed.

Lemma CreateDeleteRequest_scheme (c : Client) (input : CreateDeleteRequestInput) :
  CreateDeleteRequest c input
  = operation (doRequestWithRetry c) c "/gdpr?controller=delete&action=create" None
      (decode_data zero_DeleteRequest None) (default_cdi_ApiKey c input).
Proof. reflexivity. Qed.

Lemma FetchInfoRequest_scheme (c : Client) (input : FetchRequestInput) :
  FetchInfoRequest c input
  = operation (doRequestWithRetry c) c "/gdpr?action=fetch" None
      (decode_data zero_InfoRequest (Some "info request not found"))
      (default_fri_ApiKey c input).
Proof. reflexivity. Qed.

Lemma FetchDeleteRequest_scheme (c : Client) (input : FetchRequestInput) :
  FetchDeleteRequest c input
  = operation httpClient_Do c "/gdpr?controller=delete&action=fetch" None
      (decode_data zero_DeleteRequest (Some "delete request not found"))
      (default_fri_ApiKey c input).
Proof. reflexivity. Qed.

Lemma UpdateInfoRequest_scheme (c : Client) (input : UpdateRequestInput) :
  UpdateInfoRequest c input
  = operation (doRequestWithRetry c) c "/gdpr?action=update" false
      decode_ok (default_uri_ApiKey c input).
Proof. reflexivity. Qed.

Lemma UpdateDeleteRequest_scheme (c : Client) (input : UpdateRequestInput) :
  UpdateDeleteRequest c input
  = operation httpClient_Do c "/gdpr?controller=delete&action=update" false
      decode_ok (default_uri_ApiKey c input).
Proof. reflexivity. Qed.

Lemma DeleteInfoRequest_scheme (c : Client) (input : DeleteRequestInput) :
  DeleteInfoRequest c input
  = operation (doRequestWithRetry c) c "/gdpr?action=delete" false
      decode_ok (default_dri_ApiKey c input).
Proof. reflexivity. Qed.

Lemma DeleteRequest_scheme (c : Client) (input : DeleteRequestInput) :
  DeleteRequest_ c input
  = operation (doRequestWithRetry c) c "/gdpr?controller=delete&action=delete" false
      decode_ok (default_dri_ApiKey c input).
Proof. reflexivity. Qed.

Lemma FetchAllInfoRequests_scheme (c : Client) (input : FetchAllRequestInput) :
  FetchAllInfoRequests c input
  = operation (doRequestWithRetry c) c "/gdpr?action=fetchAll" None
      (decode_data zero_PaginatedResponse None)
      (default_fai_ApiKey c input).
Proof. reflexivity. Qed.

Lemma FetchInfoRequestsByType_scheme (c : Client) (input : FetchByTypeInput) :
  FetchInfoRequestsByType c input
  = operation (doRequestWithRetry c) c "/gdpr?action=fetchByType" None
      (decode_data zero_PaginatedResponse None)
      (default_fti_ApiKey c input).
Proof. reflexivity. Qed.

Lemma FetchDeleteRequestsByStatus_scheme (c : Client) (input : FetchByStatusInput) :
  FetchDeleteRequestsByStatus c input
  = operation (doRequestWithRetry c) c "/gdpr?controller=delete&action=fetchByStatus" None
      (decode_data zero_PaginatedResponse None)
      (default_fsi_ApiKey c input).
Proof. reflexivity. Qed.

Lemma FetchRequestsByCreator_scheme (c : Client) (input : FetchByCreatorInput) :
  FetchRequestsByCreator c input
  = operation (doRequestWithRetry c) c "/gdpr?action=fetchByCreator" None
      (decode_data zero_PaginatedResponse None)
      (default_fci_ApiKey c input).
Proof. reflexivity. Qed.

Lemma FetchDeleteRequestsByCreator_scheme (c : Client) (input : FetchByCreatorInput) :
  FetchDeleteRequestsByCreator c input
  = operation (doRequestWithRetry c) c "/gdpr?controller=delete&action=fetchByCreator" None
      (decode_data zero_PaginatedResponse None)
      (default_fci_ApiKey c input).
Proof. reflexivity. Qed.

(** The decodings only read, decode and log. *)
Lemma local_decode_CreateInfo (resp : http_Response) (body : string)
    (err : option error) : local (decode_CreateInfo resp body err).
Proof. unfold decode_CreateInfo. repeat local_step. Qed.

Lemma local_decode_data {A : Type} {Unmarshal_A : Unmarshaler A} (zero_A : A)
    (missing : option string) (resp : http_Response) (body : string)
    (err : option error) : local (decode_data zero_A missing resp body err).
Proof. unfold decode_data. cbv zeta. repeat local_step. Qed.

Lemma local_decode_ok (resp : http_Response) (body : string)
    (err : option error) : local (decode_ok resp body err).
Proof. unfold decode_ok. repeat local_step. Qed.

Lemma local_handle {A : Type} (zero : A)
    (decode : http_Response -> string -> option error -> M (A * option error))
    (x : option http_Response * option error) :
  (forall resp body err, local (decode resp body err)) ->
  local (handle zero decode x).
Proof.
  intros Hdecode. unfold handle. destruct x as [resp err].
  repeat local_step. apply Hdecode.
Qed.

(** An operation whose preparation succeeds is the sending of its request
    and the handling of the result. *)
Lemma operation_sent {I A : Type} {Marshal_I : Marshaler I}
    (send : Request -> M (option http_Response * option error))
    (c : Client) (path : string) (zero : A)
    (decode : http_Response -> string -> option error -> M (A * option error))
    (input : I) (body : string) :
  json_Marshal input = (body, None) ->
  url_Parse_err (baseURL c ++ path) = None ->
  operation send c path zero decode input
  = bind (send (postJSON c path body)) (handle zero decode).
Proof.
  intros Hm Hu. unfold operation, http_NewRequest. now rewrite Hm, Hu.
Qed.

Lemma operation_fails_before_sending {I A : Type} {Marshal_I : Marshaler I}
    (send : Request -> M (option http_Response * option error))
    (c : Client) (path : string) (zero : A)
    (decode : http_Response -> string -> option error -> M (A * option error))
    (input : I) (t : trace) (body : string) (e : error) :
  (json_Marshal input = (body, Some e) ->
   operation send c path zero decode input t
   = (Val (zero, Some (errors_New ("failed to marshal request body: " ++ Error e))), t))
  /\ (json_Marshal input = (body, None) ->
      url_Parse_err (baseURL c ++ path) = Some e ->
      operation send c path zero decode input t
      = (Val (zero, Some (errors_New ("failed to create request: " ++ Error e))), t)).
Proof.
  unfold operation, http_NewRequest. split.
  - intros ->. reflexivity.
  - intros -> ->. reflexivity.
Qed.

(** Past the last attempt the loop returns what it holds. *)
Lemma attemptLoop_done (fuel : nat) (c : Client) (req : Request) (a : Z)
    (resp : option http_Response) (err : option error) (t : trace) :
  MaxRetries (retryPolicy c) < a ->
  attemptLoop fuel c req a resp err t = (Val (resp, err), t).
Proof.
  intros H. destruct fuel; simpl;
    destruct (Z.leb_spec a (MaxRetries (retryPolicy c))); try lia; reflexivity.
Qed.

Lemma operation_panics_without_attempts {I A : Type} {Marshal_I : Marshaler I}
    (c : Client) (path : string) (zero : A)
    (decode : http_Response -> string -> option error -> M (A * option error))
    (input : I) (t : trace) (body : string) :
  MaxRetries (retryPolicy c) < 0 ->
  json_Marshal input = (body, None) ->
  url_Parse_err (baseURL c ++ path) = None ->
  operation (doRequestWithRetry c) c path zero decode input t
  = (Panic "nil pointer dereference", t).
Proof.
  intros Hneg Hm Hu. rewrite (operation_sent _ _ _ _ _ _ _ Hm Hu).
  unfold bind, doRequestWithRetry. now rewrite attemptLoop_done by lia.
Qed.

(** What [handle] does with a response whose body is closed, and with one
    whose status is not 200. *)
Lemma handle_closed_body {A : Type} (zero : A)
    (decode : http_Response -> string -> option error -> M (A * option error))
    (resp : http_Response) (t : trace) :
  closed (body_id (Body resp)) t = true ->
  StatusCode resp <> 200 ->
  handle zero decode (Some resp, None) t
  = (Val (zero, Some (closed_body_report resp)),
     t ++ [EvRead (body_id (Body resp)); EvClose (body_id (Body resp))]).
Proof.
  intros Hc Hs. unfold handle, defer_Close, bind, io_ReadAll, ret, closed_body_report.
  rewrite Hc. destruct (read_after_close (Body resp)) as [data [e|]].
  - cbn. now rewrite <- app_assoc.
  - destruct (Z.eqb_spec (StatusCode resp) 200) as [|_]; [contradiction|].
    cbn. now rewrite <- app_assoc.
Qed.

Lemma closed_body_report_cases (resp : http_Response) :
  (read_after_close (Body resp) = ("", Some http_ErrBodyReadAfterClose) ->
   closed_body_report resp
   = errors_New "failed to read response body: http: read on closed response body")
  /\ (Body resp = http_NoBody (body_id (Body resp)) ->
      closed_body_report resp
      = errors_New ("request failed with status "
                    ++ Str.itoa (StatusCode resp) ++ ": ")).
Proof.
  unfold closed_body_report. split.
  - intros ->. reflexivity.
  - intros ->. reflexivity.
Qed.

Lemma handle_status {A : Type} (zero : A)
    (decode : http_Response -> string -> option error -> M (A * option error))
    (resp : http_Response) (t : trace) :
  StatusCode resp <> 200 ->
  closed (body_id (Body resp)) t = false ->
  was_read (body_id (Body resp)) t = false ->
  body_err (Body resp) = None ->
  handle zero decode (Some resp, None) t
  = (Val (zero,
          Some (errors_New ("request failed with status "
                            ++ Str.itoa (StatusCode resp) ++ ": "
                            ++ body_bytes (Body resp)))),
     t ++ [EvRead (body_id (Body resp)); EvClose (body_id (Body resp))]).
Proof.
  intros Hs Hc Hr He. unfold handle, defer_Close, bind, io_ReadAll, ret.
  rewrite Hc, Hr, He.
  destruct (Z.eqb_spec (StatusCode resp) 200) as [|_]; [contradiction|].
  cbn. now rewrite <- app_assoc.
Qed.

(** The response the executor returns with a failing status has a closed
    body. *)
Lemma doRequestWithRetry_failing_status_closed (c : Client) (req : Request)
    (t t1 : trace) (resp : http_Response) :
  0 <= MaxRetries (retryPolicy c) ->
  doRequestWithRetry c req t = (Val (Some resp, None), t1) ->
  500 <= StatusCode resp \/ StatusCode resp = 429 ->
  closed (body_id (Body resp)) t1 = true.
Proof.
  intros Hmax Hrun Hstatus.
  destruct (doRequestWithRetry_stops c req t Hmax) as (k & _ & _ & _ & Hstop).
  destruct Hstop as (l & Hres & _ & _ & _ & Hclosed & _).
  rewrite Hrun in Hres. injection Hres as Hr He Ht. subst t1.
  rewrite closed_app, Hclosed; [apply orb_true_r| |now symmetry].
  destruct (outcomeAt t req k) as [r'|e'|r' e']; simpl in *; try reflexivity.
  injection Hr as ->.
  destruct Hstatus as [H500|H429].
  - destruct (Z.ltb_spec (StatusCode r') 500); [lia|reflexivity].
  - rewrite H429. reflexivity.
Qed.

Lemma operation_reports_closed_body {I A : Type} {Marshal_I : Marshaler I}
    (c : Client) (path : string) (zero : A)
    (decode : http_Response -> string -> option error -> M (A * option error))
    (input : I) (t t1 : trace) (body : string) (resp : http_Response) :
  0 <= MaxRetries (retryPolicy c) ->
  json_Marshal input = (body, None) ->
  url_Parse_err (baseURL c ++ path) = None ->
  doRequestWithRetry c (postJSON c path body) t = (Val (Some resp, None), t1) ->
  500 <= StatusCode resp \/ StatusCode resp = 429 ->
  operation (doRequestWithRetry c) c path zero decode input t
  = (Val (zero, Some (closed_body_report resp)),
     t1 ++ [EvRead (body_id (Body resp)); EvClose (body_id (Body resp))]).
Proof.
  intros Hmax Hm Hu Hrun Hstatus. rewrite (operation_sent _ _ _ _ _ _ _ Hm Hu).
  unfold bind at 1. rewrite Hrun. apply handle_closed_body; [|lia].
  exact (doRequestWithRetry_failing_status_closed c _ t t1 resp Hmax Hrun Hstatus).
Qed.

Lemma operation_reports_status {I A : Type} {Marshal_I : Marshaler I}
    (send : Request -> M (option http_Response * option error))
    (c : Client) (path : string) (zero : A)
    (decode : http_Response -> string -> option error -> M (A * option error))
    (input : I) (t t1 : trace) (body : string) (resp : http_Response) :
  json_Marshal input = (body, None) ->
  url_Parse_err (baseURL c ++ path) = None ->
  send (postJSON c path body) t = (Val (Some resp, None), t1) ->
  StatusCode resp <> 200 ->
  closed (body_id (Body resp)) t1 = false ->
  was_read (body_id (Body resp)) t1 = false ->
  body_err (Body resp) = None ->
  operation send c path zero decode input t
  = (Val (zero,
          Some (errors_New ("request failed with status "
                            ++ Str.itoa (StatusCode resp) ++ ": "
                            ++ body_bytes (Body resp)))),
     t1 ++ [EvRead (body_id (Body resp)); EvClose (body_id (Body resp))]).
Proof.
  intros Hm Hu Hrun Hs Hc Hr He. rewrite (operation_sent _ _ _ _ _ _ _ Hm Hu).
  unfold bind at 1. rewrite Hrun. now apply handle_status.
Qed.

(** Rewriting an operation into its scheme. *)
Ltac to_scheme :=
  first
    [ rewrite CreateInfoRequest_scheme
    | rewrite CreateDeleteRequest_scheme
    | rewrite FetchInfoRequest_scheme
    | rewrite FetchDeleteRequest_scheme
    | rewrite UpdateInfoRequest_scheme
    | rewrite UpdateDeleteRequest_scheme
    | rewrite DeleteInfoRequest_scheme
    | rewrite DeleteRequest_scheme
    | rewrite FetchAllInfoRequests_scheme
    | rewrite FetchInfoRequestsByType_scheme
    | rewrite FetchDeleteRequestsByStatus_scheme
    | rewrite FetchRequestsByCreator_scheme
    | rewrite FetchDeleteRequestsByCreator_scheme ].

(** X15.  Each of the thirteen operations, when the encoding of its input
    fails or its URL does not parse, returns the error under the prefix
    [failed to marshal request body: ] or [failed to create request: ], with
    no value, and does nothing else: no request is sent, nothing is read or
    logged. *)
Theorem operations_fail_before_sending :
  fails_before_sending default_cii_ApiKey "/gdpr?action=create" None CreateInfoRequest
  /\ fails_before_sending default_cdi_ApiKey "/gdpr?controller=delete&action=create"
       None CreateDeleteRequest
  /\ fails_before_sending default_fri_ApiKey "/gdpr?action=fetch" None FetchInfoRequest
  /\ fails_before_sending default_fri_ApiKey "/gdpr?controller=delete&action=fetch"
       None FetchDeleteRequest
  /\ fails_before_sending default_uri_ApiKey "/gdpr?action=update" false UpdateInfoRequest
  /\ fails_before_sending default_uri_ApiKey "/gdpr?controller=delete&action=update"
       false UpdateDeleteRequest
  /\ fails_before_sending default_dri_ApiKey "/gdpr?action=delete" false DeleteInfoRequest
  /\ fails_before_sending default_dri_ApiKey "/gdpr?controller=delete&action=delete"
       false DeleteRequest_
  /\ fails_before_sending default_fai_ApiKey "/gdpr?action=fetchAll" None
       FetchAllInfoRequests
  /\ fails_before_sending default_fti_ApiKey "/gdpr?action=fetchByType" None
       FetchInfoRequestsByType
  /\ fails_before_sending default_fsi_ApiKey "/gdpr?controller=delete&action=fetchByStatus"
       None FetchDeleteRequestsByStatus
  /\ fails_before_sending default_fci_ApiKey "/gdpr?action=fetchByCreator" None
       FetchRequestsByCreator
  /\ fails_before_sending default_fci_ApiKey "/gdpr?controller=delete&action=fetchByCreator"
       None FetchDeleteRequestsByCreator.
Proof.
  repeat apply conj; intros c input t body e; to_scheme;
    apply operation_fails_before_sending.
Qed.

(** X16.  A client whose policy has a negative [MaxRetries] (as
    [WithMaxRetries(-1)] gives) cannot use the eleven operations that send
    through the executor: the executor returns a nil response and a nil
    error without an exchange, and the operation panics on the nil response
    with nothing sent. *)
Theorem operations_panic_without_attempts :
  panics_without_attempts default_cii_ApiKey "/gdpr?action=create" CreateInfoRequest
  /\ panics_without_attempts default_cdi_ApiKey "/gdpr?controller=delete&action=create"
       CreateDeleteRequest
  /\ panics_without_attempts default_fri_ApiKey "/gdpr?action=fetch" FetchInfoRequest
  /\ panics_without_attempts default_uri_ApiKey "/gdpr?action=update" UpdateInfoRequest
  /\ panics_without_attempts default_dri_ApiKey "/gdpr?action=delete" DeleteInfoRequest
  /\ panics_without_attempts default_dri_ApiKey "/gdpr?controller=delete&action=delete"
       DeleteRequest_
  /\ panics_without_attempts default_fai_ApiKey "/gdpr?action=fetchAll"
       FetchAllInfoRequests
  /\ panics_without_attempts default_fti_ApiKey "/gdpr?action=fetchByType"
       FetchInfoRequestsByType
  /\ panics_without_attempts default_fsi_ApiKey
       "/gdpr?controller=delete&action=fetchByStatus" FetchDeleteRequestsByStatus
  /\ panics_without_attempts default_fci_ApiKey "/gdpr?action=fetchByCreator"
       FetchRequestsByCreator
  /\ panics_without_attempts default_fci_ApiKey
       "/gdpr?controller=delete&action=fetchByCreator" FetchDeleteRequestsByCreator.
Proof.
  repeat apply conj; intros c input t body Hneg Hm Hu; to_scheme;
    now apply operation_panics_without_attempts with (body := body).
Qed.

(** X19.  After a run of the executor that ends on a response with a status
    from 500 up, or 429 (the retries are used up, or the status is 501), the
    eleven operations that send through the executor read a body the
    executor has closed.  When the response has content, its body refuses
    the read and the operation returns [failed to read response body: http:
    read on closed response body] in place of the status; when it has none
    (its body is [http.NoBody]) the read gives nothing and the operation
    returns [request failed with status N: ]. *)
Theorem operations_report_closed_body :
  reports_closed_body default_cii_ApiKey "/gdpr?action=create" None CreateInfoRequest
  /\ reports_closed_body default_cdi_ApiKey "/gdpr?controller=delete&action=create"
       None CreateDeleteRequest
  /\ reports_closed_body default_fri_ApiKey "/gdpr?action=fetch" None FetchInfoRequest
  /\ reports_closed_body default_uri_ApiKey "/gdpr?action=update" false UpdateInfoRequest
  /\ reports_closed_body default_dri_ApiKey "/gdpr?action=delete" false DeleteInfoRequest
  /\ reports_closed_body default_dri_ApiKey "/gdpr?controller=delete&action=delete"
       false DeleteRequest_
  /\ reports_closed_body default_fai_ApiKey "/gdpr?action=fetchAll" None
       FetchAllInfoRequests
  /\ reports_closed_body default_fti_ApiKey "/gdpr?action=fetchByType" None
       FetchInfoRequestsByType
  /\ reports_closed_body default_fsi_ApiKey "/gdpr?controller=delete&action=fetchByStatus"
       None FetchDeleteRequestsByStatus
  /\ reports_closed_body default_fci_ApiKey "/gdpr?action=fetchByCreator" None
       FetchRequestsByCreator
  /\ reports_closed_body default_fci_ApiKey "/gdpr?controller=delete&action=fetchByCreator"
       None FetchDeleteRequestsByCreator.
Proof.
  repeat apply conj; intros c input t t1 body resp Hmax Hm Hu Hrun Hs;
    (split; [|apply closed_body_report_cases]); to_scheme;
    now apply operation_reports_closed_body with (body := body).
Qed.

(** X20.  A response with a status other than 200 whose body is open and
    read in full makes each operation return [request failed with status N:
    ] followed by the text of the body, with no value, after it has read and
    closed the body.  For the two operations that call [httpClient.Do] this
    covers every status; the executor hands on an open body only for a
    status below 500 other than 429. *)
Theorem operations_report_status :
  reports_status doRequestWithRetry default_cii_ApiKey "/gdpr?action=create" None
    CreateInfoRequest
  /\ reports_status doRequestWithRetry default_cdi_ApiKey
       "/gdpr?controller=delete&action=create" None CreateDeleteRequest
  /\ reports_status doRequestWithRetry default_fri_ApiKey "/gdpr?action=fetch" None
       FetchInfoRequest
  /\ reports_status (fun _ => httpClient_Do) default_fri_ApiKey
       "/gdpr?controller=delete&action=fetch" None FetchDeleteRequest
  /\ reports_status doRequestWithRetry default_uri_ApiKey "/gdpr?action=update" false
       UpdateInfoRequest
  /\ reports_status (fun _ => httpClient_Do) default_uri_ApiKey
       "/gdpr?controller=delete&action=update" false UpdateDeleteRequest
  /\ reports_status doRequestWithRetry default_dri_ApiKey "/gdpr?action=delete" false
       DeleteInfoRequest
  /\ reports_status doRequestWithRetry default_dri_ApiKey
       "/gdpr?controller=delete&action=delete" false DeleteRequest_
  /\ reports_status doRequestWithRetry default_fai_ApiKey "/gdpr?action=fetchAll" None
       FetchAllInfoRequests
  /\ reports_status doRequestWithRetry default_fti_ApiKey "/gdpr?action=fetchByType"
       None FetchInfoRequestsByType
  /\ reports_status doRequestWithRetry default_fsi_ApiKey
       "/gdpr?controller=delete&action=fetchByStatus" None FetchDeleteRequestsByStatus
  /\ reports_status doRequestWithRetry default_fci_ApiKey "/gdpr?action=fetchByCreator"
       None FetchRequestsByCreator
  /\ reports_status doRequestWithRetry default_fci_ApiKey
       "/gdpr?controller=delete&action=fetchByCreator" None
       FetchDeleteRequestsByCreator.
Proof.
  repeat apply conj; intros c input t t1 body resp Hm Hu Hrun Hs Hc Hr He;
    to_scheme; now apply operation_reports_status with (body := body).
Qed.

(** ** The shape of the results *)

Lemma value_xor_error_value {A : Type} (present : A -> bool) (a : A) :
  present a = true -> value_xor_error present (ret (a, None)).
Proof. intros H t. exact H. Qed.

Lemma value_xor_error_error {A : Type} (present : A -> bool) (a : A) (e : error) :
  present a = false -> value_xor_error present (ret (a, Some e)).
Proof. intros H t. exact H. Qed.

(** A step that always returns, followed by well-formed continuations. *)
Lemma value_xor_error_bind {A B : Type} (present : A -> bool) (m : M B)
    (k : B -> M (A * option error)) (good : B -> Prop) :
  (forall t, exists b t', m t = (Val b, t') /\ good b) ->
  (forall b, good b -> value_xor_error present (k b)) ->
  value_xor_error present (bind m k).
Proof.
  intros Hm Hk t. unfold bind.
  destruct (Hm t) as (b & t' & -> & Hb). exact (Hk b Hb t').
Qed.

Lemma value_xor_error_defer_Close {A : Type} (present : A -> bool)
    (r : http_Response) (rest : M (A * option error)) :
  value_xor_error present rest -> value_xor_error present (defer_Close r rest).
Proof.
  intros H t. unfold defer_Close. specialize (H t).
  now destruct (rest t) as [x t'].
Qed.

Ltac shape_step :=
  first
    [ apply value_xor_error_value; reflexivity
    | apply value_xor_error_error; reflexivity
    | apply value_xor_error_defer_Close
    | apply value_xor_error_bind with (good := fun _ => True);
        [intros ?; unfold io_ReadAll, log_Printf, emit; eauto | intros ? _]
    | match goal with
      | |- value_xor_error _ (match ?x with _ => _ end) => destruct x
      end ].

Lemma decode_CreateInfo_shape (resp : http_Response) (body : string)
    (err : option error) :
  value_xor_error is_value (decode_CreateInfo resp body err).
Proof. unfold decode_CreateInfo. repeat shape_step. Qed.

Lemma decode_data_shape {A : Type} {Unmarshal_A : Unmarshaler A} (zero_A : A)
    (missing : option string) (resp : http_Response) (body : string)
    (err : option error) :
  value_xor_error is_value (decode_data zero_A missing resp body err).
Proof. unfold decode_data. cbv zeta. repeat shape_step. Qed.

Lemma decode_ok_shape (resp : http_Response) (body : string) (err : option error) :
  value_xor_error (fun ok : bool => ok) (decode_ok resp body err).
Proof. unfold decode_ok. repeat shape_step. Qed.

(** What [httpClient.Do] returns is never a nil response with a nil error. *)
Lemma Do_result_not_nil (req : Request) (o : outcome) :
  (Do_resp o, Do_err req o) <> (None, None).
Proof. destruct o; discriminate. Qed.

Lemma handle_shape {A : Type} (present : A -> bool) (zero : A)
    (decode : http_Response -> string -> option error -> M (A * option error))
    (x : option http_Response * option error) :
  present zero = false ->
  (forall resp body err, value_xor_error present (decode resp body err)) ->
  x <> (None, None) ->
  value_xor_error present (handle zero decode x).
Proof.
  intros Hzero Hdecode Hx. unfold handle. destruct x as [[resp|] [e|]];
    try (apply value_xor_error_error; exact Hzero); [|contradiction].
  apply value_xor_error_defer_Close.
  apply value_xor_error_bind with (good := fun _ => True);
    [intros t; unfold io_ReadAll; eauto | intros [responseBody err] _].
  destruct err; [apply value_xor_error_error; exact Hzero|].
  destruct (negb (StatusCode resp =? 200));
    [apply value_xor_error_error; exact Hzero | apply Hdecode].
Qed.

Lemma operation_shape {I A : Type} {Marshal_I : Marshaler I}
    (present : A -> bool)
    (send : Request -> M (option http_Response * option error))
    (c : Client) (path : string) (zero : A)
    (decode : http_Response -> string -> option error -> M (A * option error))
    (input : I) :
  present zero = false ->
  (forall resp body err, value_xor_error present (decode resp body err)) ->
  (forall req t, exists x t', send req t = (Val x, t') /\ x <> (None, None)) ->
  value_xor_error present (operation send c path zero decode input).
Proof.
  intros Hzero Hdecode Hsend. unfold operation, http_NewRequest.
  destruct (json_Marshal input) as [body [e|]];
    [apply value_xor_error_error; exact Hzero|].
  destruct (url_Parse_err _); [apply value_xor_error_error; exact Hzero|].
  apply value_xor_error_bind with (good := fun x => x <> (None, None));
    [apply Hsend|].
  intros x Hx. now apply handle_shape.
Qed.

Lemma httpClient_Do_returns (req : Request) (t : trace) :
  exists x t', httpClient_Do req t = (Val x, t') /\ x <> (None, None).
Proof.
  rewrite httpClient_Do_run. eexists; eexists. split; [reflexivity|].
  apply Do_result_not_nil.
Qed.

Lemma doRequestWithRetry_returns (c : Client) (req : Request) (t : trace) :
  0 <= MaxRetries (retryPolicy c) ->
  exists x t', doRequestWithRetry c req t = (Val x, t') /\ x <> (None, None).
Proof.
  intros Hmax.
  destruct (doRequestWithRetry_stops c req t Hmax) as (k & _ & _ & _ & Hstop).
  destruct Hstop as (l & Hres & _).
  eexists; eexists. split; [exact Hres|]. apply Do_result_not_nil.
Qed.

(** X17.  Every operation returns, and returns either a value and a nil
    error or no value and an error, never both and never neither: the
    pointer is non-nil, or the boolean true, exactly when the error is nil.
    For the operations that send through the executor this needs a policy
    that allows an attempt ([MaxRetries] not negative). *)
Theorem operations_value_xor_error :
  (forall c input, 0 <= MaxRetries (retryPolicy c) ->
     value_xor_error is_value (CreateInfoRequest c input))
  /\ (forall c input, 0 <= MaxRetries (retryPolicy c) ->
        value_xor_error is_value (CreateDeleteRequest c input))
  /\ (forall c input, 0 <= MaxRetries (retryPolicy c) ->
        value_xor_error is_value (FetchInfoRequest c input))
  /\ (forall c input, value_xor_error is_value (FetchDeleteRequest c input))
  /\ (forall c input, 0 <= MaxRetries (retryPolicy c) ->
        value_xor_error (fun ok : bool => ok) (UpdateInfoRequest c input))
  /\ (forall c input,
        value_xor_error (fun ok : bool => ok) (UpdateDeleteRequest c input))
  /\ (forall c input, 0 <= MaxRetries (retryPolicy c) ->
        value_xor_error (fun ok : bool => ok) (DeleteInfoRequest c input))
  /\ (forall c input, 0 <= MaxRetries (retryPolicy c) ->
        value_xor_error (fun ok : bool => ok) (DeleteRequest_ c input))
  /\ (forall c input, 0 <= MaxRetries (retryPolicy c) ->
        value_xor_error is_value (FetchAllInfoRequests c input))
  /\ (forall c input, 0 <= MaxRetries (retryPolicy c) ->
        value_xor_error is_value (FetchInfoRequestsByType c input))
  /\ (forall c input, 0 <= MaxRetries (retryPolicy c) ->
        value_xor_error is_value (FetchDeleteRequestsByStatus c input))
  /\ (forall c input, 0 <= MaxRetries (retryPolicy c) ->
        value_xor_error is_value (FetchRequestsByCreator c input))
  /\ (forall c input, 0 <= MaxRetries (retryPolicy c) ->
        value_xor_error is_value (FetchDeleteRequestsByCreator c input)).
Proof.
  repeat apply conj; intros c input; try intros Hmax; to_scheme;
    (apply operation_shape;
     [ reflexivity
     | first [ exact decode_CreateInfo_shape
             | apply decode_data_shape
             | exact decode_ok_shape ]
     | first [ exact httpClient_Do_returns
             | intros req t; now apply doRequestWithRetry_returns ] ]).
Qed.

(** ** The bodies of the responses *)

Lemma responses_app (l1 l2 : trace) :
  forall n : nat,
    responses n (l1 ++ l2)
    = responses n l1 ++ responses (n + attempts l1) l2.
Proof.
  induction l1 as [|e l1 IH]; intros n.
  - simpl. now rewrite Nat.add_0_r.
  - destruct e; cbn [app responses]; try (rewrite IH; reflexivity).
    rewrite IH. replace (n + attempts (EvDo req :: l1))%nat
      with (S n + attempts l1)%nat by (unfold attempts; simpl; lia).
    now destruct (Do_resp (RoundTrip n req)).
Qed.

Lemma responses_no_exchange (l : trace) :
  attempts l = 0%nat -> forall n, responses n l = [].
Proof.
  induction l as [|e l IH]; intros H n; [reflexivity|].
  destruct e; try (apply IH; exact H). discriminate H.
Qed.

Lemma responses_Do_events (n : nat) (rq : Request) :
  responses n (Do_events rq (RoundTrip n rq))
  = match Do_resp (RoundTrip n rq) with Some r => [r] | None => [] end.
Proof.
  unfold Do_events. destruct (RoundTrip n rq) as [r|e|r e] eqn:E;
    cbn [responses]; rewrite E; reflexivity.
Qed.

(** In the events of a run of the loop every response has its body closed,
    but the one the loop returns by its success exit. *)
Lemma runEvents_closes (c : Client) (req : Request) :
  forall (n : nat) (a : Z) (nd dr : nat),
    Forall (fun r =>
              closed (body_id (Body r)) (runEvents c req n a nd dr) = true
              \/ (succeeded (RoundTrip (nd + n) (attemptRequest req (a + Z.of_nat n)))
                  = true
                  /\ Do_resp (RoundTrip (nd + n) (attemptRequest req (a + Z.of_nat n)))
                     = Some r))
           (responses nd (runEvents c req n a nd dr)).
Proof.
  induction n as [|n IH]; intros a nd dr; cbn [runEvents].
  - rewrite Nat.add_0_r, Z.add_0_r.
    set (rq := attemptRequest req a). set (o := RoundTrip nd rq).
    rewrite responses_app, responses_Do_events. fold o.
    rewrite (responses_no_exchange (if succeeded o then [] else closeEvents o));
      [|destruct (succeeded o); [reflexivity|apply attempts_closeEvents]].
    rewrite app_nil_r.
    destruct (Do_resp o) as [r|] eqn:Hr; [|constructor].
    constructor; [|constructor].
    destruct (succeeded o) eqn:Hs; [right; now split|left].
    rewrite closed_app, (closed_closeEvents o r Hr). apply orb_true_r.
  - replace (nd + S n)%nat with (S nd + n)%nat by lia.
    replace (a + Z.of_nat (S n)) with (a + 1 + Z.of_nat n) by lia.
    set (rq := attemptRequest req a). set (o := RoundTrip nd rq).
    rewrite responses_app, responses_Do_events. fold o.
    rewrite attempts_Do_events.
    rewrite !responses_app, attempts_closeEvents, attempts_backoffEvents.
    rewrite (responses_no_exchange (closeEvents o)) by apply attempts_closeEvents.
    rewrite (responses_no_exchange (backoffEvents c)) by apply attempts_backoffEvents.
    cbn [app responses attempts filter is_Do List.length].
    rewrite !Nat.add_0_r. replace (nd + 1)%nat with (S nd) by lia.
    apply Forall_app. split.
    + destruct (Do_resp o) as [r|] eqn:Hr; [|constructor].
      constructor; [|constructor]. left.
      rewrite !closed_app, (closed_closeEvents o r Hr).
      rewrite orb_true_r. reflexivity.
    + eapply Forall_impl; [|apply IH].
      intros r [Hc|Hlast]; [left|right; exact Hlast].
      rewrite !closed_app. cbn [closed existsb is_Close_of orb].
      unfold closed in Hc. rewrite Hc. now rewrite !orb_true_r.
Qed.

(** [handle] adds no exchange, and closes the body of a response that came
    without an error. *)
Lemma handle_closes {A : Type} (zero : A)
    (decode : http_Response -> string -> option error -> M (A * option error))
    (x : option http_Response * option error) (t : trace) :
  (forall resp body err, local (decode resp body err)) ->
  exists l : trace,
    snd (handle zero decode x t) = t ++ l
    /\ attempts l = 0%nat
    /\ (forall r, x = (Some r, None) -> closed (body_id (Body r)) l = true).
Proof.
  intros Hdecode. destruct x as [[resp|] [e|]]; cbn [handle].
  - exists []. rewrite app_nil_r. repeat split. discriminate.
  - set (rest := bind _ _).
    assert (Hrest : local rest).
    { unfold rest. repeat local_step. apply Hdecode. }
    destruct (Hrest t) as (l & Hl & Hatt & _).
    exists (l ++ [EvClose (body_id (Body resp))]).
    unfold defer_Close. destruct (rest t) as [v t'] eqn:E. cbn [snd] in *.
    subst t'. rewrite app_assoc. split; [reflexivity|].
    split; [rewrite attempts_app, Hatt; reflexivity|].
    intros r Hr. injection Hr as <-. rewrite closed_app. cbn.
    rewrite Nat.eqb_refl. apply orb_true_r.
  - exists []. rewrite app_nil_r. repeat split. discriminate.
  - exists []. rewrite app_nil_r. repeat split. discriminate.
Qed.

Lemma operation_closes_every_body_executor {I A : Type} {Marshal_I : Marshaler I}
    (c : Client) (path : string) (zero : A)
    (decode : http_Response -> string -> option error -> M (A * option error))
    (input : I) :
  (forall resp body err, local (decode resp body err)) ->
  closes_every_body (operation (doRequestWithRetry c) c path zero decode input).
Proof.
  intros Hdecode t.
  assert (Hnothing : forall x : res (A * option error),
            exists l : trace,
              snd (x, t) = t ++ l
              /\ Forall (fun r => closed (body_id (Body r)) l = true)
                        (responses (attempts t) l)).
  { intros x. exists []. rewrite app_nil_r. split; [reflexivity|constructor]. }
  destruct (json_Marshal input) as [body [e|]] eqn:Hm.
  { rewrite (proj1 (operation_fails_before_sending _ c path zero decode input
                      t body e) Hm). apply Hnothing. }
  destruct (url_Parse_err (baseURL c ++ path)) as [e|] eqn:Hu.
  { rewrite (proj2 (operation_fails_before_sending _ c path zero decode input
                      t body e) Hm Hu). apply Hnothing. }
  rewrite (operation_sent _ _ _ _ _ _ _ Hm Hu).
  destruct (Z.lt_ge_cases (MaxRetries (retryPolicy c)) 0) as [Hneg|Hmax].
  { unfold bind, doRequestWithRetry. rewrite attemptLoop_done by lia.
    apply Hnothing. }
  destruct (doRequestWithRetry_stops c (postJSON c path body) t Hmax)
    as (k & _ & _ & _ & Hstop).
  destruct Hstop as (l & Hres & _ & _ & _ & _ & _ & Hev).
  unfold bind. rewrite Hres.
  destruct (handle_closes zero decode
              (Do_resp (outcomeAt t (postJSON c path body) k),
               Do_err (attemptRequest (postJSON c path body) (Z.of_nat k))
                 (outcomeAt t (postJSON c path body) k))
              (t ++ l) Hdecode) as (l2 & Hl2 & Hatt2 & Hclose).
  exists (l ++ l2). rewrite Hl2, app_assoc. split; [reflexivity|].
  rewrite responses_app, (responses_no_exchange l2 Hatt2), app_nil_r.
  rewrite Hev. eapply Forall_impl; [|apply runEvents_closes].
  intros r Hr. cbv beta in Hr. rewrite closed_app.
  destruct Hr as [Hc|[Hs Hlast]]; [now rewrite Hc|].
  rewrite (Hclose r); [apply orb_true_r|].
  unfold outcomeAt. simpl (0 + Z.of_nat k) in Hs, Hlast.
  rewrite Hlast. f_equal. now apply succeeded_no_err.
Qed.

Lemma operation_closes_every_body_direct {I A : Type} {Marshal_I : Marshaler I}
    (c : Client) (path : string) (zero : A)
    (decode : http_Response -> string -> option error -> M (A * option error))
    (input : I) :
  (forall resp body err, local (decode resp body err)) ->
  closes_every_body (operation httpClient_Do c path zero decode input).
Proof.
  intros Hdecode t.
  assert (Hnothing : forall x : res (A * option error),
            exists l : trace,
              snd (x, t) = t ++ l
              /\ Forall (fun r => closed (body_id (Body r)) l = true)
                        (responses (attempts t) l)).
  { intros x. exists []. rewrite app_nil_r. split; [reflexivity|constructor]. }
  destruct (json_Marshal input) as [body [e|]] eqn:Hm.
  { rewrite (proj1 (operation_fails_before_sending _ c path zero decode input
                      t body e) Hm). apply Hnothing. }
  destruct (url_Parse_err (baseURL c ++ path)) as [e|] eqn:Hu.
  { rewrite (proj2 (operation_fails_before_sending _ c path zero decode input
                      t body e) Hm Hu). apply Hnothing. }
  rewrite (operation_sent _ _ _ _ _ _ _ Hm Hu).
  unfold bind. rewrite httpClient_Do_run.
  set (rq := postJSON c path body). set (o := RoundTrip (attempts t) rq).
  destruct (handle_closes zero decode (Do_resp o, Do_err rq o)
              (t ++ Do_events rq o) Hdecode) as (l2 & Hl2 & Hatt2 & Hclose).
  exists (Do_events rq o ++ l2). rewrite Hl2, app_assoc. split; [reflexivity|].
  rewrite responses_app, (responses_no_exchange l2 Hatt2), app_nil_r.
  unfold o at 2. rewrite responses_Do_events. fold o.
  destruct o as [r|e|r e] eqn:Ho; cbn [Do_resp]; constructor; try constructor.
  - rewrite closed_app, (Hclose r eq_refl). apply orb_true_r.
  - cbn. now rewrite Nat.eqb_refl.
Qed.

(** X18.  No operation leaks a response body.  Whatever the server answers
    and whatever the policy, at the end of a run of each of the thirteen
    operations the body of every response the transport gave during the run
    has been closed: by the executor for the attempts it retried or gave up
    on, by [httpClient.Do] for a refused redirect, by the operation's
    deferred [Close] for the response it read. *)
Theorem operations_close_every_body :
  (forall c input, closes_every_body (CreateInfoRequest c input))
  /\ (forall c input, closes_every_body (CreateDeleteRequest c input))
  /\ (forall c input, closes_every_body (FetchInfoRequest c input))
  /\ (forall c input, closes_every_body (FetchDeleteRequest c input))
  /\ (forall c input, closes_every_body (UpdateInfoRequest c input))
  /\ (forall c input, closes_every_body (UpdateDeleteRequest c input))
  /\ (forall c input, closes_every_body (DeleteInfoRequest c input))
  /\ (forall c input, closes_every_body (DeleteRequest_ c input))
  /\ (forall c input, closes_every_body (FetchAllInfoRequests c input))
  /\ (forall c input, closes_every_body (FetchInfoRequestsByType c input))
  /\ (forall c input, closes_every_body (FetchDeleteRequestsByStatus c input))
  /\ (forall c input, closes_every_body (FetchRequestsByCreator c input))
  /\ (forall c input, closes_every_body (FetchDeleteRequestsByCreator c input)).
Proof.
  repeat apply conj; intros c input; to_scheme;
    first [ apply operation_closes_every_body_executor
          | apply operation_closes_every_body_direct ];
    first [ exact local_decode_CreateInfo
          | apply local_decode_data
          | exact local_decode_ok ].
Qed.

(** ** The envelope *)

(** [handle] on a response with the status 200 and an open body: the read,
    the decoding, the close. *)
Lemma handle_200 {A : Type} (zero : A)
    (decode : http_Response -> string -> option error -> M (A * option error))
    (resp : http_Response) (t : trace) :
  StatusCode resp = 200 ->
  closed (body_id (Body resp)) t = false ->
  was_read (body_id (Body resp)) t = false ->
  body_err (Body resp) = None ->
  handle zero decode (Some resp, None) t
  = defer_Close resp (decode resp (body_bytes (Body resp)) None)
      (t ++ [EvRead (body_id (Body resp))]).
Proof.
  intros Hs Hc Hr He. unfold handle, defer_Close, bind, io_ReadAll.
  rewrite Hc, Hr, He, Hs. reflexivity.
Qed.

Lemma decode_data_service_error {A : Type} {Unmarshal_A : Unmarshaler A}
    (zero_A : A) (missing : option string) (resp : http_Response)
    (data : string) (err : option error) (response : Response) (t : trace) :
  json_Unmarshal data zero_Response = (response, None) ->
  resp_StatusCode response <> 200 ->
  decode_data zero_A missing resp data err t
  = (Val (None,
          Some (errors_New
                  match missing with
                  | Some text =>
                      if resp_StatusCode response =? 404 then text
                      else "GDPR service returned error: " ++ resp_Message response
                  | None => "GDPR service returned error: " ++ resp_Message response
                  end)), t).
Proof.
  intros Hj Hs. unfold decode_data. rewrite Hj. cbv zeta.
  destruct (Z.eqb_spec (resp_StatusCode response) 200) as [|_]; [contradiction|].
  destruct missing; [destruct (resp_StatusCode response =? 404)|]; reflexivity.
Qed.

Lemma decode_ok_service_error (resp : http_Response) (data : string)
    (err : option error) (response : Response) (t : trace) :
  json_Unmarshal data zero_Response = (response, None) ->
  resp_StatusCode response <> 200 ->
  decode_ok resp data err t
  = (Val (false,
          Some (errors_New ("GDPR service returned error: " ++ resp_Message response))),
     t).
Proof.
  intros Hj Hs. unfold decode_ok. rewrite Hj.
  destruct (Z.eqb_spec (resp_StatusCode response) 200) as [|_]; [contradiction|].
  reflexivity.
Qed.

Lemma operation_200 {I A : Type} {Marshal_I : Marshaler I}
    (send : Request -> M (option http_Response * option error))
    (c : Client) (path : string) (zero : A)
    (decode : http_Response -> string -> option error -> M (A * option error))
    (input : I) (t t1 : trace) (body : string) (resp : http_Response) :
  json_Marshal input = (body, None) ->
  url_Parse_err (baseURL c ++ path) = None ->
  send (postJSON c path body) t = (Val (Some resp, None), t1) ->
  StatusCode resp = 200 ->
  closed (body_id (Body resp)) t1 = false ->
  was_read (body_id (Body resp)) t1 = false ->
  body_err (Body resp) = None ->
  operation send c path zero decode input t
  = defer_Close resp (decode resp (body_bytes (Body resp)) None)
      (t1 ++ [EvRead (body_id (Body resp))]).
Proof.
  intros Hm Hu Hrun Hs Hc Hr He. rewrite (operation_sent _ _ _ _ _ _ _ Hm Hu).
  unfold bind at 1. rewrite Hrun. now apply handle_200.
Qed.

Ltac service_error :=
  intros c input t t1 body resp response Hm Hu Hrun Hs Hc Hr He Hj Hne;
  to_scheme;
  rewrite (operation_200 _ _ _ _ _ _ _ _ _ _ Hm Hu Hrun Hs Hc Hr He);
  unfold defer_Close;
  first [ rewrite (decode_data_service_error _ _ _ _ _ _ _ Hj Hne)
        | rewrite (decode_ok_service_error _ _ _ _ _ Hj Hne) ];
  now rewrite <- app_assoc.

(** X21.  The error of the service.  When the response has the status 200
    and its body decodes to an envelope whose [statusCode] is not 200, the
    twelve operations that read the envelope return no value and the error
    [GDPR service returned error: ] followed by the envelope's message; the
    two fetches return [info request not found] and [delete request not
    found] when the envelope says 404. *)
Theorem operations_report_service_error :
  reports_service_error doRequestWithRetry default_cdi_ApiKey
    "/gdpr?controller=delete&action=create" None None CreateDeleteRequest
  /\ reports_service_error doRequestWithRetry default_fri_ApiKey "/gdpr?action=fetch"
       None (Some "info request not found") FetchInfoRequest
  /\ reports_service_error (fun _ => httpClient_Do) default_fri_ApiKey
       "/gdpr?controller=delete&action=fetch" None (Some "delete request not found")
       FetchDeleteRequest
  /\ reports_service_error doRequestWithRetry default_uri_ApiKey "/gdpr?action=update"
       false None UpdateInfoRequest
  /\ reports_service_error (fun _ => httpClient_Do) default_uri_ApiKey
       "/gdpr?controller=delete&action=update" false None UpdateDeleteRequest
  /\ reports_service_error doRequestWithRetry default_dri_ApiKey "/gdpr?action=delete"
       false None DeleteInfoRequest
  /\ reports_service_error doRequestWithRetry default_dri_ApiKey
       "/gdpr?controller=delete&action=delete" false None DeleteRequest_
  /\ reports_service_error doRequestWithRetry default_fai_ApiKey "/gdpr?action=fetchAll"
       None None FetchAllInfoRequests
  /\ reports_service_error doRequestWithRetry default_fti_ApiKey
       "/gdpr?action=fetchByType" None None FetchInfoRequestsByType
  /\ reports_service_error doRequestWithRetry default_fsi_ApiKey
       "/gdpr?controller=delete&action=fetchByStatus" None None
       FetchDeleteRequestsByStatus
  /\ reports_service_error doRequestWithRetry default_fci_ApiKey
       "/gdpr?action=fetchByCreator" None None FetchRequestsByCreator
  /\ reports_service_error doRequestWithRetry default_fci_ApiKey
       "/gdpr?controller=delete&action=fetchByCreator" None None
       FetchDeleteRequestsByCreator.
Proof.
  repeat apply conj; service_error.
Qed.

(** X22.  [CreateInfoRequest] does not read the envelope.  For every
    response with the status 200 whose body is open and read in full it
    returns a nil error and the [InfoRequest] that decoding the whole body
    gives, whatever the body says: an envelope that reports an error of the
    service is a success for it, where the other operations return [GDPR
    service returned error]. *)
Theorem CreateInfoRequest_ignores_the_envelope (c : Client)
    (input : CreateInfoRequestInput) (t t1 : trace) (body : string)
    (resp : http_Response) :
  json_Marshal (default_cii_ApiKey c input) = (body, None) ->
  url_Parse_err (baseURL c ++ "/gdpr?action=create")%string = None ->
  doRequestWithRetry c (postJSON c "/gdpr?action=create" body) t
  = (Val (Some resp, None), t1) ->
  StatusCode resp = 200 ->
  closed (body_id (Body resp)) t1 = false ->
  was_read (body_id (Body resp)) t1 = false ->
  body_err (Body resp) = None ->
  CreateInfoRequest c input t
  = (Val (Some (fst (json_Unmarshal (body_bytes (Body resp)) zero_InfoRequest)),
          None),
     t1 ++ [EvRead (body_id (Body resp));
            EvLog ("GDPRClientLibrary.CreateInfo - Response Body: "
                   ++ body_bytes (Body resp))%string;
            EvClose (body_id (Body resp))]).
Proof.
  intros Hm Hu Hrun Hs Hc Hr He. rewrite CreateInfoRequest_scheme.
  rewrite (operation_200 _ _ _ _ _ _ _ _ _ _ Hm Hu Hrun Hs Hc Hr He).
  unfold defer_Close, decode_CreateInfo, bind, log_Printf, emit, ret.
  rewrite Hs. cbn [negb Z.eqb Pos.eqb].
  destruct (json_Unmarshal (body_bytes (Body resp)) zero_InfoRequest)
    as [infoRequest jsonErr].
  cbn [fst]. now rewrite <- !app_assoc.
Qed.

(** ** From the answer of the server to the result of an operation *)

(** The executor's run when the first attempt leaves by the success exit. *)
Lemma doRequestWithRetry_first_success (c : Client) (req : Request) (t : trace)
    (r : http_Response) :
  0 <= MaxRetries (retryPolicy c) ->
  RoundTrip (attempts t) req = Responded r ->
  StatusCode r < 500 ->
  StatusCode r <> 429 ->
  doRequestWithRetry c req t = (Val (Some r, None), t ++ [EvDo req]).
Proof.
  intros Hmax Hout Hlt Hne.
  pose proof (attemptRequest_0 req) as Hrq.
  assert (Hsucc : succeeded (Responded r) = true).
  { unfold succeeded.
    destruct (Z.ltb_spec (StatusCode r) 500); [|lia].
    destruct (Z.eqb_spec (StatusCode r) 429); [lia|reflexivity]. }
  destruct (doRequestWithRetry_run c req t 0)
    as (l & Hres & _ & _ & _ & _ & _ & Hev).
  - exact Hmax.
  - intros i Hi. lia.
  - left. unfold retryable, outcomeAt. change (Z.of_nat 0) with 0.
    now rewrite Nat.add_0_r, Hrq, Hout, Hsucc.
  - rewrite Hres, Hev. unfold outcomeAt. change (Z.of_nat 0) with 0.
    cbn [runEvents]. rewrite Nat.add_0_r, Hrq, Hout, Hsucc, app_nil_r.
    reflexivity.
Qed.

Lemma operation_reports_first_answer {I A : Type} {Marshal_I : Marshaler I}
    (send : Request -> M (option http_Response * option error))
    (c : Client) (path : string) (zero : A)
    (decode : http_Response -> string -> option error -> M (A * option error))
    (input : I) (t : trace) (body : string) (resp : http_Response) :
  json_Marshal input = (body, None) ->
  url_Parse_err (baseURL c ++ path) = None ->
  send (postJSON c path body) t
  = (Val (Some resp, None), t ++ [EvDo (postJSON c path body)]) ->
  StatusCode resp <> 200 ->
  closed (body_id (Body resp)) t = false ->
  was_read (body_id (Body resp)) t = false ->
  body_err (Body resp) = None ->
  operation send c path zero decode input t
  = (Val (zero,
          Some (errors_New ("request failed with status "
                            ++ Str.itoa (StatusCode resp) ++ ": "
                            ++ body_bytes (Body resp)))),
     t ++ [EvDo (postJSON c path body);
           EvRead (body_id (Body resp)); EvClose (body_id (Body resp))]).
Proof.
  intros Hm Hu Hrun Hs Hc Hr He.
  rewrite (operation_reports_status send c path zero decode input t _ body resp
             Hm Hu Hrun Hs); [now rewrite <- app_assoc| | |exact He].
  - rewrite closed_app, Hc. reflexivity.
  - rewrite was_read_app, Hr. reflexivity.
Qed.

(** X23.  An answer that is neither a success nor retried.  When the first
    exchange of an operation is answered with a status below 500 other than
    200 and 429 (a 4xx, say) and the body is read in full, each of the
    thirteen operations makes that one exchange, does not sleep, reads and
    closes the body, and returns no value and the error [request failed with
    status N: ] followed by the text of the body. *)
Theorem operations_report_first_answer :
  reports_first_answer default_cii_ApiKey "/gdpr?action=create" None CreateInfoRequest
  /\ reports_first_answer default_cdi_ApiKey "/gdpr?controller=delete&action=create"
       None CreateDeleteRequest
  /\ reports_first_answer default_fri_ApiKey "/gdpr?action=fetch" None FetchInfoRequest
  /\ reports_first_answer default_fri_ApiKey "/gdpr?controller=delete&action=fetch"
       None FetchDeleteRequest
  /\ reports_first_answer default_uri_ApiKey "/gdpr?action=update" false UpdateInfoRequest
  /\ reports_first_answer default_uri_ApiKey "/gdpr?controller=delete&action=update"
       false UpdateDeleteRequest
  /\ reports_first_answer default_dri_ApiKey "/gdpr?action=delete" false DeleteInfoRequest
  /\ reports_first_answer default_dri_ApiKey "/gdpr?controller=delete&action=delete"
       false DeleteRequest_
  /\ reports_first_answer default_fai_ApiKey "/gdpr?action=fetchAll" None
       FetchAllInfoRequests
  /\ reports_first_answer default_fti_ApiKey "/gdpr?action=fetchByType" None
       FetchInfoRequestsByType
  /\ reports_first_answer default_fsi_ApiKey "/gdpr?controller=delete&action=fetchByStatus"
       None FetchDeleteRequestsByStatus
  /\ reports_first_answer default_fci_ApiKey "/gdpr?action=fetchByCreator" None
       FetchRequestsByCreator
  /\ reports_first_answer default_fci_ApiKey
       "/gdpr?controller=delete&action=fetchByCreator" None
       FetchDeleteRequestsByCreator.
Proof.
  repeat apply conj;
    intros c input t body resp Hmax Hm Hu Hout Hlt H429 H200 Hc Hr He;
    to_scheme;
    (apply operation_reports_first_answer; try assumption;
     first [ now apply doRequestWithRetry_first_success
           | rewrite httpClient_Do_run, Hout; reflexivity ]).
Qed.

Lemma decode_data_success {A : Type} {Unmarshal_A : Unmarshaler A}
    (zero_A : A) (missing : option string) (resp : http_Response)
    (data : string) (err : option error) (response : Response)
    (dataJSON : string) (value : A) (t : trace) :
  json_Unmarshal data zero_Response = (response, None) ->
  resp_StatusCode response = 200 ->
  json_Marshal (resp_Data response) = (dataJSON, None) ->
  json_Unmarshal dataJSON zero_A = (value, None) ->
  decode_data zero_A missing resp data err t = (Val (Some value, None), t).
Proof.
  intros Hj Hs Hd Hv. unfold decode_data. rewrite Hj. cbv zeta.
  rewrite Hs, Hd, Hv. now destruct missing.
Qed.

Lemma decode_ok_success (resp : http_Response) (data : string)
    (err : option error) (response : Response) (t : trace) :
  json_Unmarshal data zero_Response = (response, None) ->
  resp_StatusCode response = 200 ->
  decode_ok resp data err t = (Val (true, None), t).
Proof.
  intros Hj Hs. unfold decode_ok. now rewrite Hj, Hs.
Qed.

Ltac data_returned :=
  intros c input t t1 body resp response dataJSON value
         Hm Hu Hrun Hs Hc Hr He Hj Hok Hd Hv;
  to_scheme;
  rewrite (operation_200 _ _ _ _ _ _ _ _ _ _ Hm Hu Hrun Hs Hc Hr He);
  unfold defer_Close;
  rewrite (decode_data_success _ _ _ _ _ _ _ _ _ Hj Hok Hd Hv);
  now rewrite <- app_assoc.

Ltac confirmed :=
  intros c input t t1 body resp response Hm Hu Hrun Hs Hc Hr He Hj Hok;
  to_scheme;
  rewrite (operation_200 _ _ _ _ _ _ _ _ _ _ Hm Hu Hrun Hs Hc Hr He);
  unfold defer_Close;
  rewrite (decode_ok_success _ _ _ _ _ Hj Hok);
  now rewrite <- app_assoc.

(** X24.  What a success is.  On a response with the status 200 whose body
    is read in full and decodes to an envelope whose [statusCode] is 200,
    the four updates and deletes return [true] and a nil error; the eight
    operations that return data return, with a nil error, the value that
    decoding the re-encoded [data] of the envelope gives: the request, or
    the page of results with its [lastRangeKey].  Each closes the body. *)
Theorem operations_succeed :
  returns_the_data doRequestWithRetry default_cdi_ApiKey
    "/gdpr?controller=delete&action=create" zero_DeleteRequest CreateDeleteRequest
  /\ returns_the_data doRequestWithRetry default_fri_ApiKey "/gdpr?action=fetch"
       zero_InfoRequest FetchInfoRequest
  /\ returns_the_data (fun _ => httpClient_Do) default_fri_ApiKey
       "/gdpr?controller=delete&action=fetch" zero_DeleteRequest FetchDeleteRequest
  /\ returns_the_data doRequestWithRetry default_fai_ApiKey "/gdpr?action=fetchAll"
       zero_PaginatedResponse FetchAllInfoRequests
  /\ returns_the_data doRequestWithRetry default_fti_ApiKey "/gdpr?action=fetchByType"
       zero_PaginatedResponse FetchInfoRequestsByType
  /\ returns_the_data doRequestWithRetry default_fsi_ApiKey
       "/gdpr?controller=delete&action=fetchByStatus" zero_PaginatedResponse
       FetchDeleteRequestsByStatus
  /\ returns_the_data doRequestWithRetry default_fci_ApiKey
       "/gdpr?action=fetchByCreator" zero_PaginatedResponse FetchRequestsByCreator
  /\ returns_the_data doRequestWithRetry default_fci_ApiKey
       "/gdpr?controller=delete&action=fetchByCreator" zero_PaginatedResponse
       FetchDeleteRequestsByCreator
  /\ confirms doRequestWithRetry default_uri_ApiKey "/gdpr?action=update"
       UpdateInfoRequest
  /\ confirms (fun _ => httpClient_Do) default_uri_ApiKey
       "/gdpr?controller=delete&action=update" UpdateDeleteRequest
  /\ confirms doRequestWithRetry default_dri_ApiKey "/gdpr?action=delete"
       DeleteInfoRequest
  /\ confirms doRequestWithRetry default_dri_ApiKey
       "/gdpr?controller=delete&action=delete" DeleteRequest_.
Proof.
  repeat apply conj; first [data_returned | confirmed].
Qed.

(** ** The load and the wait of a run *)

Lemma backoffValue_within (c : Client) (attempt : Z) (n : nat) :
  0 <= MaxBackoff (retryPolicy c) < 2 ^ 53 ->
  (0 <=? rawBackoff c attempt n)%float = true ->
  0 <= backoffValue c attempt n <= MaxBackoff (retryPolicy c).
Proof.
  intros Hmax Hpos. rewrite backoffValue_rawBackoff.
  destruct (float64_of_int (MaxBackoff (retryPolicy c))
            <? rawBackoff c attempt n)%float eqn:Hcap.
  - rewrite Duration_of_float64_of_int by lia. lia.
  - destruct (float64_trunc_within _ _ Hmax Hpos Hcap) as (d & Hd & Hrange).
    unfold Duration_of_float64. rewrite Hd.
    destruct (Z.leb_spec (- 2 ^ 63) d); [|lia].
    destruct (Z.ltb_spec d (2 ^ 63)); [exact Hrange|lia].
Qed.

Lemma sum_durations_bound (m : Z) (ds : list Duration) :
  Forall (fun d => 0 <= d <= m) ds ->
  sum_durations ds <= Z.of_nat (List.length ds) * m.
Proof.
  induction 1 as [|d ds Hd _ IH]; [simpl; lia|].
  cbn [sum_durations fold_right List.length] in *.
  fold (sum_durations ds). lia.
Qed.

(** X25.  The wait of a run is bounded.  For a [MaxBackoff] from 0 to below
    [2^53] nanoseconds, and a policy whose backoff before the cap is a
    number not below zero at each attempt that can be retried, every sleep
    of a run of the executor lasts between 0 and [MaxBackoff], so the run
    sleeps for at most [MaxRetries * MaxBackoff] in all. *)
Theorem doRequestWithRetry_wait_bounded (c : Client) (req : Request) (t : trace) :
  0 <= MaxRetries (retryPolicy c) ->
  0 <= MaxBackoff (retryPolicy c) < 2 ^ 53 ->
  (forall (a : Z) (n : nat),
     0 <= a < MaxRetries (retryPolicy c) ->
     (0 <=? rawBackoff c a n)%float = true) ->
  exists (r : option http_Response * option error) (l : trace),
    doRequestWithRetry c req t = (Val r, t ++ l)
    /\ Forall (fun d => 0 <= d <= MaxBackoff (retryPolicy c)) (sleeps l)
    /\ sum_durations (sleeps l)
       <= MaxRetries (retryPolicy c) * MaxBackoff (retryPolicy c).
Proof.
  intros Hmax Hcap Hraw.
  destruct (doRequestWithRetry_stops c req t Hmax) as (k & Hk & _ & _ & Hrun).
  destruct Hrun as (l & Hres & _ & Hslp & _).
  assert (Hall : Forall (fun d => 0 <= d <= MaxBackoff (retryPolicy c)) (sleeps l)).
  { rewrite Hslp. apply Forall_forall. intros d Hd.
    apply in_map_iff in Hd as (i & <- & Hi). apply in_seq in Hi.
    apply backoffValue_within; [exact Hcap|]. apply Hraw. lia. }
  eexists; exists l. split; [exact Hres|]. split; [exact Hall|].
  apply Z.le_trans with (Z.of_nat (List.length (sleeps l)) * MaxBackoff (retryPolicy c)).
  - now apply sum_durations_bound.
  - apply Z.mul_le_mono_nonneg_r; [lia|].
    rewrite Hslp, length_map, length_seq. exact Hk.
Qed.

Lemma executor_within_policy {A : Type} (c : Client) (path : string) (op : M A) :
  sends_through (doRequestWithRetry c) c path op -> within_policy c op.
Proof.
  intros Hop t. destruct (Hop t) as [Hsame|(body & l & Hl & Hatt & Hslp)].
  - rewrite Hsame. split; lia.
  - rewrite Hl, attempts_app, sleeps_app, Hatt, Hslp, app_nil_r, Nat.add_0_r.
    destruct (Z.lt_ge_cases (MaxRetries (retryPolicy c)) 0) as [Hneg|Hmax].
    + unfold doRequestWithRetry. rewrite attemptLoop_done by lia.
      cbn [snd]. split; lia.
    + destruct (doRequestWithRetry_stops c (postJSON c path body) t Hmax)
        as (k & Hk & _ & _ & Hrun).
      destruct Hrun as (l' & Hres & Hatt' & Hslp' & _).
      rewrite Hres. cbn [snd].
      rewrite attempts_app, sleeps_app, length_app, Hatt', Hslp',
        length_map, length_seq.
      split; lia.
Qed.

(** X26.  The load of an operation is bounded by the policy.  Each of the
    eleven operations that send through the executor makes at most
    [MaxRetries + 1] exchanges and sleeps at most [MaxRetries] times,
    whatever the server answers (with a negative [MaxRetries], none). *)
Theorem operations_within_policy :
  (forall c input, within_policy c (CreateInfoRequest c input))
  /\ (forall c input, within_policy c (CreateDeleteRequest c input))
  /\ (forall c input, within_policy c (FetchInfoRequest c input))
  /\ (forall c input, within_policy c (UpdateInfoRequest c input))
  /\ (forall c input, within_policy c (DeleteInfoRequest c input))
  /\ (forall c input, within_policy c (DeleteRequest_ c input))
  /\ (forall c input, within_policy c (FetchAllInfoRequests c input))
  /\ (forall c input, within_policy c (FetchInfoRequestsByType c input))
  /\ (forall c input, within_policy c (FetchDeleteRequestsByStatus c input))
  /\ (forall c input, within_policy c (FetchRequestsByCreator c input))
  /\ (forall c input, within_policy c (FetchDeleteRequestsByCreator c input)).
Proof.
  repeat apply conj; intros c input; eapply executor_within_policy.
  - apply CreateInfoRequest_through_executor.
  - apply CreateDeleteRequest_through_executor.
  - apply FetchInfoRequest_through_executor.
  - apply UpdateInfoRequest_through_executor.
  - apply DeleteInfoRequest_through_executor.
  - apply DeleteRequest_through_executor.
  - apply FetchAllInfoRequests_through_executor.
  - apply FetchInfoRequestsByType_through_executor.
  - apply FetchDeleteRequestsByStatus_through_executor.
  - apply FetchRequestsByCreator_through_executor.
  - apply FetchDeleteRequestsByCreator_through_executor.
Qed.

End Gdprclient.

(** * Concrete runs *)

Module Run.

Import Sample.
Local Open Scope list_scope.

(** The executor and three operations in the world given by a server. *)
Local Abbreviation execute server maxRetries :=
  (doRequestWithRetry Pow overflow server rand as_printed sends_all (client maxRetries) request []).

Local Abbreviation createInfo server maxRetries :=
  (CreateInfoRequest Pow overflow server rand as_printed sends_all no_parse_error show_body
     (client maxRetries) create_input []).

Local Abbreviation fetchInfo server maxRetries :=
  (FetchInfoRequest Pow overflow server rand as_printed sends_all string "null" no_parse_error
     (client maxRetries) fetch_input []).

Local Abbreviation not_found_envelope :=
  {| resp_StatusCode := 404; resp_Message := "not found"; resp_Data := "null" |}.

Local Abbreviation ok_envelope :=
  {| resp_StatusCode := 200; resp_Message := "ok"; resp_Data := "null" |}.

Local Abbreviation fetchDelete server maxRetries :=
  (FetchDeleteRequest server as_printed string "null" no_parse_error
     (client maxRetries) fetch_input []).

(** Scenario A runs as C2 says. *)
Lemma scenario_A_run :
  exists l : trace,
    execute busy_then_ok 3 = (Val (Some (response 200 3 "{}"), None), [] ++ l)
    /\ attempts l = 4%nat
    /\ sleeps l = [100 * Millisecond; 200 * Millisecond; 400 * Millisecond].
Proof.
  apply (doRequestWithRetry_scenario_A Pow overflow busy_then_ok rand as_printed sends_all
           (client 3) request []
           (response 503 0 "busy") (response 503 1 "busy")
           (response 503 2 "busy") (response 200 3 "{}"));
    reflexivity.
Defined.

(** Two runs of C6: a server that answers 503 to all four attempts the
    policy allows (the run stops at the last one and returns its response),
    and a server that answers 501 (the run stops at once). *)
Lemma last_outcome_runs :
  (exists l : trace,
     execute (always 503 "busy") 3
     = (Val (Some (response 503 3 "busy"), None), [] ++ l)
     /\ attempts l = 4%nat /\ List.length (sleeps l) = 3%nat /\ reads l = 0%nat)
  /\ (exists l : trace,
        execute (always 501 "no") 3
        = (Val (Some (response 501 0 "no"), None), [] ++ l)
        /\ attempts l = 1%nat /\ sleeps l = [] /\ reads l = 0%nat).
Proof.
  split.
  - apply (proj1 (doRequestWithRetry_returns_last_outcome Pow overflow
                    (always 503 "busy") rand as_printed sends_all) (client 3) request [] 3%nat).
    + simpl. lia.
    + intros i Hi. reflexivity.
    + right. reflexivity.
  - apply (proj1 (proj2 (doRequestWithRetry_returns_last_outcome Pow overflow
                           (always 501 "no") rand as_printed sends_all)) (client 3) request []
             (response 501 0 "no")); [simpl; lia | reflexivity | reflexivity].
Defined.

(** A run of C10: the server answers 200 with a body that is no JSON
    object; the decoder fails, and [CreateInfoRequest] returns the zero
    [InfoRequest] and no error. *)
Lemma unmarshal_error_run :
  createInfo (always 200 "oops") 3
  = (Val (Some zero_InfoRequest, None),
     [EvDo (postJSON (client 3) "/gdpr?action=create" "{}")]
     ++ [EvRead 0;
         EvLog "GDPRClientLibrary.CreateInfo - Response Body: oops";
         EvClose 0]).
Proof.
  apply (CreateInfoRequest_swallows_unmarshal_error Pow overflow
           (always 200 "oops") rand as_printed sends_all no_parse_error show_body
           (client 3) create_input [] _ "{}" "oops" (response 200 0 "oops")
           zero_InfoRequest
           (errors_New "invalid character looking for beginning of value"));
    reflexivity.
Defined.


(** The executor returns in the busy-then-ok world within the bounds. *)
Lemma terminates_run :
  exists (r : option http_Response * option error) (l : trace),
    execute busy_then_ok 3 = (Val r, [] ++ l)
    /\ (1 <= attempts l <= Z.to_nat 3 + 1)%nat
    /\ List.length (sleeps l) = (attempts l - 1)%nat
    /\ reads l = 0%nat.
Proof.
  apply (doRequestWithRetry_terminates Pow overflow busy_then_ok rand as_printed sends_all
           (client 3) request []).
  simpl. lia.
Defined.

(** Scenario C: no retries allowed and a 429. *)
Lemma scenario_C_run :
  exists l : trace,
    execute (always 429 "slow down") 0
    = (Val (Some (response 429 0 "slow down"), None), [] ++ l)
    /\ attempts l = 1%nat /\ sleeps l = [].
Proof.
  apply (doRequestWithRetry_429_no_retries Pow overflow (always 429 "slow down")
           rand as_printed sends_all (client 0) request [] (response 429 0 "slow down"));
    reflexivity.
Defined.

(** A deadline that passed during the exchange is retried. *)
Lemma deadline_run :
  ShouldRetry 0
    (Some (url_Error "Post" (URL request) context_DeadlineExceeded)) = true.
Proof.
  apply ShouldRetry_deadline_or_canceled. left. reflexivity.
Defined.

(** The response of an exhausted run comes back with its body closed. *)
Lemma closed_body_run :
  closed (body_id (Body (response 503 0 "busy")))
    [EvDo request; EvClose 0] = true.
Proof.
  apply (doRequestWithRetry_closes_returned_body Pow overflow (always 503 "busy")
           rand as_printed sends_all (client 0) request [] _ (response 503 0 "busy") None).
  - simpl. lia.
  - reflexivity.
  - right. left. simpl. lia.
Defined.

(** A refused connection ends the run at the first attempt. *)
Lemma refused_run :
  exists l : trace,
    execute unreachable 3
    = (Val (None, Some (url_Error (urlErrorOp (Method request)) (URL request) refused)),
       [] ++ l)
    /\ attempts l = 1%nat /\ sleeps l = [].
Proof.
  apply (doRequestWithRetry_transport_failure_not_retried Pow overflow unreachable
           rand as_printed sends_all (client 3) request [] refused); try reflexivity.
  simpl. lia.
Defined.

(** The body of the second 503 is closed before the third exchange. *)
Lemma retried_body_run :
  exists pre mid post : list event,
    snd (execute busy_then_ok 3)
    = [] ++ pre ++ EvDo (attemptRequest sends_all request (Z.of_nat 1))
         :: mid ++ EvDo (attemptRequest sends_all request (Z.of_nat 1 + 1)) :: post
    /\ attempts pre = 1%nat
    /\ attempts mid = 0%nat
    /\ closed (body_id (Body (response 503 1 "busy"))) mid = true.
Proof.
  apply (doRequestWithRetry_closes_retried_bodies Pow overflow busy_then_ok rand as_printed sends_all
           (client 3) request [] 3 1 (response 503 1 "busy")).
  - simpl. lia.
  - intros i Hi.
    assert (Hcase : i = 0%nat \/ i = 1%nat \/ i = 2%nat) by lia.
    destruct Hcase as [-> | [-> | ->]]; reflexivity.
  - right. reflexivity.
  - lia.
  - reflexivity.
Defined.

(** The four requests of scenario A, on a transport that sends the whole
    body of each: the body goes with the first only. *)
Lemma requests_run :
  requests (snd (execute busy_then_ok 3))
  = requests []
    ++ map (fun i =>
              if (0 <? i)%nat
              then {| Method := Method request; URL := URL request;
                      Req_Header := Header_Set (Req_Header request) "X-Retry-Attempt"
                                      (Str.itoa (Z.of_nat i));
                      Req_Body := "" |}
              else request)
           (seq 0 4).
Proof.
  apply (doRequestWithRetry_requests Pow overflow busy_then_ok rand as_printed sends_all
           (client 3) request [] 3).
  - simpl. lia.
  - intros i Hi.
    assert (Hcase : i = 0%nat \/ i = 1%nat \/ i = 2%nat) by lia.
    destruct Hcase as [-> | [-> | ->]]; reflexivity.
  - right. reflexivity.
  - intros r. reflexivity.
Defined.

(** With [MaxRetries = -1] nothing is sent and both results are nil. *)
Lemma negative_run :
  execute busy_then_ok (-1) = (Val (None, None), []).
Proof.
  apply (doRequestWithRetry_negative Pow overflow busy_then_ok rand as_printed sends_all
           (client (-1)) request []).
  simpl. lia.
Defined.

(** The backoff of the eighth attempt, 12.8 s before the cap, is the cap. *)
Lemma capped_backoff_run :
  exists d : Duration,
    fst (calculateBackoff Pow overflow rand (client 3) 7 []) = Val d
    /\ 0 <= d <= MaxBackoff (retryPolicy (client 3))
    /\ ((float64_of_int (MaxBackoff (retryPolicy (client 3)))
         <? rawBackoff Pow rand (client 3) 7 (draws []))%float = true ->
        d = MaxBackoff (retryPolicy (client 3))).
Proof.
  apply (calculateBackoff_within_MaxBackoff Pow overflow rand (client 3) 7 []).
  - vm_compute. split; [discriminate|reflexivity].
  - reflexivity.
Defined.

(** The backoffs of the third and the eighth attempt under the policy of
    scenario A: 400 ms, and the cap of 10 s for 12.8 s. *)
Lemma backoff_min_run :
  calculateBackoff Pow overflow rand (client 3) 2 []
  = (Val (Z.min (100 * Millisecond * 2 ^ 2) (10 * Second)), [])
  /\ calculateBackoff Pow overflow rand (client 3) 7 []
     = (Val (Z.min (100 * Millisecond * 2 ^ 7) (10 * Second)), []).
Proof.
  split.
  - apply (proj2 (proj2 (calculateBackoff_min Pow overflow rand (client 3) 2 []))
             (2 ^ 2)); try reflexivity.
    vm_compute. split; [discriminate|reflexivity].
  - apply (proj2 (proj2 (calculateBackoff_min Pow overflow rand (client 3) 7 []))
             (2 ^ 7)); try reflexivity.
    vm_compute. split; [discriminate|reflexivity].
Defined.

(** The backoffs of the third and the eighth attempt are in order. *)
Lemma backoff_monotone_run :
  exists di dj : Duration,
    calculateBackoff Pow overflow rand (client 3) 2 [] = (Val di, [])
    /\ calculateBackoff Pow overflow rand (client 3) 7 [] = (Val dj, [])
    /\ 0 <= di /\ di <= dj /\ dj <= 10 * Second.
Proof.
  apply (calculateBackoff_monotone Pow overflow rand (client 3) 2 7 [] []).
  - reflexivity.
  - vm_compute. split; reflexivity.
  - vm_compute. split; [discriminate|reflexivity].
  - reflexivity.
  - reflexivity.
Defined.

(** C4 as stated fails for a policy whose two backoffs are [2^53 + 3]
    nanoseconds, at the attempt 0: the minimum of
    [InitialBackoff * 2^0] and [MaxBackoff] is [2^53 + 3], and
    [calculateBackoff] returns [2^53 + 4], the [float64] nearest to
    both. *)
Theorem calculateBackoff_is_not_the_minimum :
  InitialBackoff (retryPolicy edge_client) = 2 ^ 53 + 3
  /\ MaxBackoff (retryPolicy edge_client) = 2 ^ 53 + 3
  /\ BackoffFactor (retryPolicy edge_client) = 2%float
  /\ Jitter (retryPolicy edge_client) = 0%float
  /\ calculateBackoff Pow overflow rand edge_client 0 []
     = (Val (2 ^ 53 + 4), [])
  /\ Z.min (InitialBackoff (retryPolicy edge_client) * 2 ^ 0)
           (MaxBackoff (retryPolicy edge_client)) <> 2 ^ 53 + 4.
Proof.
  repeat split. vm_compute. discriminate.
Qed.

(** C5 as stated fails on each of its three counts.  The policy above meets
    the preconditions and its first backoff, [2^53 + 4], is above its
    [MaxBackoff].  Under a policy with the cap [math.MaxInt64] the backoff
    of the attempt 37 is capped to [float64(MaxInt64)], which is [2^63]:
    its conversion is out of range, [-2^63] on amd64, a negative duration
    after the positive one of the attempt 36. *)
Theorem calculateBackoff_above_MaxBackoff_and_negative :
  (0 <= MaxRetries (retryPolicy edge_client)
   /\ 0 < InitialBackoff (retryPolicy edge_client)
   /\ InitialBackoff (retryPolicy edge_client) <= MaxBackoff (retryPolicy edge_client)
   /\ (1 <? BackoffFactor (retryPolicy edge_client))%float = true
   /\ Jitter (retryPolicy edge_client) = 0%float)
  /\ calculateBackoff Pow overflow rand edge_client 0 []
     = (Val (2 ^ 53 + 4), [])
  /\ MaxBackoff (retryPolicy edge_client) < 2 ^ 53 + 4
  /\ (0 <= MaxRetries (retryPolicy wide_client)
      /\ 0 < InitialBackoff (retryPolicy wide_client)
      /\ InitialBackoff (retryPolicy wide_client) <= MaxBackoff (retryPolicy wide_client)
      /\ (1 <? BackoffFactor (retryPolicy wide_client))%float = true
      /\ Jitter (retryPolicy wide_client) = 0%float)
  /\ calculateBackoff Pow overflow rand wide_client 36 []
     = (Val 6871947673600000000, [])
  /\ calculateBackoff Pow overflow rand wide_client 37 []
     = (Val (- 2 ^ 63), [])
  /\ - 2 ^ 63 < 0 < 6871947673600000000.
Proof.
  repeat split; try reflexivity; vm_compute; congruence.
Qed.

(** A client built with two options for the retries. *)
Lemma options_run :
  let c := NewClient "http://127.0.0.1:9" "key" [WithMaxRetries 5; WithMaxRetries 1] in
  baseURL c = "http://127.0.0.1:9"
  /\ apiKey c = "key"
  /\ (Forall (fun o => exists n, o = WithMaxRetries n)
             [WithMaxRetries 5; WithMaxRetries 1] ->
      httpClient_Timeout c = 10 * Second
      /\ environment c = "Prod"
      /\ InitialBackoff (retryPolicy c) = 100 * Millisecond
      /\ MaxBackoff (retryPolicy c) = 10 * Second).
Proof.
  apply (NewClient_keeps_url_and_key "http://127.0.0.1:9" "key"
           [WithMaxRetries 5; WithMaxRetries 1]).
  repeat constructor.
Defined.

(** The 200 of scenario A is returned right after its exchange. *)
Lemma success_exit_run :
  (exists l0 : trace,
     execute busy_then_ok 3
     = (Val (Some (response 200 3 "{}"), None),
        [] ++ l0 ++ [EvDo (attemptRequest sends_all request (Z.of_nat 3))])
     /\ attempts l0 = 3%nat)
  /\ (3%nat = 0%nat ->
      execute busy_then_ok 3 = httpClient_Do busy_then_ok as_printed request []).
Proof.
  apply (doRequestWithRetry_success_exit Pow overflow busy_then_ok rand as_printed sends_all
           (client 3) request [] 3 (response 200 3 "{}")).
  - simpl. lia.
  - intros i Hi.
    assert (Hcase : i = 0%nat \/ i = 1%nat \/ i = 2%nat) by lia.
    destruct Hcase as [-> | [-> | ->]]; reflexivity.
  - reflexivity.
  - simpl. lia.
  - simpl. lia.
Defined.

(** A 503 on the first attempt is followed by a second attempt, and so is
    a request that outlasts [Client.Timeout]: its error says, through its
    [Is] method, that it is [context.DeadlineExceeded]. *)
Lemma second_attempt_run :
  ((attempts [] + 2 <= attempts (snd (execute (always 503 "busy") 3)))%nat
   <-> (500 <= StatusCode (response 503 0 "busy")
        /\ StatusCode (response 503 0 "busy") <> 501)
       \/ StatusCode (response 503 0 "busy") = 429)
  /\ ((attempts [] + 2 <= attempts (snd (execute timing_out 3)))%nat
      <-> errors_Is client_timeout DeadlineExceeded = true
          \/ errors_Is client_timeout Canceled = true)
  /\ errors_Is client_timeout DeadlineExceeded = true
  /\ attempts (snd (execute timing_out 3)) = 4%nat.
Proof.
  split; [|split; [|split; reflexivity]].
  - apply (doRequestWithRetry_second_attempt Pow overflow (always 503 "busy") rand as_printed sends_all
             (client 3) request []).
    + simpl. lia.
    + reflexivity.
  - destruct (doRequestWithRetry_second_attempt Pow overflow timing_out rand as_printed sends_all
                (client 3) request []) as (_ & Hfailed & _).
    + simpl. lia.
    + apply Hfailed. reflexivity.
Defined.

(** With the default policy, whose jitter is 0.2, scenario A draws a random
    number for each of its sleeps. *)
Lemma draws_run :
  exists (r : option http_Response * option error) (l : trace),
    doRequestWithRetry Pow overflow busy_then_ok rand as_printed sends_all
      (NewClient "http://127.0.0.1:9" "key" []) request []
    = (Val r, [] ++ l)
    /\ draws l
       = (if (0 <? Jitter (retryPolicy (NewClient "http://127.0.0.1:9" "key" [])))%float
          then List.length (sleeps l) else 0%nat).
Proof.
  apply (doRequestWithRetry_draws Pow overflow busy_then_ok rand as_printed sends_all
           (NewClient "http://127.0.0.1:9" "key" []) request []).
  simpl. lia.
Defined.

(** A base URL without a scheme: the operation fails before it sends. *)
Lemma no_scheme_run :
  CreateInfoRequest Pow overflow busy_then_ok rand as_printed sends_all parse_error show_body
    no_scheme_client create_input []
  = (Val (None,
          Some (errors_New
                  ("failed to create request: "
                   ++ Error (url_Error "parse" ":/gdpr?action=create"
                               (errors_New "missing protocol scheme")))%string)),
     []).
Proof.
  apply (proj1 (operations_fail_before_sending Pow overflow busy_then_ok rand as_printed sends_all
                  string "null" parse_error show_body)
           no_scheme_client create_input [] "{}"); reflexivity.
Defined.

(** With [MaxRetries = -1] the creation of an info request panics. *)
Lemma no_attempts_run :
  createInfo busy_then_ok (-1) = (Panic "nil pointer dereference", []).
Proof.
  apply (proj1 (operations_panic_without_attempts Pow overflow busy_then_ok rand as_printed sends_all
                  string "null" no_parse_error show_body)
           (client (-1)) create_input [] "{}"); [simpl; lia | reflexivity | reflexivity].
Defined.

(** The results of the creation of an info request are well formed. *)
Lemma well_formed_run :
  value_xor_error is_value
    (CreateInfoRequest Pow overflow busy_then_ok rand as_printed sends_all no_parse_error show_body
       (client 3) create_input).
Proof.
  apply (proj1 (operations_value_xor_error Pow overflow busy_then_ok rand as_printed sends_all
                  string "null" no_parse_error show_body)).
  simpl. lia.
Defined.

(** The fetch of an info request in scenario A closes the four bodies. *)
Lemma no_leak_run :
  closes_every_body busy_then_ok
    (FetchInfoRequest Pow overflow busy_then_ok rand as_printed sends_all string "null" no_parse_error
       (client 3) fetch_input).
Proof.
  apply (proj1 (proj2 (proj2 (operations_close_every_body Pow overflow busy_then_ok
                                rand as_printed sends_all string "null" no_parse_error show_body)))).
Defined.

(** No retry allowed and a 503: the operation reads the body the executor
    has closed.  With a body from the network it reports the failed read;
    with a response without content it reports the status, and no text. *)
Lemma closed_body_report_run :
  createInfo (always 503 "busy") 0
  = (Val (None,
          Some (errors_New
                  "failed to read response body: http: read on closed response body")),
     [EvDo (postJSON (client 0) "/gdpr?action=create" "{}"); EvClose 0]
     ++ [EvRead (body_id (Body (response 503 0 "busy")));
         EvClose (body_id (Body (response 503 0 "busy")))])
  /\ createInfo (always_empty 503) 0
     = (Val (None, Some (errors_New "request failed with status 503: ")),
        [EvDo (postJSON (client 0) "/gdpr?action=create" "{}"); EvClose 0]
        ++ [EvRead (body_id (Body (bodiless 503 0)));
            EvClose (body_id (Body (bodiless 503 0)))]).
Proof.
  split.
  - apply (proj1 (operations_report_closed_body Pow overflow (always 503 "busy") rand as_printed sends_all
                    string "null" no_parse_error show_body)
             (client 0) create_input [] _ "{}" (response 503 0 "busy")).
    + simpl. lia.
    + reflexivity.
    + reflexivity.
    + reflexivity.
    + left. simpl. lia.
  - apply (proj1 (operations_report_closed_body Pow overflow (always_empty 503) rand as_printed sends_all
                    string "null" no_parse_error show_body)
             (client 0) create_input [] _ "{}" (bodiless 503 0)).
    + simpl. lia.
    + reflexivity.
    + reflexivity.
    + reflexivity.
    + left. simpl. lia.
Defined.

(** The same 503 through [httpClient.Do]: the operation reports the status. *)
Lemma status_report_run :
  fetchDelete (always 503 "busy") 0
  = (Val (None, Some (errors_New ("request failed with status "
                                   ++ Str.itoa 503 ++ ": " ++ "busy")%string)),
     [EvDo (postJSON (client 0) "/gdpr?controller=delete&action=fetch" "{}")]
     ++ [EvRead 0; EvClose 0]).
Proof.
  apply (proj1 (proj2 (proj2 (proj2
           (operations_report_status Pow overflow (always 503 "busy") rand as_printed sends_all
              string "null" no_parse_error show_body))))
           (client 0) fetch_input [] _ "{}" (response 503 0 "busy"));
    try reflexivity.
  simpl. lia.
Defined.

(** An envelope that says 404 in a response with the status 200. *)
Lemma not_found_run :
  @FetchInfoRequest Pow overflow (always 200 "{}") rand as_printed sends_all string "null"
    _ _ _ (constant_envelope string not_found_envelope) no_parse_error
    (client 3) fetch_input []
  = (Val (None, Some (errors_New "info request not found")),
     [EvDo (postJSON (client 3) "/gdpr?action=fetch" "{}")]
     ++ [EvRead 0; EvClose 0]).
Proof.
  apply (proj1 (proj2
           (@operations_report_service_error Pow overflow (always 200 "{}") rand as_printed sends_all
              string "null" _ _ _ _ _ _ _ _ _ _ _
              (constant_envelope string not_found_envelope) _ no_parse_error))
           (client 3) fetch_input [] _ "{}" (response 200 0 "{}")
           not_found_envelope);
    try reflexivity.
  simpl. lia.
Defined.

(** Any 200 is a success for the creation of an info request. *)
Lemma envelope_ignored_run :
  createInfo (always 200 "{}") 3
  = (Val (Some (fst (json_Unmarshal (body_bytes (Body (response 200 0 "{}")))
                       zero_InfoRequest)), None),
     [EvDo (postJSON (client 3) "/gdpr?action=create" "{}")]
     ++ [EvRead 0;
         EvLog "GDPRClientLibrary.CreateInfo - Response Body: {}";
         EvClose 0]).
Proof.
  apply (CreateInfoRequest_ignores_the_envelope Pow overflow (always 200 "{}") rand as_printed sends_all
           no_parse_error show_body (client 3) create_input [] _ "{}"
           (response 200 0 "{}"));
    reflexivity.
Defined.

(** A 404 on the first attempt: one exchange, and the status reported. *)
Lemma first_answer_run :
  fetchInfo (always 404 "gone") 3
  = (Val (None, Some (errors_New ("request failed with status "
                                   ++ Str.itoa 404 ++ ": " ++ "gone")%string)),
     [] ++ [EvDo (postJSON (client 3) "/gdpr?action=fetch" "{}");
            EvRead 0; EvClose 0]).
Proof.
  apply (proj1 (proj2 (proj2
           (operations_report_first_answer Pow overflow (always 404 "gone") rand as_printed sends_all
              string "null" no_parse_error show_body)))
           (client 3) fetch_input [] "{}" (response 404 0 "gone"));
    try reflexivity; simpl; lia.
Defined.

(** An envelope that says 200: the fetch returns the request decoded from
    its data. *)
Lemma fetched_run :
  @FetchInfoRequest Pow overflow (always 200 "{}") rand as_printed sends_all string "null"
    _ _ _ (constant_envelope string ok_envelope) no_parse_error
    (client 3) fetch_input []
  = (Val (Some zero_InfoRequest, None),
     [EvDo (postJSON (client 3) "/gdpr?action=fetch" "{}")]
     ++ [EvRead 0; EvClose 0]).
Proof.
  apply (proj1 (proj2
           (@operations_succeed Pow overflow (always 200 "{}") rand as_printed sends_all
              string "null" _ _ _ _ _ _ _ _ _ _ _
              (constant_envelope string ok_envelope) _ no_parse_error))
           (client 3) fetch_input [] _ "{}" (response 200 0 "{}")
           ok_envelope "{}" zero_InfoRequest);
    reflexivity.
Defined.

(** The sleeps of scenario A, each within the cap of 10 s, 30 s at most in
    all. *)
Lemma wait_run :
  exists (r : option http_Response * option error) (l : trace),
    execute busy_then_ok 3 = (Val r, [] ++ l)
    /\ Forall (fun d => 0 <= d <= MaxBackoff (retryPolicy (client 3))) (sleeps l)
    /\ sum_durations (sleeps l)
       <= MaxRetries (retryPolicy (client 3)) * MaxBackoff (retryPolicy (client 3)).
Proof.
  apply (doRequestWithRetry_wait_bounded Pow overflow busy_then_ok rand as_printed sends_all
           (client 3) request []).
  - simpl. lia.
  - vm_compute. split; [discriminate|reflexivity].
  - intros a n Ha. simpl in Ha.
    assert (Hcase : a = 0 \/ a = 1 \/ a = 2) by lia.
    destruct Hcase as [-> | [-> | ->]]; reflexivity.
Defined.

(** The fetch of an info request against a server that is always busy
    stops after the four exchanges and three sleeps the policy allows. *)
Lemma within_policy_run :
  within_policy (client 3)
    (FetchInfoRequest Pow overflow (always 503 "busy") rand as_printed sends_all string "null"
       no_parse_error (client 3) fetch_input).
Proof.
  apply (proj1 (proj2 (proj2 (operations_within_policy Pow overflow
                                (always 503 "busy") rand as_printed sends_all string "null"
                                no_parse_error show_body)))).
Defined.

(** ** Where the code parts from the claims *)

(** C8: a refused connection and an unknown host, as [httpClient.Do] reports
    them, are not retried: their messages are longer than the two texts
    [ShouldRetry] compares them with.  The causes alone are not retried
    either. *)
Theorem ShouldRetry_misses_network_errors :
  is_connection_refused (url_Error "Post" (URL request) refused) = true
  /\ ShouldRetry 0 (Some (url_Error "Post" (URL request) refused)) = false
  /\ is_no_such_host (url_Error "Post" (URL request) unknown_host) = true
  /\ ShouldRetry 0 (Some (url_Error "Post" (URL request) unknown_host)) = false
  /\ Error refused = "dial tcp 127.0.0.1:9: connect: connection refused"
  /\ ShouldRetry 0 (Some refused) = false
  /\ Error unknown_host = "dial tcp: lookup gdpr.invalid: no such host"
  /\ ShouldRetry 0 (Some unknown_host) = false.
Proof. repeat split; vm_compute; reflexivity. Qed.

(** C7: with three retries allowed and a server that refuses every
    connection, the run ends after the first exchange, without a sleep, and
    returns that first error. *)
Theorem refused_connection_is_not_retried :
  execute unreachable 3
  = (Val (None, Some (url_Error "Post" (URL request) refused)), [EvDo request])
  /\ attempts (snd (execute unreachable 3)) = 1%nat
  /\ sleeps (snd (execute unreachable 3)) = [].
Proof. repeat split; vm_compute; reflexivity. Qed.

(** C3: the response the executor returns after a failed last attempt has a
    closed body.  With no retry allowed and a 503, and with a 501 on the
    first attempt, the loop closes the body and returns the response; the
    caller's read of it fails, so [CreateInfoRequest] reports a read error
    in place of the status. *)
Theorem returned_body_is_closed :
  execute (always 503 "busy") 0
  = (Val (Some (response 503 0 "busy"), None), [EvDo request; EvClose 0])
  /\ execute (always 501 "no") 3
     = (Val (Some (response 501 0 "no"), None), [EvDo request; EvClose 0])
  /\ closed (body_id (Body (response 501 0 "no")))
       (snd (execute (always 501 "no") 3)) = true
  /\ fst (createInfo (always 501 "no") 3)
     = Val (None,
            Some (errors_New
                    "failed to read response body: http: read on closed response body")).
Proof. repeat split; vm_compute; reflexivity. Qed.

End Run.
